(** * Wickless strategy: signal detection and setup lifecycle

    A shallow embedding of the detection and lifecycle engine of the
    repository (swing points, trend, no-wick signal candle, structure
    based stop and target, retracement monitor, outcome evaluator and the
    in-memory signal manager), followed by the properties the
    specification states about it.

    TypeScript [number]s that carry prices are IEEE 754 binary64 values;
    they are modelled by [spec_float] with [prec = 53] and [emax = 1024],
    so that rounding, infinities and NaN behave as they do at run time.
    Counters, indices and lengths are integers far below 2^53 and are
    modelled by [nat]. *)

From Stdlib Require Import String DecimalString ZArith Bool List Sorted Lia
  PeanoNat.
From Stdlib Require Import Floats.SpecFloat.
Import ListNotations.

(* ===================================================================== *)
(** ** JavaScript numbers *)
(* ===================================================================== *)

Module Num.

Definition number : Type := spec_float.

Definition prec : Z := 53.
Definition emax : Z := 1024.

Definition add (a b : number) : number := SFadd prec emax a b.
Definition sub (a b : number) : number := SFsub prec emax a b.
Definition mul (a b : number) : number := SFmul prec emax a b.
Definition div (a b : number) : number := SFdiv prec emax a b.
Definition abs (a : number) : number := SFabs a.

(** The four relational operators.  A comparison with NaN is false. *)
Definition lt (a b : number) : bool := SFltb a b.
Definition le (a b : number) : bool := SFleb a b.
Definition gt (a b : number) : bool := SFltb b a.
Definition ge (a b : number) : bool := SFleb b a.

Definition is_nan (a : number) : bool :=
  match a with S754_nan => true | _ => false end.

Definition is_finite (a : number) : bool :=
  match a with
  | S754_zero _ | S754_finite _ _ _ => true
  | _ => false
  end.

(** An integer literal, and a decimal literal [m / 10^k].  Both operands
    of the division are exact, so the quotient is the binary64 value
    nearest to the decimal, which is what a literal such as [0.0002]
    denotes in the source. *)
Definition ofZ (z : Z) : number := binary_normalize prec emax z 0 false.
Definition dec (m : Z) (k : nat) : number :=
  div (ofZ m) (ofZ (10 ^ Z.of_nat k)).

End Num.

Import Num.

(* ===================================================================== *)
(** ** Exceptions *)
(* ===================================================================== *)

Inductive result (A : Type) : Type :=
| Ok (a : A)
| Throw (msg : string).

Arguments Ok {A} a.
Arguments Throw {A} msg.

Definition bind {A B : Type} (r : result A) (k : A -> result B) : result B :=
  match r with
  | Ok a => k a
  | Throw msg => Throw msg
  end.

Notation "x <- e ;; k" := (bind e (fun x => k))
  (at level 61, e at next level, right associativity).
Notation "' p <- e ;; k" := (bind e (fun p => k))
  (at level 61, p pattern, e at next level, right associativity).

(** Reading [xs[i]] and then one of its properties: an index outside the
    array yields [undefined], and the property access throws. *)
Definition at_index {A : Type} (xs : list A) (i : nat) : result A :=
  match nth_error xs i with
  | Some x => Ok x
  | None => Throw "TypeError: cannot read properties of undefined"
  end.

(** [xs[i - j]], where [i - j] may be negative. *)
Definition at_left {A : Type} (xs : list A) (i j : nat) : result A :=
  if i <? j then Throw "TypeError: cannot read properties of undefined"
  else at_index xs (i - j).

(* ===================================================================== *)
(** ** types/types.ts *)
(* ===================================================================== *)

Inductive Pair := EUR_USD | GBP_USD | AUD_USD | USD_JPY | XAU_USD.
Inductive Timeframe := M15 | M30 | H1 | H4.
Inductive Direction := BUY | SELL.
Inductive Trend := UP | DOWN | RANGING.
Inductive SwingType := HIGH | LOW.
Inductive SetupStatus := WAITING | TRIGGERED | EXPIRED.
Inductive SignalOutcome := WIN | LOSS.
Inductive Outcome := OutWIN | OutLOSS | OutOPEN.

Scheme Equality for Pair.
Scheme Equality for Timeframe.
Scheme Equality for SwingType.
Scheme Equality for SetupStatus.

(** [Pair] is a union of string literals: a pair is the string of its
    name, and is compared as such with the [pair: string] of a stored
    setup or signal. *)
Definition pairName (pair : Pair) : string :=
  match pair with
  | EUR_USD => "EUR_USD"
  | GBP_USD => "GBP_USD"
  | AUD_USD => "AUD_USD"
  | USD_JPY => "USD_JPY"
  | XAU_USD => "XAU_USD"
  end.

(** A candle also carries a [volume], which no function of the engine
    reads. *)
Record Candle := {
  c_time : string;
  c_open : number;
  c_high : number;
  c_low : number;
  c_close : number;
  c_complete : bool
}.

Record SwingPoint := {
  sp_index : nat;
  sp_time : string;
  sp_price : number;
  sp_type : SwingType
}.

Record TradeSetup := {
  ts_direction : Direction;
  ts_entryZone : number;
  ts_stopLoss : number;
  ts_takeProfit : number;
  ts_riskPips : number;
  ts_structurePoint : SwingPoint
}.

Record WicklessResult := {
  wr_isValid : bool;
  wr_direction : option Direction;
  wr_entryZone : option number;
  wr_candle : option Candle
}.

Record RetracementCheck := {
  rc_triggered : bool;
  rc_entryPrice : option number;
  rc_triggerCandle : option Candle;
  rc_candlesElapsed : nat
}.

Record ActiveSetup := {
  as_id : string;
  as_pair : string;
  as_timeframe : Timeframe;
  as_direction : Direction;
  as_signalCandleTime : string;
  as_signalCandleOpen : number;
  as_signalCandleHigh : number;
  as_signalCandleLow : number;
  as_signalCandleClose : number;
  as_entryZone : number;
  as_stopLoss : number;
  as_takeProfit : number;
  as_candlesElapsed : nat;
  as_status : SetupStatus;
  as_createdAt : string
}.

Record Signal := {
  sg_id : string;
  sg_setupId : string;
  sg_pair : string;
  sg_timeframe : Timeframe;
  sg_direction : Direction;
  sg_entryPrice : number;
  sg_stopLoss : number;
  sg_takeProfit : number;
  sg_entryTime : string;
  sg_outcome : option SignalOutcome;
  sg_outcomeTime : option string;
  sg_createdAt : string
}.

(* ===================================================================== *)
(** ** lib/config.ts *)
(* ===================================================================== *)

Record PairConfig := {
  symbol : string;
  displayName : string;
  tolerance : number;
  slBuffer : number;
  pipMultiplier : number
}.

Definition PAIR_CONFIGS (pair : Pair) : PairConfig :=
  match pair with
  | EUR_USD => {| symbol := "EUR_USD"; displayName := "EUR/USD";
                  tolerance := dec 2 5; slBuffer := dec 2 4;
                  pipMultiplier := ofZ 10000 |}
  | GBP_USD => {| symbol := "GBP_USD"; displayName := "GBP/USD";
                  tolerance := dec 2 5; slBuffer := dec 2 4;
                  pipMultiplier := ofZ 10000 |}
  | AUD_USD => {| symbol := "AUD_USD"; displayName := "AUD/USD";
                  tolerance := dec 2 5; slBuffer := dec 2 4;
                  pipMultiplier := ofZ 10000 |}
  | USD_JPY => {| symbol := "USD_JPY"; displayName := "USD/JPY";
                  tolerance := dec 2 3; slBuffer := dec 2 2;
                  pipMultiplier := ofZ 100 |}
  | XAU_USD => {| symbol := "XAU_USD"; displayName := "Gold (XAU/USD)";
                  tolerance := dec 2 2; slBuffer := dec 20 2;
                  pipMultiplier := ofZ 10 |}
  end.

Definition SWING_LOOKBACK : nat := 3.
Definition MAX_CANDLES_FOR_ENTRY : nat := 10.
Definition MIN_SWING_POINTS : nat := 4.

Definition getTolerance (pair : Pair) : number := tolerance (PAIR_CONFIGS pair).
Definition getSLBuffer (pair : Pair) : number := slBuffer (PAIR_CONFIGS pair).
Definition getPipMultiplier (pair : Pair) : number :=
  pipMultiplier (PAIR_CONFIGS pair).

(* ===================================================================== *)
(** ** lib/detection/swingPoints.ts *)
(* ===================================================================== *)

(** [l.f OP current.f || r.f OP current.f] on two array reads [l] and
    [r]: a read outside the array gives [undefined], whose property
    access throws; the right operand is evaluated only when the left one
    is false. *)
Definition eitherNeighbour (l r : result Candle) (test : Candle -> bool)
    : result bool :=
  leftCandle <- l ;;
  if test leftCandle then Ok true
  else rightCandle <- r ;; Ok (test rightCandle).

(** The inner loop [for (j = 1; j <= lookback; j++)] of [findSwingPoints],
    entered at [j] with [remaining] iterations left.  The two flags are
    only ever lowered, and the loop is left early once both are down. *)
Fixpoint checkNeighbours (candles : list Candle) (current : Candle)
    (i : nat) (remaining j : nat) (isSwingHigh isSwingLow : bool)
    : result (bool * bool) :=
  match remaining with
  | O => Ok (isSwingHigh, isSwingLow)
  | S remaining' =>
      let leftCandle := at_left candles i j in
      let rightCandle := at_index candles (i + j) in
      higher <- eitherNeighbour leftCandle rightCandle
                  (fun n => ge (c_high n) (c_high current)) ;;
      let isSwingHigh := if higher then false else isSwingHigh in
      lower <- eitherNeighbour leftCandle rightCandle
                 (fun n => le (c_low n) (c_low current)) ;;
      let isSwingLow := if lower then false else isSwingLow in
      if negb isSwingHigh && negb isSwingLow
      then Ok (isSwingHigh, isSwingLow)
      else checkNeighbours candles current i remaining' (S j)
             isSwingHigh isSwingLow
  end.

(** The outer loop [for (i = lookback; i < candles.length - lookback; i++)],
    entered at [i] with [remaining] iterations left. *)
Fixpoint scanCandles (candles : list Candle) (lookback : nat)
    (remaining i : nat) (swings : list SwingPoint)
    : result (list SwingPoint) :=
  match remaining with
  | O => Ok swings
  | S remaining' =>
      current <- at_index candles i ;;
      ' (isSwingHigh, isSwingLow) <-
        checkNeighbours candles current i lookback 1 true true ;;
      let swings :=
        if isSwingHigh
        then swings ++ [ {| sp_index := i; sp_time := c_time current;
                            sp_price := c_high current; sp_type := HIGH |} ]
        else swings in
      let swings :=
        if isSwingLow
        then swings ++ [ {| sp_index := i; sp_time := c_time current;
                            sp_price := c_low current; sp_type := LOW |} ]
        else swings in
      scanCandles candles lookback remaining' (S i) swings
  end.

(** [swings.sort((a, b) => a.index - b.index)].  The language requires
    [Array.prototype.sort] to be stable, which determines its result; a
    stable insertion sort computes it.  [sortByIndex] inserts the elements
    from the last to the first, each in front of the first element whose
    index is not smaller, so that equal indices keep their order. *)
Fixpoint insertByIndex (s : SwingPoint) (sorted : list SwingPoint)
    : list SwingPoint :=
  match sorted with
  | [] => [s]
  | t :: rest =>
      if sp_index s <=? sp_index t then s :: t :: rest
      else t :: insertByIndex s rest
  end.

Definition sortByIndex (swings : list SwingPoint) : list SwingPoint :=
  fold_right insertByIndex [] swings.

Definition findSwingPoints (candles : list Candle) (lookback : nat)
    : result (list SwingPoint) :=
  if length candles <? lookback * 2 + 1 then Ok []
  else
    swings <- scanCandles candles lookback
                (length candles - lookback - lookback) lookback [] ;;
    Ok (sortByIndex swings).

Definition isType (t : SwingType) (s : SwingPoint) : bool :=
  SwingType_beq (sp_type s) t.

Definition findSwingHighs (candles : list Candle) (lookback : nat)
    : result (list SwingPoint) :=
  swings <- findSwingPoints candles lookback ;;
  Ok (filter (isType HIGH) swings).

Definition findSwingLows (candles : list Candle) (lookback : nat)
    : result (list SwingPoint) :=
  swings <- findSwingPoints candles lookback ;;
  Ok (filter (isType LOW) swings).

(** [xs.length > 0 ? xs[xs.length - 1] : null] *)
Definition lastOrNull {A : Type} (xs : list A) : option A :=
  if 0 <? length xs then nth_error xs (length xs - 1) else None.

Definition getMostRecentSwingHigh (candles : list Candle) (lookback : nat)
    : result (option SwingPoint) :=
  highs <- findSwingHighs candles lookback ;;
  Ok (lastOrNull highs).

Definition getMostRecentSwingLow (candles : list Candle) (lookback : nat)
    : result (option SwingPoint) :=
  lows <- findSwingLows candles lookback ;;
  Ok (lastOrNull lows).

Definition isHigherHigh (current previous : SwingPoint) : result bool :=
  if negb (isType HIGH current) || negb (isType HIGH previous)
  then Throw "Both swing points must be HIGHs"
  else Ok (gt (sp_price current) (sp_price previous)).

Definition isHigherLow (current previous : SwingPoint) : result bool :=
  if negb (isType LOW current) || negb (isType LOW previous)
  then Throw "Both swing points must be LOWs"
  else Ok (gt (sp_price current) (sp_price previous)).

Definition isLowerHigh (current previous : SwingPoint) : result bool :=
  if negb (isType HIGH current) || negb (isType HIGH previous)
  then Throw "Both swing points must be HIGHs"
  else Ok (lt (sp_price current) (sp_price previous)).

Definition isLowerLow (current previous : SwingPoint) : result bool :=
  if negb (isType LOW current) || negb (isType LOW previous)
  then Throw "Both swing points must be LOWs"
  else Ok (lt (sp_price current) (sp_price previous)).

(** [xs.slice(-2)]: the last two elements, or all of them if fewer. *)
Definition sliceLast2 {A : Type} (xs : list A) : list A :=
  skipn (length xs - 2) xs.

Record SwingRelationships := {
  sr_highs : list SwingPoint;
  sr_lows : list SwingPoint;
  hasHigherHigh : option bool;
  hasHigherLow : option bool;
  hasLowerHigh : option bool;
  hasLowerLow : option bool
}.

(** [xs.length >= 2] guards the reads of [xs[1]] and [xs[0]]. *)
Definition compareLastTwo (xs : list SwingPoint)
    (higher lower : SwingPoint -> SwingPoint -> result bool)
    : result (option bool * option bool) :=
  if 2 <=? length xs then
    x1 <- at_index xs 1 ;;
    x0 <- at_index xs 0 ;;
    h <- higher x1 x0 ;;
    l <- lower x1 x0 ;;
    Ok (Some h, Some l)
  else Ok (None, None).

Definition getSwingRelationships (candles : list Candle) (lookback : nat)
    : result SwingRelationships :=
  swings <- findSwingPoints candles lookback ;;
  let highs := sliceLast2 (filter (isType HIGH) swings) in
  let lows := sliceLast2 (filter (isType LOW) swings) in
  ' (hh, lh) <- compareLastTwo highs isHigherHigh isLowerHigh ;;
  ' (hl, ll) <- compareLastTwo lows isHigherLow isLowerLow ;;
  Ok {| sr_highs := highs; sr_lows := lows;
        hasHigherHigh := hh; hasHigherLow := hl;
        hasLowerHigh := lh; hasLowerLow := ll |}.

Definition getStructureForSL (candles : list Candle) (direction : Direction)
    (lookback : nat) : result (option SwingPoint) :=
  match direction with
  | BUY => getMostRecentSwingLow candles lookback
  | SELL => getMostRecentSwingHigh candles lookback
  end.

Definition hasEnoughSwingPoints (candles : list Candle) (lookback : nat)
    (minRequired : nat) : result bool :=
  swings <- findSwingPoints candles lookback ;;
  Ok (minRequired <=? length swings).

(* ===================================================================== *)
(** ** lib/detection/trend.ts *)
(* ===================================================================== *)

Definition isTrue (b : option bool) : bool :=
  match b with Some true => true | _ => false end.

Definition classifyTrend (candles : list Candle) (lookback : nat)
    : result Trend :=
  enough <- hasEnoughSwingPoints candles lookback MIN_SWING_POINTS ;;
  if negb enough then Ok RANGING
  else
    relationships <- getSwingRelationships candles lookback ;;
    if isTrue (hasHigherHigh relationships)
       && isTrue (hasHigherLow relationships)
    then Ok UP
    else if isTrue (hasLowerHigh relationships)
            && isTrue (hasLowerLow relationships)
    then Ok DOWN
    else Ok RANGING.

(* ===================================================================== *)
(** ** lib/detection/wickless.ts *)
(* ===================================================================== *)

Definition noSignal : WicklessResult :=
  {| wr_isValid := false; wr_direction := None;
     wr_entryZone := None; wr_candle := None |}.

(** [upperWick] and [lowerWick] are computed by the source "for
    reference" and never read; only [bodySize] takes part in a decision. *)
Definition detectWickless (candle : Candle) (pair : Pair) (trend : Trend)
    : WicklessResult :=
  match trend with
  | RANGING => noSignal
  | _ =>
      let tolerance := getTolerance pair in
      let open := c_open candle in
      let high := c_high candle in
      let low := c_low candle in
      let close := c_close candle in
      let bodySize := abs (sub close open) in
      if lt bodySize tolerance then noSignal
      else
        let bullish :=
          match trend with
          | UP =>
              let isBullish := gt close open in
              let hasNoBottomWick := ge low (sub open tolerance) in
              isBullish && hasNoBottomWick
          | _ => false
          end in
        if bullish
        then {| wr_isValid := true; wr_direction := Some BUY;
                wr_entryZone := Some low; wr_candle := Some candle |}
        else
          let bearish :=
            match trend with
            | DOWN =>
                let isBearish := lt close open in
                let hasNoTopWick := le high (add open tolerance) in
                isBearish && hasNoTopWick
            | _ => false
            end in
          if bearish
          then {| wr_isValid := true; wr_direction := Some SELL;
                  wr_entryZone := Some high; wr_candle := Some candle |}
          else noSignal
  end.

(* ===================================================================== *)
(** ** lib/detection/structure.ts *)
(* ===================================================================== *)

Definition calculateTradeSetup (direction : Direction) (entryZone : number)
    (candles : list Candle) (pair : Pair) : result (option TradeSetup) :=
  let buffer := getSLBuffer pair in
  structurePoint <- getStructureForSL candles direction SWING_LOOKBACK ;;
  match structurePoint with
  | None => Ok None
  | Some structurePoint =>
      match direction with
      | BUY =>
          let stopLoss := sub (sp_price structurePoint) buffer in
          let risk := sub entryZone stopLoss in
          let takeProfit := add entryZone risk in
          let riskPips := mul risk (getPipMultiplier pair) in
          Ok (Some {| ts_direction := direction; ts_entryZone := entryZone;
                      ts_stopLoss := stopLoss; ts_takeProfit := takeProfit;
                      ts_riskPips := riskPips;
                      ts_structurePoint := structurePoint |})
      | SELL =>
          let stopLoss := add (sp_price structurePoint) buffer in
          let risk := sub stopLoss entryZone in
          let takeProfit := sub entryZone risk in
          let riskPips := mul risk (getPipMultiplier pair) in
          Ok (Some {| ts_direction := direction; ts_entryZone := entryZone;
                      ts_stopLoss := stopLoss; ts_takeProfit := takeProfit;
                      ts_riskPips := riskPips;
                      ts_structurePoint := structurePoint |})
      end
  end.

Record Validation := {
  valid : bool;
  reason : string
}.

Section Formatting.

(** [Number.prototype.toFixed] and the conversion of a number inside a
    template literal belong to the language; the embedding takes them
    as given.  [toFixed] throws only for a digit count outside 0..100,
    and the source always passes 1. *)
Variable toFixed : number -> nat -> string.
Variable numberToString : number -> string.

Definition validateSetup (setup : TradeSetup) (pair : Pair)
    (minPips maxPips : number) : Validation :=
  if lt (ts_riskPips setup) minPips then
    {| valid := false;
       reason := ("Risk too small: " ++ toFixed (ts_riskPips setup) 1
                  ++ " pips (min: " ++ numberToString minPips ++ ")")%string |}
  else if gt (ts_riskPips setup) maxPips then
    {| valid := false;
       reason := ("Risk too large: " ++ toFixed (ts_riskPips setup) 1
                  ++ " pips (max: " ++ numberToString maxPips ++ ")")%string |}
  else
    match ts_direction setup with
    | BUY =>
        if le (ts_entryZone setup) (ts_stopLoss setup) then
          {| valid := false;
             reason := "Entry must be above Stop Loss for BUY" |}
        else if ge (ts_entryZone setup) (ts_takeProfit setup) then
          {| valid := false;
             reason := "Entry must be below Take Profit for BUY" |}
        else {| valid := true; reason := "Setup is valid" |}
    | SELL =>
        if ge (ts_entryZone setup) (ts_stopLoss setup) then
          {| valid := false;
             reason := "Entry must be below Stop Loss for SELL" |}
        else if le (ts_entryZone setup) (ts_takeProfit setup) then
          {| valid := false;
             reason := "Entry must be above Take Profit for SELL" |}
        else {| valid := true; reason := "Setup is valid" |}
    end.

End Formatting.

(** The defaults of [validateSetup]: 5 and 50 pips. *)
Definition DEFAULT_MIN_PIPS : number := ofZ 5.
Definition DEFAULT_MAX_PIPS : number := ofZ 50.

Definition checkOutcome (setup : TradeSetup) (currentHigh currentLow : number)
    : Outcome :=
  match ts_direction setup with
  | BUY =>
      if ge currentHigh (ts_takeProfit setup) then OutWIN
      else if le currentLow (ts_stopLoss setup) then OutLOSS
      else OutOPEN
  | SELL =>
      if le currentLow (ts_takeProfit setup) then OutWIN
      else if ge currentHigh (ts_stopLoss setup) then OutLOSS
      else OutOPEN
  end.

(* ===================================================================== *)
(** ** lib/signals/retracement.ts *)
(* ===================================================================== *)

(** The loop of [checkRetracement] over [candlesToCheck], entered at
    index [i]; [None] when it runs to the end without returning. *)
Fixpoint findTrigger (direction : Direction) (entryZone : number)
    (candlesToCheck : list Candle) (i : nat) : option RetracementCheck :=
  match candlesToCheck with
  | [] => None
  | candle :: rest =>
      if negb (c_complete candle)
      then findTrigger direction entryZone rest (S i)
      else
        let hit :=
          match direction with
          | BUY => le (c_low candle) entryZone
          | SELL => ge (c_high candle) entryZone
          end in
        if hit
        then Some {| rc_triggered := true; rc_entryPrice := Some entryZone;
                     rc_triggerCandle := Some candle;
                     rc_candlesElapsed := i + 1 |}
        else findTrigger direction entryZone rest (S i)
  end.

Definition checkRetracement (direction : Direction) (entryZone : number)
    (subsequentCandles : list Candle) : RetracementCheck :=
  let maxCandles := MAX_CANDLES_FOR_ENTRY in
  let candlesToCheck := firstn maxCandles subsequentCandles in
  match findTrigger direction entryZone candlesToCheck 0 with
  | Some r => r
  | None => {| rc_triggered := false; rc_entryPrice := None;
               rc_triggerCandle := None;
               rc_candlesElapsed := length candlesToCheck |}
  end.

Definition isSetupExpired (candlesElapsed : nat) : bool :=
  MAX_CANDLES_FOR_ENTRY <=? candlesElapsed.

Record MonitorResult := {
  mr_triggered : list ActiveSetup;
  mr_expired : list ActiveSetup;
  mr_stillActive : list ActiveSetup
}.

(** [{ ...setup, candlesElapsed, status }] *)
Definition withProgress (setup : ActiveSetup) (candlesElapsed : nat)
    (status : SetupStatus) : ActiveSetup :=
  {| as_id := as_id setup; as_pair := as_pair setup;
     as_timeframe := as_timeframe setup; as_direction := as_direction setup;
     as_signalCandleTime := as_signalCandleTime setup;
     as_signalCandleOpen := as_signalCandleOpen setup;
     as_signalCandleHigh := as_signalCandleHigh setup;
     as_signalCandleLow := as_signalCandleLow setup;
     as_signalCandleClose := as_signalCandleClose setup;
     as_entryZone := as_entryZone setup; as_stopLoss := as_stopLoss setup;
     as_takeProfit := as_takeProfit setup;
     as_candlesElapsed := candlesElapsed; as_status := status;
     as_createdAt := as_createdAt setup |}.

(** One pass of the body of [for (const setup of setups)]. *)
Definition monitorOne (newCandle : Candle) (acc : MonitorResult)
    (setup : ActiveSetup) : MonitorResult :=
  if negb (SetupStatus_beq (as_status setup) WAITING) then acc
  else
    let newCandlesElapsed := as_candlesElapsed setup + 1 in
    let isTriggered :=
      match as_direction setup with
      | BUY => le (c_low newCandle) (as_entryZone setup)
      | SELL => ge (c_high newCandle) (as_entryZone setup)
      end in
    if isTriggered then
      {| mr_triggered :=
           mr_triggered acc ++ [withProgress setup newCandlesElapsed TRIGGERED];
         mr_expired := mr_expired acc;
         mr_stillActive := mr_stillActive acc |}
    else if isSetupExpired newCandlesElapsed then
      {| mr_triggered := mr_triggered acc;
         mr_expired :=
           mr_expired acc ++ [withProgress setup newCandlesElapsed EXPIRED];
         mr_stillActive := mr_stillActive acc |}
    else
      {| mr_triggered := mr_triggered acc;
         mr_expired := mr_expired acc;
         mr_stillActive :=
           mr_stillActive acc
           ++ [withProgress setup newCandlesElapsed (as_status setup)] |}.

Definition monitorSetups (setups : list ActiveSetup) (newCandle : Candle)
    : MonitorResult :=
  fold_left (monitorOne newCandle) setups
    {| mr_triggered := []; mr_expired := []; mr_stillActive := [] |}.

(* ===================================================================== *)
(** ** lib/signals/manager.ts *)
(* ===================================================================== *)

(** A JavaScript [Map] with string keys: at most one entry per key, kept
    in insertion order; [set] on a present key replaces the value where
    it stands. *)
Module JsMap.

Definition t (V : Type) : Type := list (string * V).

Definition empty {V : Type} : t V := [].

Fixpoint set {V : Type} (k : string) (v : V) (m : t V) : t V :=
  match m with
  | [] => [(k, v)]
  | (k', v') :: rest =>
      if String.eqb k' k then (k, v) :: rest
      else (k', v') :: set k v rest
  end.

Fixpoint delete {V : Type} (k : string) (m : t V) : t V :=
  match m with
  | [] => []
  | (k', v') :: rest =>
      if String.eqb k' k then rest else (k', v') :: delete k rest
  end.

Definition values {V : Type} (m : t V) : list V := map snd m.

End JsMap.

(** The fields of a [DetailedScanResult] that the manager reads. *)
Record ScanResult := {
  scan_pair : Pair;
  scan_timeframe : Timeframe;
  wicklessDetected : bool;
  wicklessCandle : option Candle;
  scan_setup : option TradeSetup
}.

Record SignalManager := {
  activeSetups : JsMap.t ActiveSetup;
  triggeredSignals : JsMap.t Signal;
  expiredSetups : list ActiveSetup;
  completedSignals : list Signal
}.

Definition newSignalManager : SignalManager :=
  {| activeSetups := JsMap.empty; triggeredSignals := JsMap.empty;
     expiredSetups := []; completedSignals := [] |}.

Definition setActiveSetups (m : SignalManager) (a : JsMap.t ActiveSetup)
    : SignalManager :=
  {| activeSetups := a; triggeredSignals := triggeredSignals m;
     expiredSetups := expiredSetups m;
     completedSignals := completedSignals m |}.

Definition setTriggeredSignals (m : SignalManager) (s : JsMap.t Signal)
    : SignalManager :=
  {| activeSetups := activeSetups m; triggeredSignals := s;
     expiredSetups := expiredSetups m;
     completedSignals := completedSignals m |}.

Definition setExpiredSetups (m : SignalManager) (e : list ActiveSetup)
    : SignalManager :=
  {| activeSetups := activeSetups m; triggeredSignals := triggeredSignals m;
     expiredSetups := e; completedSignals := completedSignals m |}.

Definition addSetup (m : SignalManager) (setup : ActiveSetup)
    : SignalManager :=
  setActiveSetups m (JsMap.set (as_id setup) setup (activeSetups m)).

Definition getActiveSetups (m : SignalManager) : list ActiveSetup :=
  JsMap.values (activeSetups m).

Definition hasExistingSetup (m : SignalManager) (pair : Pair)
    (signalCandleTime : string) : bool :=
  existsb
    (fun s => String.eqb (as_pair s) (pairName pair)
              && String.eqb (as_signalCandleTime s) signalCandleTime)
    (getActiveSetups m).

Record ProcessResult := {
  pr_triggered : list Signal;
  pr_expired : list ActiveSetup;
  pr_stillActive : list ActiveSetup
}.

Section Environment.

(** [generateId()] reads the clock and the random generator, and
    [new Date().toISOString()] the clock.  The embedding threads a
    counter of such reads, [tick], and takes the value of the n-th read
    as given. *)
Variable generateId : nat -> string.
Variable nowISOString : nat -> string.

Definition createActiveSetup (tick : nat) (scanResult : ScanResult)
    : option ActiveSetup * nat :=
  match wicklessDetected scanResult, wicklessCandle scanResult,
        scan_setup scanResult with
  | true, Some candle, Some setup =>
      (Some {| as_id := generateId tick;
               as_pair := pairName (scan_pair scanResult);
               as_timeframe := scan_timeframe scanResult;
               as_direction := ts_direction setup;
               as_signalCandleTime := c_time candle;
               as_signalCandleOpen := c_open candle;
               as_signalCandleHigh := c_high candle;
               as_signalCandleLow := c_low candle;
               as_signalCandleClose := c_close candle;
               as_entryZone := ts_entryZone setup;
               as_stopLoss := ts_stopLoss setup;
               as_takeProfit := ts_takeProfit setup;
               as_candlesElapsed := 0;
               as_status := WAITING;
               as_createdAt := nowISOString tick |}, S tick)
  | _, _, _ => (None, tick)
  end.

Definition createSignal (tick : nat) (setup : ActiveSetup)
    (entryTime : string) : Signal * nat :=
  ({| sg_id := generateId tick;
      sg_setupId := as_id setup;
      sg_pair := as_pair setup;
      sg_timeframe := as_timeframe setup;
      sg_direction := as_direction setup;
      sg_entryPrice := as_entryZone setup;
      sg_stopLoss := as_stopLoss setup;
      sg_takeProfit := as_takeProfit setup;
      sg_entryTime := entryTime;
      sg_outcome := None;
      sg_outcomeTime := None;
      sg_createdAt := nowISOString tick |}, S tick).

(** Body of [for (const setup of result.triggered)]. *)
Definition recordTriggered (candle : Candle)
    (st : SignalManager * nat * list Signal) (setup : ActiveSetup)
    : SignalManager * nat * list Signal :=
  let '(m, tick, signals) := st in
  let setup := withProgress setup (as_candlesElapsed setup) TRIGGERED in
  let m := setActiveSetups m
             (JsMap.set (as_id setup) setup (activeSetups m)) in
  let '(signal, tick) := createSignal tick setup (c_time candle) in
  let m := setTriggeredSignals m
             (JsMap.set (sg_id signal) signal (triggeredSignals m)) in
  let m := setActiveSetups m (JsMap.delete (as_id setup) (activeSetups m)) in
  (m, tick, signals ++ [signal]).

(** Body of [for (const setup of result.expired)].  The assignment to
    [setup.status] is visible in [result.expired], which is returned. *)
Definition recordExpired (st : SignalManager * list ActiveSetup)
    (setup : ActiveSetup) : SignalManager * list ActiveSetup :=
  let '(m, expired) := st in
  let setup := withProgress setup (as_candlesElapsed setup) EXPIRED in
  let m := setExpiredSetups m (expiredSetups m ++ [setup]) in
  let m := setActiveSetups m (JsMap.delete (as_id setup) (activeSetups m)) in
  (m, expired ++ [setup]).

(** Body of [for (const setup of result.stillActive)]. *)
Definition recordStillActive (m : SignalManager) (setup : ActiveSetup)
    : SignalManager :=
  setActiveSetups m (JsMap.set (as_id setup) setup (activeSetups m)).

Definition processNewCandle (m : SignalManager) (tick : nat) (pair : Pair)
    (timeframe : Timeframe) (candle : Candle)
    : ProcessResult * SignalManager * nat :=
  let relevantSetups :=
    filter
      (fun s => String.eqb (as_pair s) (pairName pair)
                && Timeframe_beq (as_timeframe s) timeframe
                && SetupStatus_beq (as_status s) WAITING)
      (getActiveSetups m) in
  let result := monitorSetups relevantSetups candle in
  let '(m, tick, signals) :=
    fold_left (recordTriggered candle) (mr_triggered result) (m, tick, []) in
  let '(m, expired) :=
    fold_left recordExpired (mr_expired result) (m, []) in
  let m := fold_left recordStillActive (mr_stillActive result) m in
  ({| pr_triggered := signals; pr_expired := expired;
      pr_stillActive := mr_stillActive result |}, m, tick).

End Environment.

(* ===================================================================== *)
(** ** Vocabulary of the specification *)
(* ===================================================================== *)

(** "BUY triggers iff candle low <= entryZone; SELL triggers iff candle
    high >= entryZone." *)
Definition entryReached (direction : Direction) (entryZone : number)
    (candle : Candle) : bool :=
  match direction with
  | BUY => le (c_low candle) entryZone
  | SELL => ge (c_high candle) entryZone
  end.

(** The target and the stop condition of the outcome evaluator. *)
Definition targetHit (setup : TradeSetup) (high low : number) : bool :=
  match ts_direction setup with
  | BUY => ge high (ts_takeProfit setup)
  | SELL => le low (ts_takeProfit setup)
  end.

Definition stopHit (setup : TradeSetup) (high low : number) : bool :=
  match ts_direction setup with
  | BUY => le low (ts_stopLoss setup)
  | SELL => ge high (ts_stopLoss setup)
  end.

Definition isWaiting (s : ActiveSetup) : bool :=
  SetupStatus_beq (as_status s) WAITING.

Definition setupTriggers (newCandle : Candle) (s : ActiveSetup) : bool :=
  entryReached (as_direction s) (as_entryZone s) newCandle.

(** A setup after one more candle. *)
Definition advanced (status : SetupStatus) (s : ActiveSetup) : ActiveSetup :=
  withProgress s (as_candlesElapsed s + 1) status.

(** The status a WAITING setup takes on a new candle: the trigger test
    comes first, the expiry test second. *)
Definition nextStatus (newCandle : Candle) (s : ActiveSetup) : SetupStatus :=
  if setupTriggers newCandle s then TRIGGERED
  else if MAX_CANDLES_FOR_ENTRY <=? as_candlesElapsed s + 1 then EXPIRED
  else WAITING.

(** The WAITING setups of a list that take status [st] on the new candle,
    each advanced by that candle. *)
Definition movedTo (st : SetupStatus) (newCandle : Candle)
    (setups : list ActiveSetup) : list ActiveSetup :=
  map (advanced st)
    (filter (fun s => SetupStatus_beq (nextStatus newCandle s) st)
       (filter isWaiting setups)).

(** A candle of the retracement window that fills the entry: it is
    complete and reaches the entry zone. *)
Definition fills (direction : Direction) (entryZone : number)
    (candle : Candle) : bool :=
  c_complete candle && entryReached direction entryZone candle.

(** "Entry sits strictly between stop and target", for the direction of
    the setup: BUY [stopLoss < entryZone < takeProfit], SELL
    [takeProfit < entryZone < stopLoss]. *)
Definition entryBetween (setup : TradeSetup) : bool :=
  match ts_direction setup with
  | BUY => lt (ts_stopLoss setup) (ts_entryZone setup)
           && lt (ts_entryZone setup) (ts_takeProfit setup)
  | SELL => lt (ts_takeProfit setup) (ts_entryZone setup)
            && lt (ts_entryZone setup) (ts_stopLoss setup)
  end.

(** [riskPips] inside the band [minPips, maxPips], ends included. *)
Definition riskInBand (setup : TradeSetup) (minPips maxPips : number) : bool :=
  negb (lt (ts_riskPips setup) minPips)
  && negb (gt (ts_riskPips setup) maxPips).

(** A setup for the examples: an EUR/USD BUY with entry 1.0999, stop
    1.0948 and target 1.1050, a risk of 51 pips. *)
Definition exampleSwingLow : SwingPoint :=
  {| sp_index := 3; sp_time := "2024-01-02T10:00:00Z";
     sp_price := dec 10950 4; sp_type := LOW |}.

Definition exampleSetup : TradeSetup :=
  {| ts_direction := BUY; ts_entryZone := dec 10999 4;
     ts_stopLoss := dec 10948 4; ts_takeProfit := dec 11050 4;
     ts_riskPips := ofZ 51; ts_structurePoint := exampleSwingLow |}.

(** Seven EUR/USD candles of which the middle one has no low (its field
    did not parse). *)
Definition euroCandle (t : string) (low : number) : Candle :=
  {| c_time := t; c_open := dec 11000 4; c_high := dec 11020 4;
     c_low := low; c_close := dec 11010 4; c_complete := true |}.

Definition missingLowCandles : list Candle :=
  [ euroCandle "t0" (dec 10990 4); euroCandle "t1" (dec 10990 4);
    euroCandle "t2" (dec 10990 4);
    euroCandle "t3" S754_nan;
    euroCandle "t4" (dec 10990 4); euroCandle "t5" (dec 10990 4);
    euroCandle "t6" (dec 10990 4) ].

(** The test the inner loop applies to the neighbours at distance [j] of
    the candle at [i], for the high and for the low. *)
Definition highClears (candles : list Candle) (current : Candle)
    (i j : nat) : bool :=
  match nth_error candles (i - j), nth_error candles (i + j) with
  | Some l, Some r =>
      negb (ge (c_high l) (c_high current) || ge (c_high r) (c_high current))
  | _, _ => false
  end.

Definition lowClears (candles : list Candle) (current : Candle)
    (i j : nat) : bool :=
  match nth_error candles (i - j), nth_error candles (i + j) with
  | Some l, Some r =>
      negb (le (c_low l) (c_low current) || le (c_low r) (c_low current))
  | _, _ => false
  end.

(** The swing points the candle at index [i] gives rise to. *)
Definition swingsAt (candles : list Candle) (lookback i : nat)
    : list SwingPoint :=
  match nth_error candles i with
  | None => []
  | Some current =>
      (if forallb (highClears candles current i) (seq 1 lookback)
       then [ {| sp_index := i; sp_time := c_time current;
                 sp_price := c_high current; sp_type := HIGH |} ]
       else [])
      ++ (if forallb (lowClears candles current i) (seq 1 lookback)
          then [ {| sp_index := i; sp_time := c_time current;
                    sp_price := c_low current; sp_type := LOW |} ]
          else [])
  end.

(** The swing points of a candle list, index by index. *)
Definition swingPointsOf (candles : list Candle) (lookback : nat)
    : list SwingPoint :=
  flat_map (swingsAt candles lookback)
    (seq lookback (length candles - lookback - lookback)).

Definition byIndex (a b : SwingPoint) : Prop := sp_index a <= sp_index b.

(** A candle whose high and low are numbers. *)
Definition numericCandle (c : Candle) : Prop :=
  is_nan (c_high c) = false /\ is_nan (c_low c) = false.

Definition flatCandle (t : string) (high low : number) : Candle :=
  {| c_time := t; c_open := low; c_high := high; c_low := low;
     c_close := high; c_complete := true |}.

(** Three candles of which the middle one has both the highest high and
    the lowest low. *)
Definition outsideBar : list Candle :=
  [ flatCandle "t0" (ofZ 3) (ofZ 2);
    flatCandle "t1" (ofZ 4) (ofZ 1);
    flatCandle "t2" (ofZ 3) (ofZ 2) ].

(** Three candles of which the outer two have no high. *)
Definition nanNeighbours : list Candle :=
  [ flatCandle "t0" S754_nan (ofZ 1);
    flatCandle "t1" (ofZ 4) (ofZ 2);
    flatCandle "t2" S754_nan (ofZ 1) ].

(** The previous and the latest of a chronological list of swings, when
    it has at least two. *)
Definition lastTwo (xs : list SwingPoint) : option (SwingPoint * SwingPoint) :=
  match rev xs with
  | latest :: previous :: _ => Some (previous, latest)
  | _ => None
  end.

(** "The latest swing of the kind is strictly higher (lower) than the
    previous one." *)
Definition risingSwings (kind : SwingType) (swings : list SwingPoint) : Prop :=
  exists previous latest,
    lastTwo (filter (isType kind) swings) = Some (previous, latest)
    /\ gt (sp_price latest) (sp_price previous) = true.

Definition fallingSwings (kind : SwingType) (swings : list SwingPoint) : Prop :=
  exists previous latest,
    lastTwo (filter (isType kind) swings) = Some (previous, latest)
    /\ lt (sp_price latest) (sp_price previous) = true.

(** The kind of swing that anchors the stop: a swing LOW for a BUY, a
    swing HIGH for a SELL. *)
Definition anchorKind (direction : Direction) : SwingType :=
  match direction with BUY => LOW | SELL => HIGH end.

(** The levels [calculateTradeSetup] derives from an anchor. *)
Definition setupFrom (direction : Direction) (entryZone : number)
    (pair : Pair) (anchor : SwingPoint) : TradeSetup :=
  match direction with
  | BUY =>
      let stopLoss := sub (sp_price anchor) (getSLBuffer pair) in
      let risk := sub entryZone stopLoss in
      {| ts_direction := BUY; ts_entryZone := entryZone;
         ts_stopLoss := stopLoss; ts_takeProfit := add entryZone risk;
         ts_riskPips := mul risk (getPipMultiplier pair);
         ts_structurePoint := anchor |}
  | SELL =>
      let stopLoss := add (sp_price anchor) (getSLBuffer pair) in
      let risk := sub stopLoss entryZone in
      {| ts_direction := SELL; ts_entryZone := entryZone;
         ts_stopLoss := stopLoss; ts_takeProfit := sub entryZone risk;
         ts_riskPips := mul risk (getPipMultiplier pair);
         ts_structurePoint := anchor |}
  end.

(** A candle whose high and low are finite numbers. *)
Definition finiteCandle (c : Candle) : Prop :=
  is_finite (c_high c) = true /\ is_finite (c_low c) = true.

(** Seven USD/JPY candles with a swing low of 127.60 in the middle. *)
Definition yenCandle (t : string) (low : Z) : Candle :=
  {| c_time := t; c_open := dec low 2; c_high := dec (low + 30) 2;
     c_low := dec low 2; c_close := dec (low + 20) 2; c_complete := true |}.

Definition yenCandles : list Candle :=
  [ yenCandle "t0" 12790; yenCandle "t1" 12780; yenCandle "t2" 12770;
    yenCandle "t3" 12760;
    yenCandle "t4" 12770; yenCandle "t5" 12780; yenCandle "t6" 12790 ].

(** A manager scenario: one WAITING USD/JPY setup on the signal candle of
    10:00, and the next candles of the pair. *)
Definition signalTime : string := "2024-01-02T10:00:00Z".

Definition waitingSetup (id : string) (elapsed : nat) : ActiveSetup :=
  {| as_id := id; as_pair := "USD_JPY"; as_timeframe := M15;
     as_direction := BUY; as_signalCandleTime := signalTime;
     as_signalCandleOpen := dec 12780 2; as_signalCandleHigh := dec 12810 2;
     as_signalCandleLow := dec 12780 2; as_signalCandleClose := dec 12805 2;
     as_entryZone := dec 12780 2; as_stopLoss := dec 12758 2;
     as_takeProfit := dec 12802 2;
     as_candlesElapsed := elapsed; as_status := WAITING;
     as_createdAt := "2024-01-02T10:15:01Z" |}.

(** A candle that retraces to 127.75, and one that stays above 127.90. *)
Definition retracingCandle : Candle :=
  {| c_time := "2024-01-02T10:15:00Z"; c_open := dec 12800 2;
     c_high := dec 12815 2; c_low := dec 12775 2; c_close := dec 12790 2;
     c_complete := true |}.

Definition driftingCandle : Candle :=
  {| c_time := "2024-01-02T12:30:00Z"; c_open := dec 12900 2;
     c_high := dec 12930 2; c_low := dec 12890 2; c_close := dec 12920 2;
     c_complete := true |}.

Definition exampleIds (n : nat) : string :=
  match n with 0 => "1704190501000-a1b2c3d4e" | _ => "1704190502000-f5g6h7i8j" end.

Definition exampleClock (n : nat) : string := "2024-01-02T10:15:01Z".

(* ===================================================================== *)
(** ** Further functions of the engine *)
(* ===================================================================== *)

(** *** lib/signals/retracement.ts *)

(** [Math.max(0, MAX_CANDLES_FOR_ENTRY - candlesElapsed)] *)
Definition getRemainingCandles (candlesElapsed : nat) : nat :=
  Z.to_nat
    (Z.max 0 (Z.of_nat MAX_CANDLES_FOR_ENTRY - Z.of_nat candlesElapsed)).

Inductive UrgencyLevel :=
  URGENCY_LOW | URGENCY_MEDIUM | URGENCY_HIGH | URGENCY_CRITICAL.

Definition getUrgencyLevel (candlesElapsed : nat) : UrgencyLevel :=
  let remaining := getRemainingCandles candlesElapsed in
  if 7 <=? remaining then URGENCY_LOW
  else if 4 <=? remaining then URGENCY_MEDIUM
  else if 2 <=? remaining then URGENCY_HIGH
  else URGENCY_CRITICAL.

(** A natural number inside a template literal: its decimal digits. *)
Definition natToString (n : nat) : string :=
  NilEmpty.string_of_uint (Nat.to_uint n).

Definition formatCountdown (candlesElapsed : nat) : string :=
  let remaining := getRemainingCandles candlesElapsed in
  if remaining =? 0 then "EXPIRED"%string
  else (natToString remaining ++ "/"
        ++ natToString MAX_CANDLES_FOR_ENTRY ++ " candles remaining")%string.

Definition isSetupValid (setup : ActiveSetup) : bool :=
  SetupStatus_beq (as_status setup) WAITING
  && negb (isSetupExpired (as_candlesElapsed setup)).

Record Simulation := {
  entryTriggered : bool;
  entryCandle : option Candle;
  candlesToEntry : nat;
  sim_expired : bool
}.

Definition simulateRetracement (signalCandle : Candle) (direction : Direction)
    (entryZone : number) (subsequentCandles : list Candle) : Simulation :=
  let result := checkRetracement direction entryZone subsequentCandles in
  {| entryTriggered := rc_triggered result;
     entryCandle := rc_triggerCandle result;
     candlesToEntry := rc_candlesElapsed result;
     sim_expired := negb (rc_triggered result)
                    && (MAX_CANDLES_FOR_ENTRY <=? rc_candlesElapsed result) |}.

(** *** lib/detection/structure.ts *)

Definition checkEntryTrigger (setup : TradeSetup)
    (currentHigh currentLow : number) : bool :=
  match ts_direction setup with
  | BUY => le currentLow (ts_entryZone setup)
  | SELL => ge currentHigh (ts_entryZone setup)
  end.

(** *** lib/detection/swingPoints.ts *)

(** [xs.slice(-count)] for a count that is a natural number: [-0] is [0],
    so a count of zero keeps the whole array. *)
Definition sliceLast {A : Type} (count : nat) (xs : list A) : list A :=
  if count =? 0 then xs else skipn (length xs - count) xs.

Definition getLastNSwings (candles : list Candle) (type : SwingType)
    (count : nat) (lookback : nat) : result (list SwingPoint) :=
  all <- findSwingPoints candles lookback ;;
  let swings := filter (isType type) all in
  Ok (sliceLast count swings).

(** *** lib/detection/trend.ts *)

Record TrendAnalysis := {
  ta_trend : Trend;
  swingHighs : list SwingPoint;
  swingLows : list SwingPoint;
  latestHH : option SwingPoint;
  latestHL : option SwingPoint;
  latestLH : option SwingPoint;
  latestLL : option SwingPoint
}.

(** [const [prev, curr] = recent] under [recent.length >= 2], followed by
    the two-way comparison of [curr.price] with [prev.price]: the swing to
    record as the higher one and the swing to record as the lower one. *)
Definition labelLatest (recent : list SwingPoint)
    : option SwingPoint * option SwingPoint :=
  if 2 <=? length recent then
    match recent with
    | prev :: curr :: _ =>
        if gt (sp_price curr) (sp_price prev) then (Some curr, None)
        else if lt (sp_price curr) (sp_price prev) then (None, Some curr)
        else (None, None)
    | _ => (None, None)
    end
  else (None, None).

Definition analyzeTrend (candles : list Candle) (lookback : nat)
    : result TrendAnalysis :=
  swings <- findSwingPoints candles lookback ;;
  let highs := filter (isType HIGH) swings in
  let lows := filter (isType LOW) swings in
  let recentHighs := sliceLast2 highs in
  let recentLows := sliceLast2 lows in
  trend <- classifyTrend candles lookback ;;
  let '(hh, lh) := labelLatest recentHighs in
  let '(hl, ll) := labelLatest recentLows in
  Ok {| ta_trend := trend; swingHighs := highs; swingLows := lows;
        latestHH := hh; latestHL := hl; latestLH := lh; latestLL := ll |}.

Definition isTrendTradeable (candles : list Candle) (lookback : nat)
    : result bool :=
  trend <- classifyTrend candles lookback ;;
  Ok (match trend with RANGING => false | _ => true end).

Definition isTrendAligned (trend : Trend) (signalDirection : Direction)
    : bool :=
  match trend, signalDirection with
  | RANGING, _ => false
  | UP, BUY => true
  | DOWN, SELL => true
  | _, _ => false
  end.

Definition getAllowedDirection (trend : Trend) : option Direction :=
  match trend with
  | UP => Some BUY
  | DOWN => Some SELL
  | RANGING => None
  end.

Record TrendWarning := {
  warning : bool;
  message : string
}.

Definition detectTrendChangeWarning (candles : list Candle)
    (currentTrend : Trend) (lookback : nat) : result (option TrendWarning) :=
  match currentTrend with
  | RANGING => Ok None
  | _ =>
      relationships <- getSwingRelationships candles lookback ;;
      match currentTrend with
      | UP =>
          if isTrue (hasLowerHigh relationships) then
            Ok (Some {| warning := true;
                        message := "Potential trend change: Lower High forming in uptrend" |})
          else if isTrue (hasLowerLow relationships) then
            Ok (Some {| warning := true;
                        message := "Warning: Lower Low formed - trend may be reversing" |})
          else Ok None
      | DOWN =>
          if isTrue (hasHigherLow relationships) then
            Ok (Some {| warning := true;
                        message := "Potential trend change: Higher Low forming in downtrend" |})
          else if isTrue (hasHigherHigh relationships) then
            Ok (Some {| warning := true;
                        message := "Warning: Higher High formed - trend may be reversing" |})
          else Ok None
      | RANGING => Ok None
      end
  end.

(** *** lib/detection/wickless.ts *)

(** The loop of [scanForWicklessCandles] over [candles[i]], [candles[i+1]],
    ..., given as the list of those candles. *)
Fixpoint collectWickless (remainingCandles : list Candle) (i : nat)
    (pair : Pair) (trend : Trend) : list (nat * WicklessResult) :=
  match remainingCandles with
  | [] => []
  | candle :: rest =>
      if negb (c_complete candle) then collectWickless rest (S i) pair trend
      else
        let result := detectWickless candle pair trend in
        if wr_isValid result
        then (i, result) :: collectWickless rest (S i) pair trend
        else collectWickless rest (S i) pair trend
  end.

(** [startIndex = Math.max(0, candles.length - maxCandles)] *)
Definition scanForWicklessCandles (candles : list Candle) (pair : Pair)
    (trend : Trend) (maxCandles : nat) : list (nat * WicklessResult) :=
  let startIndex := length candles - maxCandles in
  collectWickless (skipn startIndex candles) startIndex pair trend.

(** The loop of [getMostRecentWickless], from the last candle backwards:
    [newestFirst] holds [candles[i]], [candles[i-1]], ..., [candles[0]].
    The first complete candle met ends the loop, valid or not. *)
Fixpoint newestCompleteWickless (newestFirst : list Candle) (i : nat)
    (pair : Pair) (trend : Trend) : option (nat * WicklessResult) :=
  match newestFirst with
  | [] => None
  | candle :: older =>
      if negb (c_complete candle)
      then newestCompleteWickless older (i - 1) pair trend
      else
        let result := detectWickless candle pair trend in
        if wr_isValid result then Some (i, result) else None
  end.

Definition getMostRecentWickless (candles : list Candle) (pair : Pair)
    (trend : Trend) : option (nat * WicklessResult) :=
  newestCompleteWickless (rev candles) (length candles - 1) pair trend.

Record WicklessChecks := {
  trendAligned : bool;
  correctDirection : bool;
  wickRequirementMet : bool;
  isComplete : bool;
  notDoji : bool
}.

Record WicklessValidation := {
  wv_isValid : bool;
  checks : WicklessChecks;
  wv_reason : string
}.

Definition isUp (trend : Trend) : bool :=
  match trend with UP => true | _ => false end.

Definition isDown (trend : Trend) : bool :=
  match trend with DOWN => true | _ => false end.

(** [trend.toLowerCase()] *)
Definition trendLowerCase (trend : Trend) : string :=
  match trend with UP => "up" | DOWN => "down" | RANGING => "ranging" end.

Definition validateWicklessCandle (candle : Candle) (pair : Pair)
    (trend : Trend) : WicklessValidation :=
  let tolerance := getTolerance pair in
  let open := c_open candle in
  let high := c_high candle in
  let low := c_low candle in
  let close := c_close candle in
  let bodySize := abs (sub close open) in
  let isBullish := gt close open in
  let checks :=
    {| trendAligned := negb (match trend with RANGING => true | _ => false end);
       correctDirection :=
         (isUp trend && isBullish) || (isDown trend && negb isBullish);
       wickRequirementMet :=
         (isUp trend && isBullish && ge low (sub open tolerance))
         || (isDown trend && negb isBullish && le high (add open tolerance));
       isComplete := c_complete candle;
       notDoji := ge bodySize tolerance |} in
  let isValid :=
    trendAligned checks && correctDirection checks
    && wickRequirementMet checks && isComplete checks && notDoji checks in
  let reason : string :=
    (if negb (trendAligned checks) then "Market is ranging - no trades"
    else if negb (isComplete checks) then "Candle is not complete"
    else if negb (notDoji checks) then "Candle body too small (doji)"
    else if negb (correctDirection checks) then
      ("Need " ++ (if isUp trend then "bullish" else "bearish")
       ++ " candle for " ++ trendLowerCase trend ++ "trend")
    else if negb (wickRequirementMet checks) then
      ("Has " ++ (if isUp trend then "bottom" else "top")
       ++ " wick - not valid")
    else "Valid wickless signal candle")%string in
  {| wv_isValid := isValid; checks := checks; wv_reason := reason |}.

(** *** lib/oanda.ts *)

(** The loop of [getLatestCompleteCandle], from the last candle
    backwards. *)
Fixpoint firstComplete (newestFirst : list Candle) : option Candle :=
  match newestFirst with
  | [] => None
  | candle :: older =>
      if c_complete candle then Some candle else firstComplete older
  end.

Definition getLatestCompleteCandle (candles : list Candle) : option Candle :=
  firstComplete (rev candles).

(** [candles[candles.length - 1]] is [undefined] on the empty array, and
    [latest && ...] is then falsy. *)
Definition getCurrentCandle (candles : list Candle) : option Candle :=
  match lastOrNull candles with
  | Some latest => if negb (c_complete latest) then Some latest else None
  | None => None
  end.

Definition getCompleteCandles (candles : list Candle) : list Candle :=
  filter c_complete candles.

Definition getCurrentPrice (candles : list Candle) : option number :=
  match lastOrNull candles with
  | Some latest => Some (c_close latest)
  | None => None
  end.

Definition CANDLES_TO_FETCH : nat := 100.

(** The default of [hasEnoughCandles]: [CANDLES_TO_FETCH / 2]. *)
Definition DEFAULT_MIN_CANDLES : nat := 50.

Definition hasEnoughCandles (candles : list Candle) (minRequired : nat)
    : bool :=
  let complete := getCompleteCandles candles in
  minRequired <=? length complete.

(** What an expression of type [T | null] can evaluate to when it reads an
    array: a value, [null], or the [undefined] of an index outside the
    array. *)
Inductive Nullable (A : Type) : Type :=
| Value (a : A)
| Null
| Undefined.

Arguments Value {A} a.
Arguments Null {A}.
Arguments Undefined {A}.

(** [actualIndex >= 0 ? complete[actualIndex] : null], for an integer
    [index]. *)
Definition getCandleFromEnd (candles : list Candle) (index : Z)
    : Nullable Candle :=
  let complete := getCompleteCandles candles in
  let actualIndex := (Z.of_nat (length complete) + index)%Z in
  if (0 <=? actualIndex)%Z then
    match nth_error complete (Z.to_nat actualIndex) with
    | Some c => Value c
    | None => Undefined
    end
  else Null.

Definition intervalMinutes (timeframe : Timeframe) : Z :=
  match timeframe with
  | M15 => 15
  | M30 => 30
  | H1 => 60
  | H4 => 240
  end.

(** [getTimeUntilNextClose], as a function of the three readings of the
    clock: [getMinutes()], [getSeconds()] and [getMilliseconds()]. *)
Definition getTimeUntilNextClose (timeframe : Timeframe)
    (minutes seconds ms : Z) : Z :=
  let intervalMinutes := intervalMinutes timeframe in
  let minutesIntoInterval := (minutes mod intervalMinutes)%Z in
  let minutesRemaining := (intervalMinutes - minutesIntoInterval - 1)%Z in
  let secondsRemaining := (60 - seconds)%Z in
  let msRemaining := (1000 - ms)%Z in
  (minutesRemaining * 60 * 1000 + secondsRemaining * 1000 + msRemaining)%Z.

(** *** lib/signals/manager.ts *)

Definition setCompletedSignals (m : SignalManager) (c : list Signal)
    : SignalManager :=
  {| activeSetups := activeSetups m; triggeredSignals := triggeredSignals m;
     expiredSetups := expiredSetups m; completedSignals := c |}.

Definition getTriggeredSignals (m : SignalManager) : list Signal :=
  JsMap.values (triggeredSignals m).

(** The setup [checkSignalOutcomes] rebuilds from a signal to call
    [checkOutcome]. *)
Definition setupOfSignal (signal : Signal) : TradeSetup :=
  {| ts_direction := sg_direction signal;
     ts_entryZone := sg_entryPrice signal;
     ts_stopLoss := sg_stopLoss signal;
     ts_takeProfit := sg_takeProfit signal;
     ts_riskPips := ofZ 0;
     ts_structurePoint :=
       {| sp_index := 0; sp_time := ""; sp_price := ofZ 0; sp_type := LOW |} |}.

(** [signal.outcome = outcome; signal.outcomeTime = candle.time] *)
Definition withOutcome (signal : Signal) (outcome : SignalOutcome)
    (outcomeTime : string) : Signal :=
  {| sg_id := sg_id signal; sg_setupId := sg_setupId signal;
     sg_pair := sg_pair signal; sg_timeframe := sg_timeframe signal;
     sg_direction := sg_direction signal;
     sg_entryPrice := sg_entryPrice signal;
     sg_stopLoss := sg_stopLoss signal;
     sg_takeProfit := sg_takeProfit signal;
     sg_entryTime := sg_entryTime signal;
     sg_outcome := Some outcome; sg_outcomeTime := Some outcomeTime;
     sg_createdAt := sg_createdAt signal |}.

Definition closeSignal (m : SignalManager) (closed : list Signal)
    (signal : Signal) : SignalManager * list Signal :=
  let m := setCompletedSignals m (completedSignals m ++ [signal]) in
  let m := setTriggeredSignals m
             (JsMap.delete (sg_id signal) (triggeredSignals m)) in
  (m, closed ++ [signal]).

(** Body of [for (const signal of relevantSignals)]. *)
Definition settleSignal (candle : Candle)
    (st : SignalManager * list Signal) (signal : Signal)
    : SignalManager * list Signal :=
  let '(m, closedSignals) := st in
  match checkOutcome (setupOfSignal signal) (c_high candle) (c_low candle) with
  | OutOPEN => (m, closedSignals)
  | OutWIN => closeSignal m closedSignals (withOutcome signal WIN (c_time candle))
  | OutLOSS =>
      closeSignal m closedSignals (withOutcome signal LOSS (c_time candle))
  end.

Definition isOpenFor (pair : Pair) (s : Signal) : bool :=
  String.eqb (sg_pair s) (pairName pair)
  && match sg_outcome s with None => true | Some _ => false end.

Definition checkSignalOutcomes (m : SignalManager) (pair : Pair)
    (candle : Candle) : list Signal * SignalManager :=
  let relevantSignals := filter (isOpenFor pair) (getTriggeredSignals m) in
  let '(m, closedSignals) :=
    fold_left (settleSignal candle) relevantSignals (m, []) in
  (closedSignals, m).

Definition clear (m : SignalManager) : SignalManager :=
  {| activeSetups := JsMap.empty; triggeredSignals := JsMap.empty;
     expiredSetups := []; completedSignals := [] |}.

(** The argument of [import]: every field may be absent. *)
Record ManagerData := {
  data_activeSetups : option (list ActiveSetup);
  data_triggeredSignals : option (list Signal);
  data_expiredSetups : option (list ActiveSetup);
  data_completedSignals : option (list Signal)
}.

Definition exportData (m : SignalManager) : ManagerData :=
  {| data_activeSetups := Some (getActiveSetups m);
     data_triggeredSignals := Some (getTriggeredSignals m);
     data_expiredSetups := Some (expiredSetups m);
     data_completedSignals := Some (completedSignals m) |}.

Definition importData (m : SignalManager) (data : ManagerData)
    : SignalManager :=
  let m :=
    match data_activeSetups data with
    | Some setups => fold_left addSetup setups m
    | None => m
    end in
  let m :=
    match data_triggeredSignals data with
    | Some signals =>
        fold_left
          (fun m signal =>
             setTriggeredSignals m
               (JsMap.set (sg_id signal) signal (triggeredSignals m)))
          signals m
    | None => m
    end in
  let m :=
    match data_expiredSetups data with
    | Some setups => setExpiredSetups m setups
    | None => m
    end in
  match data_completedSignals data with
  | Some signals => setCompletedSignals m signals
  | None => m
  end.

(** [s.outcome === 'WIN'] and [s.outcome === 'LOSS'] *)
Definition outcomeIs (o : SignalOutcome) (s : Signal) : bool :=
  match sg_outcome s, o with
  | Some WIN, WIN => true
  | Some LOSS, LOSS => true
  | _, _ => false
  end.

Record ManagerStats := {
  stat_activeSetups : nat;
  stat_openSignals : nat;
  stat_completedSignals : nat;
  stat_expiredSetups : nat;
  stat_wins : nat;
  stat_losses : nat;
  stat_winRate : number
}.

(** The counts are lengths of arrays and sizes of maps; [winRate] is
    [(wins / total) * 100] in binary64. *)
Definition getStats (m : SignalManager) : ManagerStats :=
  let wins := length (filter (outcomeIs WIN) (completedSignals m)) in
  let losses := length (filter (outcomeIs LOSS) (completedSignals m)) in
  let total := wins + losses in
  {| stat_activeSetups := length (activeSetups m);
     stat_openSignals := length (triggeredSignals m);
     stat_completedSignals := length (completedSignals m);
     stat_expiredSetups := length (expiredSetups m);
     stat_wins := wins;
     stat_losses := losses;
     stat_winRate :=
       if 0 <? total
       then mul (div (ofZ (Z.of_nat wins)) (ofZ (Z.of_nat total))) (ofZ 100)
       else ofZ 0 |}.

Record PairStats := {
  ps_wins : nat;
  ps_losses : nat;
  ps_expired : nat;
  ps_winRate : number
}.

Definition getStatsForPair (m : SignalManager) (pair : Pair) : PairStats :=
  let pairSignals :=
    filter (fun s => String.eqb (sg_pair s) (pairName pair)) (completedSignals m) in
  let wins := length (filter (outcomeIs WIN) pairSignals) in
  let losses := length (filter (outcomeIs LOSS) pairSignals) in
  let expired :=
    length (filter (fun s => String.eqb (as_pair s) (pairName pair)) (expiredSetups m)) in
  let total := wins + losses in
  {| ps_wins := wins;
     ps_losses := losses;
     ps_expired := expired;
     ps_winRate :=
       if 0 <? total
       then mul (div (ofZ (Z.of_nat wins)) (ofZ (Z.of_nat total))) (ofZ 100)
       else ofZ 0 |}.

(** *** lib/signals/scanner.ts *)

Record DetailedScanResult := {
  dsr_pair : Pair;
  dsr_timeframe : Timeframe;
  dsr_trend : Trend;
  dsr_wicklessDetected : bool;
  dsr_wicklessCandle : option Candle;
  dsr_setup : option TradeSetup;
  dsr_timestamp : string;
  trendAnalysis : TrendAnalysis;
  wicklessResult : WicklessResult;
  setupValidation : option Validation;
  candleCount : nat;
  scanDuration : nat
}.

Definition emptyTrendAnalysis : TrendAnalysis :=
  {| ta_trend := RANGING; swingHighs := []; swingLows := [];
     latestHH := None; latestHL := None; latestLH := None;
     latestLL := None |}.

Section Scanning.

Variable toFixed : number -> nat -> string.
Variable numberToString : number -> string.

(** [scanPair] from the point where the candles have been fetched.  The
    two readings of the clock, [timestamp] and the [elapsed] milliseconds
    that every return path stores in [scanDuration], are taken as given.
    The body runs inside [try]: where a callee throws, the result is
    returned as filled in so far. *)
Definition scanPair (pair : Pair) (timeframe : Timeframe)
    (timestamp : string) (elapsed : nat) (candles : list Candle)
    : DetailedScanResult :=
  let completeCandles := getCompleteCandles candles in
  let result analysis wickless detected signalCandle setup validation :=
    {| dsr_pair := pair; dsr_timeframe := timeframe;
       dsr_trend := ta_trend analysis;
       dsr_wicklessDetected := detected;
       dsr_wicklessCandle := signalCandle;
       dsr_setup := setup; dsr_timestamp := timestamp;
       trendAnalysis := analysis; wicklessResult := wickless;
       setupValidation := validation;
       candleCount := length completeCandles;
       scanDuration := elapsed |} in
  let untouched := result emptyTrendAnalysis noSignal false None None None in
  if negb (hasEnoughCandles candles DEFAULT_MIN_CANDLES) then untouched
  else
    match analyzeTrend completeCandles SWING_LOOKBACK with
    | Throw _ => untouched
    | Ok analysis =>
        let analysed := result analysis noSignal false None None None in
        match isTrendTradeable completeCandles SWING_LOOKBACK with
        | Throw _ => analysed
        | Ok false => analysed
        | Ok true =>
            match at_index completeCandles (length completeCandles - 1) with
            | Throw _ => analysed
            | Ok lastCandle =>
                let wickless :=
                  detectWickless lastCandle pair (ta_trend analysis) in
                if negb (wr_isValid wickless)
                then result analysis wickless false None None None
                else
                  let detected :=
                    result analysis wickless true (wr_candle wickless)
                      None None in
                  match getAllowedDirection (ta_trend analysis),
                        wr_entryZone wickless with
                  | Some direction, Some entryZone =>
                      match calculateTradeSetup direction entryZone
                              completeCandles pair with
                      | Throw _ => detected
                      | Ok None => detected
                      | Ok (Some setup) =>
                          result analysis wickless true (wr_candle wickless)
                            (Some setup)
                            (Some (validateSetup toFixed numberToString
                                     setup pair
                                     DEFAULT_MIN_PIPS DEFAULT_MAX_PIPS))
                      end
                  | _, _ => detected
                  end
            end
        end
    end.

(** The filter of [scanMultiplePairs] that selects [signalsFound]. *)
Definition isSignalFound (r : DetailedScanResult) : bool :=
  dsr_wicklessDetected r
  && match dsr_setup r with Some _ => true | None => false end
  && match setupValidation r with
     | Some v => valid v
     | None => false
     end.

End Scanning.

Section Backtesting.

Variable toFixed : number -> nat -> string.
Variable numberToString : number -> string.

(** One pass of the loop of [scanHistorical], at index [i]: [None] is the
    [continue] of a slice with fewer than 20 complete candles.  [elapsed]
    is the difference of the two readings of the clock.  The function has
    no [try]: what a callee throws leaves the loop. *)
Definition scanHistoricalAt (pair : Pair) (timeframe : Timeframe)
    (candles : list Candle) (elapsed : nat) (i : nat)
    : result (option DetailedScanResult) :=
  let candleSlice := firstn (i + 1) candles in
  let completeCandles := filter c_complete candleSlice in
  if length completeCandles <? 20 then Ok None
  else
    trendAnalysis <- analyzeTrend completeCandles SWING_LOOKBACK ;;
    let trend := ta_trend trendAnalysis in
    lastCandle <- at_index completeCandles (length completeCandles - 1) ;;
    let result wickless detected signalCandle setup validation :=
      {| dsr_pair := pair; dsr_timeframe := timeframe; dsr_trend := trend;
         dsr_wicklessDetected := detected;
         dsr_wicklessCandle := signalCandle;
         dsr_setup := setup; dsr_timestamp := c_time lastCandle;
         trendAnalysis := trendAnalysis; wicklessResult := wickless;
         setupValidation := validation;
         candleCount := length completeCandles;
         scanDuration := elapsed |} in
    match trend with
    | RANGING => Ok (Some (result noSignal false None None None))
    | _ =>
        let wicklessResult := detectWickless lastCandle pair trend in
        if wr_isValid wicklessResult then
          match getAllowedDirection trend, wr_entryZone wicklessResult with
          | Some direction, Some entryZone =>
              setup <- calculateTradeSetup direction entryZone
                         completeCandles pair ;;
              match setup with
              | Some setup =>
                  Ok (Some (result wicklessResult true
                              (wr_candle wicklessResult) (Some setup)
                              (Some (validateSetup toFixed numberToString
                                       setup pair
                                       DEFAULT_MIN_PIPS DEFAULT_MAX_PIPS))))
              | None =>
                  Ok (Some (result wicklessResult true
                              (wr_candle wicklessResult) None None))
              end
          | _, _ =>
              Ok (Some (result wicklessResult true
                          (wr_candle wicklessResult) None None))
          end
        else Ok (Some (result wicklessResult false None None None))
    end.

(** The loop over the indices still to visit; [elapsed i] is the duration
    measured in the pass at index [i]. *)
Fixpoint scanHistoricalLoop (pair : Pair) (timeframe : Timeframe)
    (candles : list Candle) (elapsed : nat -> nat) (indices : list nat)
    (results : list DetailedScanResult) : result (list DetailedScanResult) :=
  match indices with
  | [] => Ok results
  | i :: rest =>
      r <- scanHistoricalAt pair timeframe candles (elapsed i) i ;;
      scanHistoricalLoop pair timeframe candles elapsed rest
        match r with
        | Some result => results ++ [result]
        | None => results
        end
  end.

Definition scanHistorical (pair : Pair) (timeframe : Timeframe)
    (candles : list Candle) (startIndex : nat) (elapsed : nat -> nat)
    : result (list DetailedScanResult) :=
  if length candles <? startIndex then Ok []
  else
    scanHistoricalLoop pair timeframe candles elapsed
      (seq startIndex (length candles - startIndex)) [].

End Backtesting.

(** *** Vocabulary and examples for the further properties *)

(** One setup followed over the candles of a list, as its caller does: one
    call of [monitorSetups] per new candle for as long as the setup comes
    back in [stillActive]; the first call that returns it as triggered or
    as expired ends the run. *)
Fixpoint monitorThrough (setup : ActiveSetup) (candles : list Candle)
    : ActiveSetup :=
  match candles with
  | [] => setup
  | candle :: rest =>
      let r := monitorSetups [setup] candle in
      match mr_stillActive r, mr_triggered r, mr_expired r with
      | [next], _, _ => monitorThrough next rest
      | _, [closed], _ => closed
      | _, _, [closed] => closed
      | _, _, _ => setup
      end
  end.

(** Scenario C of the specification: a WAITING BUY with entry 1.0999 and
    three candles with lows 1.1005, 1.1002 and 1.0998. *)
Definition scenarioSetup : ActiveSetup :=
  {| as_id := "setup-c"; as_pair := "EUR_USD"; as_timeframe := M15;
     as_direction := BUY; as_signalCandleTime := signalTime;
     as_signalCandleOpen := dec 10999 4; as_signalCandleHigh := dec 11010 4;
     as_signalCandleLow := dec 10999 4; as_signalCandleClose := dec 11008 4;
     as_entryZone := dec 10999 4; as_stopLoss := dec 10948 4;
     as_takeProfit := dec 11050 4;
     as_candlesElapsed := 0; as_status := WAITING;
     as_createdAt := "2024-01-02T10:15:01Z" |}.

Definition scenarioCandles : list Candle :=
  [ euroCandle "t1" (dec 11005 4); euroCandle "t2" (dec 11002 4);
    euroCandle "t3" (dec 10998 4) ].

Definition strictlyByIndex (a b : SwingPoint) : Prop :=
  sp_index a < sp_index b.

(** Five candles with two peaks and two troughs, one candle apart. *)
Definition twoPeaks : list Candle :=
  [ flatCandle "t0" (ofZ 5) (ofZ 2);
    flatCandle "t1" (ofZ 7) (ofZ 4);
    flatCandle "t2" (ofZ 6) (ofZ 3);
    flatCandle "t3" (ofZ 8) (ofZ 5);
    flatCandle "t4" (ofZ 6) (ofZ 3) ].

(** A map is well keyed when no key occurs twice and every value is
    stored under its own identifier, as [addSetup] and the loops of the
    manager store it. *)
Definition wellKeyed {V : Type} (key : V -> string) (m : JsMap.t V) : Prop :=
  NoDup (map fst m) /\ Forall (fun kv => fst kv = key (snd kv)) m.

(** Every entry of a map rewritten, or dropped, where it stands. *)
Definition updateAll {V : Type} (f : string -> V -> option V)
    (m : JsMap.t V) : JsMap.t V :=
  flat_map
    (fun kv => match f (fst kv) (snd kv) with
               | Some v => [(fst kv, v)]
               | None => []
               end) m.

(** The value found under key [k] after the values of [ws] have been
    stored one after the other, [v] being the value found before. *)
Fixpoint setAll {V : Type} (key : V -> string) (ws : list V) (k : string)
    (v : V) : V :=
  match ws with
  | [] => v
  | w :: ws' => setAll key ws' k (if String.eqb k (key w) then w else v)
  end.

(** The filter of [processNewCandle]. *)
Definition isRelevant (pair : Pair) (timeframe : Timeframe) (s : ActiveSetup)
    : bool :=
  String.eqb (as_pair s) (pairName pair)
  && Timeframe_beq (as_timeframe s) timeframe
  && SetupStatus_beq (as_status s) WAITING.

(** What is left of one active setup after a candle of a pair and
    timeframe. *)
Definition afterCandle (pair : Pair) (timeframe : Timeframe)
    (candle : Candle) (s : ActiveSetup) : list ActiveSetup :=
  if isRelevant pair timeframe s then
    match nextStatus candle s with
    | WAITING => [advanced WAITING s]
    | _ => []
    end
  else [s].

(** A signal as [createSignal] derives it from a setup. *)
Definition signalOf (entryTime : string) (setup : ActiveSetup) (sg : Signal)
    : Prop :=
  sg_setupId sg = as_id setup
  /\ sg_pair sg = as_pair setup
  /\ sg_timeframe sg = as_timeframe setup
  /\ sg_direction sg = as_direction setup
  /\ sg_entryPrice sg = as_entryZone setup
  /\ sg_stopLoss sg = as_stopLoss setup
  /\ sg_takeProfit sg = as_takeProfit setup
  /\ sg_entryTime sg = entryTime
  /\ sg_outcome sg = None
  /\ sg_outcomeTime sg = None.

(** A manager with a waiting USD/JPY setup and a waiting EUR/USD setup. *)
Definition twoSetupManager : SignalManager :=
  addSetup (addSetup newSignalManager (waitingSetup "setup-1" 0))
    scenarioSetup.

(** A signal that the candle closes, at its target or at its stop, and
    the signal as [checkSignalOutcomes] then rewrites it. *)
Definition closesOn (candle : Candle) (s : Signal) : bool :=
  match checkOutcome (setupOfSignal s) (c_high candle) (c_low candle) with
  | OutOPEN => false
  | _ => true
  end.

Definition settledOn (candle : Candle) (s : Signal) : Signal :=
  match checkOutcome (setupOfSignal s) (c_high candle) (c_low candle) with
  | OutLOSS => withOutcome s LOSS (c_time candle)
  | _ => withOutcome s WIN (c_time candle)
  end.

(** The manager of [twoSetupManager] after the retracing candle: the
    USD/JPY setup has become an open signal. *)
Definition openSignalManager : SignalManager :=
  snd (fst (processNewCandle exampleIds exampleClock twoSetupManager
              0 USD_JPY M15 retracingCandle)).

(** The entry of a signal candle: its low for a BUY, its high for a
    SELL. *)
Definition entryOf (direction : Direction) (candle : Candle) : number :=
  match direction with BUY => c_low candle | SELL => c_high candle end.

(** Fifty complete EUR/USD candles that climb one pip a candle under a
    wave of eight candles; each opens on its low and closes on its high,
    two pips above.  Candle [i] has its low at 1.1000 plus
    [i + wave (i mod 8)] pips. *)
Definition wave (i : nat) : Z :=
  match Nat.modulo i 8 with
  | 0 => 0%Z | 1 => 4%Z | 2 => 8%Z | 3 => 12%Z
  | 4 => 8%Z | 5 => 4%Z | 6 => 0%Z
  | _ => (-4)%Z
  end.

Definition risingCandle (i : nat) : Candle :=
  let low := (11000 + Z.of_nat i + wave i)%Z in
  {| c_time := natToString i; c_open := dec low 4;
     c_high := dec (low + 2) 4; c_low := dec low 4;
     c_close := dec (low + 2) 4; c_complete := true |}.

Definition risingCandles : list Candle := map risingCandle (seq 0 50).

(** The fifty rising candles and a hundred more that climb five pips a
    candle, without a swing. *)
Definition climbingCandle (i : nat) : Candle :=
  let low := (11000 + 5 * Z.of_nat i)%Z in
  {| c_time := natToString i; c_open := dec low 4;
     c_high := dec (low + 2) 4; c_low := dec low 4;
     c_close := dec (low + 2) 4; c_complete := true |}.

Definition longHistory : list Candle :=
  risingCandles ++ map climbingCandle (seq 50 100).

(** What the manager keeps true of its four collections: the active
    setups are WAITING with fewer than 10 candles elapsed, the triggered
    signals are open, the expired setups are EXPIRED, and the completed
    signals have an outcome. *)
Definition managerInvariant (m : SignalManager) : Prop :=
  Forall (fun s => isSetupValid s = true) (getActiveSetups m)
  /\ Forall (fun sg => sg_outcome sg = None) (getTriggeredSignals m)
  /\ Forall (fun s => as_status s = EXPIRED) (expiredSetups m)
  /\ Forall (fun sg => sg_outcome sg <> None) (completedSignals m).

(** The five pairs of [PAIR_CONFIGS], and a count summed over them. *)
Definition allPairs : list Pair := [EUR_USD; GBP_USD; AUD_USD; USD_JPY; XAU_USD].

Definition overPairs (count : Pair -> nat) : nat :=
  fold_right (fun pair total => count pair + total) 0 allPairs.

(** The strings that name one of the five pairs. *)
Definition isPairName (name : string) : bool :=
  existsb (fun pair => String.eqb name (pairName pair)) allPairs.

(** The manager after the candle that closes the open USD/JPY signal of
    [openSignalManager]. *)
Definition closedSignalManager : SignalManager :=
  snd (checkSignalOutcomes openSignalManager USD_JPY driftingCandle).

(** A completed signal of a pair that is none of the five. *)
Definition foreignWin : Signal :=
  {| sg_id := "signal-n"; sg_setupId := "setup-n"; sg_pair := "NZD_USD";
     sg_timeframe := M15; sg_direction := BUY;
     sg_entryPrice := dec 6000 4; sg_stopLoss := dec 5990 4;
     sg_takeProfit := dec 6010 4; sg_entryTime := signalTime;
     sg_outcome := Some WIN; sg_outcomeTime := Some signalTime;
     sg_createdAt := signalTime |}.

(** *** Binary64 numbers as values *)

(** A [number] as a JavaScript value is: NaN, an infinity, a zero, or a
    finite number whose mantissa and exponent are in canonical form. *)
Definition isDouble (x : number) : bool := valid_binary prec emax x.

(** A number strictly above zero, infinity included. *)
Definition isPositive (x : number) : bool :=
  match x with
  | S754_finite false m e => bounded prec emax m e
  | S754_infinity false => true
  | _ => false
  end.

(** The value of mantissa [m] and exponent [e], counted in units of the
    least positive double, 2^-1074. *)
Definition scaled (m : positive) (e : Z) : Z := (Zpos m * 2 ^ (e + 1074))%Z.

(** What rounding returns for a canonical mantissa and exponent: the
    finite number, or infinity beyond the largest exponent. *)
Definition rounded (s : bool) (m : positive) (e : Z) : number :=
  if (e <=? 971)%Z then S754_finite s m e else S754_infinity s.

(** The second half of [binary_round_aux]: the renormalisation of the
    rounded mantissa. *)
Definition renormalised (s : bool) (M t : Z) : number :=
  let '(mrs, e) := shr_fexp prec emax M t loc_Exact in
  match shr_m mrs with
  | Z0 => S754_zero s
  | Zpos m =>
      if (e <=? emax - prec)%Z then S754_finite s m e else S754_infinity s
  | Zneg _ => S754_nan
  end.

(** The record of a right shift of [M] by [j] bits: the quotient, and
    round and sticky bits that are both clear iff nothing was lost. *)
Definition shifted (M j : Z) (mrs : shr_record) : Prop :=
  shr_m mrs = (M / 2 ^ j)%Z
  /\ (orb (shr_r mrs) (shr_s mrs) = false <-> (M mod 2 ^ j = 0)%Z).

(** A candle whose high and low are such numbers. *)
Definition doubleCandle (c : Candle) : Prop :=
  isDouble (c_high c) = true /\ isDouble (c_low c) = true.

(** Seven XAU/USD candles with a swing low of 2048.20 in the middle. *)
Definition goldCandle (t : string) (low : Z) : Candle :=
  {| c_time := t; c_open := dec low 2; c_high := dec (low + 30) 2;
     c_low := dec low 2; c_close := dec (low + 20) 2; c_complete := true |}.

Definition goldCandles : list Candle :=
  [ goldCandle "t0" 204850; goldCandle "t1" 204840; goldCandle "t2" 204830;
    goldCandle "t3" 204820;
    goldCandle "t4" 204830; goldCandle "t5" 204840; goldCandle "t6" 204850 ].

(* ===================================================================== *)
(** * Properties *)
(* ===================================================================== *)

(** ** Facts about binary64 comparison and arithmetic *)

Lemma SFcompare_swap :
  forall a b : number,
    SFcompare b a = option_map CompOpp (SFcompare a b).
Proof.
  intros [sa | sa | | sa ma ea] [sb | sb | | sb mb eb]; simpl;
    try reflexivity;
    try (destruct sa; reflexivity);
    try (destruct sb; reflexivity);
    try (destruct sa, sb; reflexivity).
  destruct sa, sb; try reflexivity;
    rewrite (Z.compare_antisym ea eb);
    destruct (ea ?= eb)%Z; simpl; try reflexivity;
    change (Pos.compare_cont Eq mb ma) with (mb ?= ma)%positive;
    change (Pos.compare_cont Eq ma mb) with (ma ?= mb)%positive;
    rewrite (Pos.compare_antisym ma mb); reflexivity.
Qed.

Lemma SFcompare_not_nan :
  forall a b : number,
    is_nan a = false -> is_nan b = false ->
    exists c, SFcompare a b = Some c.
Proof.
  intros [sa | sa | | sa ma ea] [sb | sb | | sb mb eb] Ha Hb;
    try discriminate; simpl; eexists; reflexivity.
Qed.

Lemma SFcompare_some_not_nan :
  forall (a b : number) c,
    SFcompare a b = Some c -> is_nan a = false /\ is_nan b = false.
Proof.
  intros [sa | sa | | sa ma ea] [sb | sb | | sb mb eb] c H;
    try discriminate; split; reflexivity.
Qed.

(** Between numbers that are not NaN the order is total: [a < b] is the
    negation of [a >= b], and [a <= b] the negation of [a > b]. *)
Lemma lt_negb_ge :
  forall a b : number,
    is_nan a = false -> is_nan b = false -> lt a b = negb (ge a b).
Proof.
  intros a b Ha Hb. unfold lt, ge, SFltb, SFleb.
  rewrite (SFcompare_swap b a).
  destruct (SFcompare_not_nan b a Hb Ha) as [c Hc]. rewrite Hc.
  destruct c; reflexivity.
Qed.

Lemma le_negb_gt :
  forall a b : number,
    is_nan a = false -> is_nan b = false -> le a b = negb (gt a b).
Proof.
  intros a b Ha Hb. unfold le, gt, SFltb, SFleb.
  rewrite (SFcompare_swap b a).
  destruct (SFcompare_not_nan b a Hb Ha) as [c Hc]. rewrite Hc.
  destruct c; reflexivity.
Qed.

Lemma lt_not_nan :
  forall a b : number, lt a b = true -> is_nan a = false /\ is_nan b = false.
Proof.
  intros a b H. unfold lt, SFltb in H.
  destruct (SFcompare a b) as [c |] eqn:E; [| discriminate].
  exact (SFcompare_some_not_nan a b c E).
Qed.

Lemma le_not_nan :
  forall a b : number, le a b = true -> is_nan a = false /\ is_nan b = false.
Proof.
  intros a b H. unfold le, SFleb in H.
  destruct (SFcompare a b) as [c |] eqn:E; [| discriminate].
  exact (SFcompare_some_not_nan a b c E).
Qed.

(** [a < b] and [a > b] exclude each other, NaN or not. *)
Lemma lt_gt_exclusive :
  forall a b : number, lt a b = true -> gt a b = false.
Proof.
  intros a b H. unfold lt, gt, SFltb in *.
  rewrite (SFcompare_swap a b).
  destruct (SFcompare a b) as [[| |] |]; try discriminate; reflexivity.
Qed.

(** Rounding never invents a NaN: the mantissa stays non-negative through
    the shifts, so the catch-all branch of [binary_round_aux] is dead. *)
Lemma shr_1_nonneg :
  forall mrs, (0 <= shr_m mrs)%Z -> (0 <= shr_m (shr_1 mrs))%Z.
Proof.
  intros [m r s] H. simpl in H.
  destruct m as [| p | p]; [simpl; lia | | lia].
  destruct p; simpl; lia.
Qed.

Lemma iter_shr_1_nonneg :
  forall p mrs,
    (0 <= shr_m mrs)%Z -> (0 <= shr_m (iter_pos shr_1 p mrs))%Z.
Proof.
  induction p as [p IH | p IH |]; intros mrs H; simpl.
  - apply IH, IH, shr_1_nonneg, H.
  - apply IH, IH, H.
  - apply shr_1_nonneg, H.
Qed.

Lemma shr_fexp_nonneg :
  forall p e m ex l,
    (0 <= m)%Z -> (0 <= shr_m (fst (shr_fexp p e m ex l)))%Z.
Proof.
  intros p e m ex l H. unfold shr_fexp, shr.
  assert (H0 : (0 <= shr_m (shr_record_of_loc m l))%Z).
  { destruct l as [| []]; exact H. }
  destruct (fexp p e (Zdigits2 m + ex) - ex)%Z; simpl; try exact H0.
  apply iter_shr_1_nonneg, H0.
Qed.

Lemma round_nearest_even_nonneg :
  forall m l, (0 <= m)%Z -> (0 <= round_nearest_even m l)%Z.
Proof.
  intros m l H. unfold round_nearest_even.
  destruct l as [| []]; try exact H; [destruct (Z.even m) |]; lia.
Qed.

Lemma binary_round_aux_not_nan :
  forall p e sx mx ex lx,
    (0 <= mx)%Z -> is_nan (binary_round_aux p e sx mx ex lx) = false.
Proof.
  intros p e sx mx ex lx H. unfold binary_round_aux.
  pose proof (shr_fexp_nonneg p e mx ex lx H) as H1.
  destruct (shr_fexp p e mx ex lx) as [mrs' e'] eqn:E1. simpl in H1.
  pose proof (shr_fexp_nonneg p e _ e' loc_Exact
                (round_nearest_even_nonneg _ (loc_of_shr_record mrs') H1))
    as H2.
  destruct (shr_fexp p e
              (round_nearest_even (shr_m mrs') (loc_of_shr_record mrs'))
              e' loc_Exact) as [mrs'' e''] eqn:E2.
  simpl in H2.
  destruct (shr_m mrs'') as [| q | q]; [reflexivity | | lia].
  destruct (e'' <=? e - p)%Z; reflexivity.
Qed.

Lemma binary_normalize_not_nan :
  forall p e m ex sz, is_nan (binary_normalize p e m ex sz) = false.
Proof.
  intros p e m ex sz. unfold binary_normalize, binary_round.
  destruct m as [| q | q]; [reflexivity | |];
    match goal with
    | |- context [shl_align ?a ?b ?c] => destruct (shl_align a b c)
    end; apply binary_round_aux_not_nan; lia.
Qed.

Lemma add_not_nan :
  forall a b : number,
    is_finite a = true -> is_nan b = false -> is_nan (add a b) = false.
Proof.
  intros [sa | sa | | sa ma ea] [sb | sb | | sb mb eb] Ha Hb;
    try discriminate; unfold add, SFadd;
    try reflexivity;
    try (destruct sa, sb; reflexivity).
  apply binary_normalize_not_nan.
Qed.

Lemma sub_not_nan :
  forall a b : number,
    is_finite a = true -> is_nan b = false -> is_nan (sub a b) = false.
Proof.
  intros [sa | sa | | sa ma ea] [sb | sb | | sb mb eb] Ha Hb;
    try discriminate; unfold sub, SFsub;
    try reflexivity;
    try (destruct sa, sb; reflexivity).
  apply binary_normalize_not_nan.
Qed.

Lemma sub_not_nan_r :
  forall a b : number,
    is_nan a = false -> is_finite b = true -> is_nan (sub a b) = false.
Proof.
  intros [sa | sa | | sa ma ea] [sb | sb | | sb mb eb] Ha Hb;
    try discriminate; unfold sub, SFsub;
    try reflexivity;
    try (destruct sa, sb; reflexivity).
  apply binary_normalize_not_nan.
Qed.

(** Two numbers one of which is strictly below the other have a
    difference, in either order, that is not NaN. *)
Lemma sub_not_nan_of_lt :
  forall a b : number,
    lt a b = true ->
    is_nan (sub a b) = false /\ is_nan (sub b a) = false.
Proof.
  intros [sa | sa | | sa ma ea] [sb | sb | | sb mb eb] H;
    unfold lt, SFltb in H; simpl in H; try discriminate;
    unfold sub, SFsub;
    try (split; reflexivity);
    try (destruct sa, sb; try discriminate; split; reflexivity).
  split; apply binary_normalize_not_nan.
Qed.

Lemma abs_not_nan :
  forall a : number, is_nan a = false -> is_nan (abs a) = false.
Proof. intros [| | |] H; try discriminate; reflexivity. Qed.

(** ** Values of binary64 numbers and monotone rounding *)

Section Binary64Values.

Local Open Scope Z_scope.

Lemma fexp_eq : forall e, fexp prec emax e = Z.max (e - 53) (-1074).
Proof. intros e. reflexivity. Qed.

Lemma digits2_pos_bounds :
  forall m : positive,
    2 ^ (Zpos (digits2_pos m) - 1) <= Zpos m < 2 ^ Zpos (digits2_pos m).
Proof.
  induction m as [p IH | p IH |]; cbn [digits2_pos].
  - rewrite Pos2Z.inj_succ.
    replace (Z.succ (Zpos (digits2_pos p)) - 1) with (Z.succ (Zpos (digits2_pos p) - 1)) by lia.
    rewrite !Z.pow_succ_r by lia. lia.
  - rewrite Pos2Z.inj_succ.
    replace (Z.succ (Zpos (digits2_pos p)) - 1) with (Z.succ (Zpos (digits2_pos p) - 1)) by lia.
    rewrite !Z.pow_succ_r by lia. lia.
  - cbn. lia.
Qed.

Lemma digits2_pos_unique :
  forall (m : positive) (n : Z),
    2 ^ (n - 1) <= Zpos m < 2 ^ n -> Zpos (digits2_pos m) = n.
Proof.
  intros m n [H1 H2]. pose proof (digits2_pos_bounds m) as [B1 B2].
  set (d := Zpos (digits2_pos m)) in *.
  assert (Ha : d - 1 < n).
  { apply Z.nle_gt. intros Hc.
    pose proof (Z.pow_le_mono_r 2 n (d - 1) ltac:(lia) Hc). lia. }
  assert (Hb : n - 1 < d).
  { apply Z.nle_gt. intros Hc.
    pose proof (Z.pow_le_mono_r 2 d (n - 1) ltac:(lia) Hc). lia. }
  lia.
Qed.

Lemma iter_xO_value :
  forall (m d : positive), Zpos (Pos.iter xO m d) = Zpos m * 2 ^ Zpos d.
Proof.
  intros m d. induction d as [| d IH] using Pos.peano_ind.
  - cbn. lia.
  - rewrite Pos.iter_succ, Pos2Z.inj_succ, Z.pow_succ_r by lia.
    rewrite Pos2Z.inj_xO, IH. lia.
Qed.

Lemma iter_xO_digits :
  forall (m d : positive),
    Zpos (digits2_pos (Pos.iter xO m d)) = Zpos (digits2_pos m) + Zpos d.
Proof.
  intros m d. induction d as [| d IH] using Pos.peano_ind.
  - cbn [Pos.iter digits2_pos]. lia.
  - rewrite Pos.iter_succ. cbn [digits2_pos].
    rewrite !Pos2Z.inj_succ, IH. lia.
Qed.

Lemma mod_pow_succ :
  forall M j, 0 <= j ->
    (M mod 2 ^ (j + 1) = 0 <-> M mod 2 ^ j = 0 /\ (M / 2 ^ j) mod 2 = 0).
Proof.
  intros M j Hj.
  assert (Hp : 0 < 2 ^ j) by (apply Z.pow_pos_nonneg; lia).
  rewrite Z.pow_add_r, Z.pow_1_r by lia.
  rewrite Z.rem_mul_r by lia.
  pose proof (Z.mod_pos_bound M (2 ^ j) Hp).
  pose proof (Z.mod_pos_bound (M / 2 ^ j) 2 ltac:(lia)).
  nia.
Qed.

Lemma shr_1_shifted :
  forall M j mrs, 0 <= M -> 0 <= j ->
    shifted M j mrs -> shifted M (j + 1) (shr_1 mrs).
Proof.
  intros M j [m r s] HM Hj [Hm Hrs]. cbn [shr_m shr_r shr_s] in *.
  assert (Hp : 0 < 2 ^ j) by (apply Z.pow_pos_nonneg; lia).
  assert (Hm0 : 0 <= m) by (rewrite Hm; apply Z.div_pos; lia).
  assert (Hdiv : M / 2 ^ (j + 1) = m / 2).
  { rewrite Z.pow_add_r, Z.pow_1_r by lia.
    rewrite <- Z.div_div by lia. rewrite Hm. reflexivity. }
  unfold shifted. rewrite Hdiv, (mod_pow_succ M j Hj), <- Hm.
  destruct m as [| [p | p |] | p]; cbn [shr_1 shr_m shr_r shr_s]; try lia.
  - split; [reflexivity |]. rewrite <- Hrs. cbn. intuition.
  - assert (E1 : Zpos p~1 / 2 = Zpos p)
      by (symmetry; apply Z.div_unique with 1; lia).
    assert (E2 : Zpos p~1 mod 2 = 1)
      by (symmetry; apply Z.mod_unique with (Zpos p); lia).
    rewrite E1, E2. split; [reflexivity |]. cbn [orb].
    split; [discriminate | lia].
  - assert (E1 : Zpos p~0 / 2 = Zpos p)
      by (symmetry; apply Z.div_unique with 0; lia).
    assert (E2 : Zpos p~0 mod 2 = 0)
      by (symmetry; apply Z.mod_unique with (Zpos p); lia).
    rewrite E1, E2. split; [reflexivity |]. cbn [orb].
    rewrite <- Hrs. intuition.
  - split; [reflexivity |]. cbn. split; [discriminate | lia].
Qed.

Lemma iter_shr_1_shifted :
  forall M (p : positive) j mrs, 0 <= M -> 0 <= j ->
    shifted M j mrs -> shifted M (j + Zpos p) (iter_pos shr_1 p mrs).
Proof.
  intros M p. induction p as [p IH | p IH |]; intros j mrs HM Hj H;
    cbn [iter_pos].
  - replace (j + Zpos p~1) with (j + 1 + Zpos p + Zpos p) by lia.
    apply IH; [lia | lia |]. apply IH; [lia | lia |].
    apply shr_1_shifted; assumption.
  - replace (j + Zpos p~0) with (j + Zpos p + Zpos p) by lia.
    apply IH; [lia | lia |]. apply IH; assumption.
  - apply shr_1_shifted; assumption.
Qed.

Lemma round_nearest_even_cases :
  forall mrs,
    let m := round_nearest_even (shr_m mrs) (loc_of_shr_record mrs) in
    (m = shr_m mrs \/ m = shr_m mrs + 1)
    /\ (orb (shr_r mrs) (shr_s mrs) = false -> m = shr_m mrs).
Proof.
  intros [m [|] [|]]; cbn; try (destruct (Z.even m)); split;
    try tauto; try discriminate; auto.
Qed.

Lemma binary_round_aux_renormalised :
  forall s mx ex lx,
    binary_round_aux prec emax s mx ex lx
    = let '(mrs, e) := shr_fexp prec emax mx ex lx in
      renormalised s (round_nearest_even (shr_m mrs) (loc_of_shr_record mrs)) e.
Proof. reflexivity. Qed.

Lemma renormalised_canonical :
  forall s (m : positive) e,
    fexp prec emax (Zpos (digits2_pos m) + e) = e ->
    renormalised s (Zpos m) e = rounded s m e.
Proof.
  intros s m e H. unfold renormalised, shr_fexp.
  cbn [Zdigits2 shr_record_of_loc]. rewrite H, Z.sub_diag.
  cbn [shr shr_m]. reflexivity.
Qed.

Lemma renormalised_carry :
  forall s e, -1074 <= e ->
    renormalised s 9007199254740992 e = rounded s 4503599627370496 (e + 1).
Proof.
  intros s e He. unfold renormalised, shr_fexp.
  cbn [Zdigits2 shr_record_of_loc].
  replace (fexp prec emax (Zpos (digits2_pos 9007199254740992) + e) - e)
    with 1 by (rewrite fexp_eq; cbn [digits2_pos Pos.succ]; lia).
  cbn [shr iter_pos shr_1 shr_m]. reflexivity.
Qed.

Lemma binary_round_aux_canonical :
  forall s (m : positive) e,
    fexp prec emax (Zpos (digits2_pos m) + e) = e ->
    binary_round_aux prec emax s (Zpos m) e loc_Exact = rounded s m e.
Proof.
  intros s m e H. rewrite binary_round_aux_renormalised. unfold shr_fexp.
  cbn [Zdigits2 shr_record_of_loc]. rewrite H, Z.sub_diag.
  cbn [shr shr_m loc_of_shr_record round_nearest_even].
  apply renormalised_canonical. exact H.
Qed.

Lemma pow2_52 : 2 ^ 52 = 4503599627370496. Proof. reflexivity. Qed.
Lemma pow2_53 : 2 ^ 53 = 9007199254740992. Proof. reflexivity. Qed.

Lemma binary_round_aux_shift :
  forall s (mx : positive) ex (k : positive),
    fexp prec emax (Zpos (digits2_pos mx) + ex) - ex = Zpos k ->
    -1074 <= ex ->
    exists m2 : positive,
      let m1 := Zpos mx / 2 ^ Zpos k in
      2 ^ 52 <= m1 < 2 ^ 53
      /\ (Zpos m2 = m1 \/ Zpos m2 = m1 + 1)
      /\ (Zpos mx mod 2 ^ Zpos k = 0 -> Zpos m2 = m1)
      /\ binary_round_aux prec emax s (Zpos mx) ex loc_Exact
         = if Zpos m2 <? 2 ^ 53 then rounded s m2 (ex + Zpos k)
           else rounded s 4503599627370496 (ex + Zpos k + 1).
Proof.
  intros s mx ex k Hk Hex.
  pose proof (digits2_pos_bounds mx) as [B1 B2].
  set (d := Zpos (digits2_pos mx)) in *.
  rewrite fexp_eq in Hk.
  assert (Hd : Zpos k = d - 53) by lia.
  assert (Hp : 0 < 2 ^ Zpos k) by (apply Z.pow_pos_nonneg; lia).
  assert (Hm1 : 2 ^ 52 <= Zpos mx / 2 ^ Zpos k < 2 ^ 53).
  { split.
    - apply Z.div_le_lower_bound; [exact Hp |].
      rewrite <- Z.pow_add_r by lia.
      replace (Zpos k + 52) with (d - 1) by lia. exact B1.
    - apply Z.div_lt_upper_bound; [exact Hp |].
      rewrite <- Z.pow_add_r by lia.
      replace (Zpos k + 53) with d by lia. exact B2. }
  assert (Hs :
    shr_fexp prec emax (Zpos mx) ex loc_Exact
    = (iter_pos shr_1 k (Build_shr_record (Zpos mx) false false),
       ex + Zpos k)).
  { unfold shr_fexp. cbn [Zdigits2 shr_record_of_loc].
    fold d. rewrite fexp_eq, Hk. reflexivity. }
  assert (Hsh : shifted (Zpos mx) (0 + Zpos k)
                  (iter_pos shr_1 k (Build_shr_record (Zpos mx) false false))).
  { apply iter_shr_1_shifted; [lia | lia |].
    split; cbn [shr_m shr_r shr_s orb].
    - rewrite Z.pow_0_r, Z.div_1_r. reflexivity.
    - rewrite Z.pow_0_r, Z.mod_1_r. tauto. }
  rewrite Z.add_0_l in Hsh. destruct Hsh as [Hm Hrs].
  set (mrs := iter_pos shr_1 k (Build_shr_record (Zpos mx) false false)) in *.
  destruct (round_nearest_even_cases mrs) as [Hc He].
  set (M2 := round_nearest_even (shr_m mrs) (loc_of_shr_record mrs)) in *.
  rewrite Hm in Hc, He.
  assert (HM2 : 0 < M2) by (rewrite pow2_52 in Hm1; lia).
  destruct M2 as [| m2 |] eqn:EM2; try lia.
  exists m2. cbv zeta.
  split; [exact Hm1 |]. split; [exact Hc |].
  split; [intros Hz; apply He, Hrs, Hz |].
  rewrite binary_round_aux_renormalised, Hs. fold M2. rewrite EM2.
  destruct (Zpos m2 <? 2 ^ 53) eqn:Hlt.
  - apply Z.ltb_lt in Hlt. apply renormalised_canonical.
    rewrite (digits2_pos_unique m2 53) by (split; [change (53 - 1) with 52 |]; lia).
    rewrite fexp_eq. lia.
  - apply Z.ltb_ge in Hlt.
    assert (E : Zpos m2 = 9007199254740992) by (rewrite pow2_53 in *; lia).
    rewrite E. apply renormalised_carry. lia.
Qed.

Lemma canonical_mantissa_iff :
  forall m e,
    canonical_mantissa prec emax m e = true
    <-> fexp prec emax (Zpos (digits2_pos m) + e) = e.
Proof. intros m e. unfold canonical_mantissa. apply Z.eqb_eq. Qed.

Lemma canonical_facts :
  forall m e,
    canonical_mantissa prec emax m e = true ->
    -1074 <= e /\ Zpos m < 2 ^ 53 /\ (-1074 < e -> 2 ^ 52 <= Zpos m).
Proof.
  intros m e H. apply canonical_mantissa_iff in H. rewrite fexp_eq in H.
  pose proof (digits2_pos_bounds m) as [B1 B2].
  set (d := Zpos (digits2_pos m)) in *.
  split; [lia |]. split.
  - assert (Hd : d <= 53) by lia.
    pose proof (Z.pow_le_mono_r 2 d 53 ltac:(lia) Hd). lia.
  - intros He. assert (Hd : d = 53) by lia. rewrite Hd in B1. exact B1.
Qed.

Lemma scaled_pos : forall m e, -1074 <= e -> 0 < scaled m e.
Proof.
  intros m e He. unfold scaled.
  apply Z.mul_pos_pos; [lia | apply Z.pow_pos_nonneg; lia].
Qed.

(** What [binary_round] returns for a mantissa whose exponent is not
    below the least one: a canonical mantissa and exponent, turned into
    infinity beyond the largest exponent; on either side of any canonical
    number, the rounded value stays on that side. *)
Lemma binary_round_spec :
  forall s (mx : positive) ex,
    -1074 <= ex ->
    exists m e,
      binary_round prec emax s mx ex = rounded s m e
      /\ canonical_mantissa prec emax m e = true
      /\ (forall mA eA,
            canonical_mantissa prec emax mA eA = true ->
            (scaled mA eA <= scaled mx ex -> scaled mA eA <= scaled m e)
            /\ (scaled mx ex <= scaled mA eA -> scaled m e <= scaled mA eA)).
Proof.
  intros s mx ex Hex.
  pose proof (digits2_pos_bounds mx) as [B1 B2].
  unfold binary_round, shl_align.
  set (d := Zpos (digits2_pos mx)) in *.
  destruct (fexp prec emax (d + ex) - ex) as [| k | k] eqn:Hk.
  - exists mx, ex.
    assert (Hc : fexp prec emax (Zpos (digits2_pos mx) + ex) = ex)
      by (fold d; lia).
    split; [apply binary_round_aux_canonical; exact Hc |].
    split; [apply canonical_mantissa_iff; exact Hc |].
    intros mA eA _. split; intros H; exact H.
  - destruct (binary_round_aux_shift s mx ex k Hk Hex)
      as (m2 & Hm1 & Hm2 & Hex2 & Hr).
    cbv zeta in Hm1, Hm2, Hex2.
    rewrite fexp_eq in Hk.
    assert (Hd : Zpos k = d - 53) by lia.
    set (t := ex + Zpos k) in *.
    set (K := 2 ^ Zpos k) in *.
    assert (HK : 0 < K) by (apply Z.pow_pos_nonneg; lia).
    set (Q := 2 ^ (ex + 1074)).
    assert (HQ : 0 < Q) by (apply Z.pow_pos_nonneg; lia).
    set (m1 := Zpos mx / K) in *.
    assert (Hdiv : m1 * K <= Zpos mx < (m1 + 1) * K).
    { pose proof (Z.div_mod (Zpos mx) K ltac:(lia)).
      pose proof (Z.mod_pos_bound (Zpos mx) K HK). fold m1 in H. nia. }
    assert (Hexact : Zpos mx mod K = 0 -> Zpos mx = m1 * K).
    { intros Hz. pose proof (Z.div_mod (Zpos mx) K ltac:(lia)) as E.
      fold m1 in E. rewrite Hz in E. lia. }
    assert (HP : 2 ^ (t + 1074) = K * Q).
    { unfold t, K, Q. rewrite <- Z.pow_add_r by lia. f_equal. lia. }
    (* the value of the result, by either representation *)
    assert (Hres : exists m e,
      (if Zpos m2 <? 2 ^ 53 then rounded s m2 t
       else rounded s 4503599627370496 (t + 1)) = rounded s m e
      /\ canonical_mantissa prec emax m e = true
      /\ scaled m e = Zpos m2 * (K * Q)).
    { destruct (Zpos m2 <? 2 ^ 53) eqn:Hlt.
      - apply Z.ltb_lt in Hlt. exists m2, t.
        split; [reflexivity |]. split.
        + apply canonical_mantissa_iff.
          rewrite (digits2_pos_unique m2 53)
            by (split; [change (53 - 1) with 52 |]; lia).
          rewrite fexp_eq. unfold t. lia.
        + unfold scaled. rewrite HP. reflexivity.
      - apply Z.ltb_ge in Hlt. exists 4503599627370496%positive, (t + 1).
        split; [reflexivity |]. split.
        + apply canonical_mantissa_iff. rewrite fexp_eq.
          cbn [digits2_pos Pos.succ]. unfold t. lia.
        + unfold scaled.
          replace (t + 1 + 1074) with (1 + (t + 1074)) by lia.
          rewrite Z.pow_add_r, HP by (unfold t; lia).
          assert (E : Zpos m2 = 9007199254740992)
            by (rewrite pow2_53 in *; lia).
          rewrite E. lia. }
    destruct Hres as (m & e & Hrep & Hcan & Hval).
    exists m, e. split; [rewrite Hr; exact Hrep |].
    split; [exact Hcan |].
    intros mA eA HA. rewrite Hval.
    destruct (canonical_facts _ _ HA) as (HeA & HmA & _).
    assert (Hx : scaled mx ex = Zpos mx * Q) by reflexivity.
    rewrite Hx.
    destruct (Z.le_gt_cases t eA) as [Hge | Hlt].
    + (* the exponent of [A] is at least [t] *)
      assert (HAv : scaled mA eA = (Zpos mA * 2 ^ (eA - t)) * (K * Q)).
      { unfold scaled. rewrite <- HP, <- Z.mul_assoc, <- Z.pow_add_r
          by (unfold t in *; lia).
        f_equal. f_equal. lia. }
      rewrite HAv. set (a := Zpos mA * 2 ^ (eA - t)).
      split; intros H.
      * assert (a * K <= Zpos mx) by nia.
        assert (a <= m1) by nia.
        assert (a <= Zpos m2) by lia.
        nia.
      * assert (Zpos mx <= a * K) by nia.
        assert (Zpos m2 <= a).
        { destruct (Z.eq_dec (Zpos mx mod K) 0) as [Hz | Hnz].
          - rewrite (Hex2 Hz). rewrite (Hexact Hz) in H0. nia.
          - assert (m1 * K < Zpos mx).
            { pose proof (Z.div_mod (Zpos mx) K ltac:(lia)) as E.
              fold m1 in E.
              pose proof (Z.mod_pos_bound (Zpos mx) K HK). nia. }
            assert (m1 < a) by nia. lia. }
        nia.
    + (* the exponent of [A] is below [t] *)
      assert (HAv : scaled mA eA < 2 ^ 52 * (K * Q)).
      { unfold scaled. rewrite <- HP.
        assert (2 ^ (eA + 1074) * 2 <= 2 ^ (t + 1074)).
        { replace (t + 1074) with ((eA + 1074) + (t - eA)) by lia.
          rewrite (Z.pow_add_r 2 (eA + 1074) (t - eA)) by lia.
          assert (2 ^ 1 <= 2 ^ (t - eA))
            by (apply Z.pow_le_mono_r; lia).
          assert (0 < 2 ^ (eA + 1074)) by (apply Z.pow_pos_nonneg; lia).
          rewrite Z.pow_1_r in H. nia. }
        assert (0 < 2 ^ (eA + 1074)) by (apply Z.pow_pos_nonneg; lia).
        rewrite pow2_53 in HmA. rewrite pow2_52. nia. }
      split; intros H.
      * assert (2 ^ 52 * (K * Q) <= Zpos m2 * (K * Q)) by nia. lia.
      * assert (2 ^ 52 * (K * Q) <= Zpos mx * Q) by nia. lia.
  - set (t := fexp prec emax (d + ex)) in *.
    assert (Hd : Zpos (digits2_pos (Pos.iter xO mx k)) = d + Zpos k)
      by apply iter_xO_digits.
    assert (Hc : fexp prec emax (Zpos (digits2_pos (Pos.iter xO mx k)) + t)
                 = t).
    { rewrite Hd. replace (d + Zpos k + t) with (d + ex) by lia.
      reflexivity. }
    exists (Pos.iter xO mx k), t.
    split; [apply binary_round_aux_canonical; exact Hc |].
    split; [apply canonical_mantissa_iff; exact Hc |].
    assert (Hv : scaled (Pos.iter xO mx k) t = scaled mx ex).
    { unfold scaled. rewrite iter_xO_value, <- Z.mul_assoc.
      assert (-1074 <= t) by (unfold t; rewrite fexp_eq; lia).
      rewrite <- Z.pow_add_r by lia. f_equal. f_equal. lia. }
    intros mA eA _. rewrite Hv. split; intros H; exact H.
Qed.

Lemma bounded_iff :
  forall m e,
    bounded prec emax m e = true
    <-> canonical_mantissa prec emax m e = true /\ e <= 971.
Proof.
  intros m e. unfold bounded. rewrite andb_true_iff, Z.leb_le.
  change (emax - prec) with 971. tauto.
Qed.

Lemma rounded_valid :
  forall s m e,
    canonical_mantissa prec emax m e = true ->
    valid_binary prec emax (rounded s m e) = true.
Proof.
  intros s m e H. unfold rounded. destruct (e <=? 971) eqn:He; [| reflexivity].
  apply bounded_iff. split; [exact H | apply Z.leb_le; exact He].
Qed.

Lemma rounded_positive :
  forall m e,
    canonical_mantissa prec emax m e = true ->
    isPositive (rounded false m e) = true.
Proof.
  intros m e H. unfold rounded. destruct (e <=? 971) eqn:He; [| reflexivity].
  apply bounded_iff. split; [exact H | apply Z.leb_le; exact He].
Qed.

(** Canonical numbers of one sign compare as their values. *)
Lemma scaled_lt_of_exponent :
  forall m1 e1 m2 e2,
    canonical_mantissa prec emax m1 e1 = true ->
    canonical_mantissa prec emax m2 e2 = true ->
    e1 < e2 -> scaled m1 e1 < scaled m2 e2.
Proof.
  intros m1 e1 m2 e2 H1 H2 He.
  destruct (canonical_facts _ _ H1) as (He1 & Hm1 & _).
  destruct (canonical_facts _ _ H2) as (He2 & _ & Hm2).
  specialize (Hm2 ltac:(lia)). unfold scaled.
  assert (Hp : 0 < 2 ^ (e1 + 1074)) by (apply Z.pow_pos_nonneg; lia).
  assert (Hq : 2 ^ (e1 + 1074) * 2 <= 2 ^ (e2 + 1074)).
  { replace (e2 + 1074) with ((e1 + 1074) + (e2 - e1)) by lia.
    rewrite (Z.pow_add_r 2 (e1 + 1074) (e2 - e1)) by lia.
    assert (2 ^ 1 <= 2 ^ (e2 - e1)) by (apply Z.pow_le_mono_r; lia).
    rewrite Z.pow_1_r in H. nia. }
  rewrite pow2_53 in Hm1. rewrite pow2_52 in Hm2. nia.
Qed.

Lemma SFcompare_canonical :
  forall m1 e1 m2 e2,
    canonical_mantissa prec emax m1 e1 = true ->
    canonical_mantissa prec emax m2 e2 = true ->
    SFcompare (S754_finite false m1 e1) (S754_finite false m2 e2)
    = Some (scaled m1 e1 ?= scaled m2 e2)
    /\ SFcompare (S754_finite true m1 e1) (S754_finite true m2 e2)
       = Some (scaled m2 e2 ?= scaled m1 e1).
Proof.
  intros m1 e1 m2 e2 H1 H2. cbn [SFcompare].
  destruct (canonical_facts _ _ H1) as (He1 & _ & _).
  destruct (e1 ?= e2) eqn:He.
  - apply Z.compare_eq in He. subst e2. unfold scaled.
    assert (Hp : 0 < 2 ^ (e1 + 1074)) by (apply Z.pow_pos_nonneg; lia).
    rewrite <- !Zmult_compare_compat_r by lia.
    change (Pos.compare_cont Eq m1 m2) with (Zpos m1 ?= Zpos m2).
    rewrite (Z.compare_antisym (Zpos m1) (Zpos m2)).
    split; reflexivity.
  - apply Z.compare_lt_iff in He.
    pose proof (scaled_lt_of_exponent _ _ _ _ H1 H2 He) as Hs.
    rewrite (proj2 (Z.compare_lt_iff _ _) Hs).
    rewrite (proj2 (Z.compare_gt_iff _ _) Hs). split; reflexivity.
  - apply Z.compare_gt_iff in He.
    pose proof (scaled_lt_of_exponent _ _ _ _ H2 H1 He) as Hs.
    rewrite (proj2 (Z.compare_lt_iff _ _) Hs).
    rewrite (proj2 (Z.compare_gt_iff _ _) Hs). split; reflexivity.
Qed.

(** A canonical number beyond the largest exponent is above every
    double. *)
Lemma scaled_bounded_lt :
  forall mA eA m e,
    bounded prec emax mA eA = true ->
    canonical_mantissa prec emax m e = true ->
    scaled m e <= scaled mA eA -> e <= 971.
Proof.
  intros mA eA m e HA Hc Hle.
  apply bounded_iff in HA. destruct HA as [HA HeA].
  destruct (Z.le_gt_cases e 971) as [H | H]; [exact H |].
  pose proof (scaled_lt_of_exponent _ _ _ _ HA Hc ltac:(lia)). lia.
Qed.

Lemma shl_align_scaled :
  forall m e ez,
    ez <= e -> -1074 <= ez ->
    Zpos (fst (shl_align m e ez)) * 2 ^ (ez + 1074) = scaled m e.
Proof.
  intros m e ez H1 H2. unfold shl_align, scaled.
  destruct (ez - e) as [| d | d] eqn:Hd; cbn [fst].
  - replace ez with e by lia. reflexivity.
  - lia.
  - rewrite iter_xO_value, <- Z.mul_assoc, <- Z.pow_add_r by lia.
    f_equal. f_equal. lia.
Qed.

Lemma le_rounded_above :
  forall mA eA m e,
    bounded prec emax mA eA = true ->
    canonical_mantissa prec emax m e = true ->
    scaled mA eA <= scaled m e ->
    le (S754_finite false mA eA) (rounded false m e) = true
    /\ le (rounded true m e) (S754_finite true mA eA) = true.
Proof.
  intros mA eA m e HA Hc Hle. apply bounded_iff in HA.
  destruct HA as [HA _]. unfold rounded.
  destruct (e <=? 971); [| split; reflexivity].
  unfold le, SFleb.
  rewrite (proj1 (SFcompare_canonical _ _ _ _ HA Hc)).
  rewrite (proj2 (SFcompare_canonical _ _ _ _ Hc HA)).
  destruct (scaled mA eA ?= scaled m e) eqn:E; try (split; reflexivity).
  apply Z.compare_gt_iff in E. lia.
Qed.

Lemma le_rounded_below :
  forall mA eA m e,
    bounded prec emax mA eA = true ->
    canonical_mantissa prec emax m e = true ->
    scaled m e <= scaled mA eA ->
    le (rounded false m e) (S754_finite false mA eA) = true
    /\ le (S754_finite true mA eA) (rounded true m e) = true.
Proof.
  intros mA eA m e HA Hc Hle.
  pose proof (scaled_bounded_lt _ _ _ _ HA Hc Hle) as He.
  apply bounded_iff in HA. destruct HA as [HA _]. unfold rounded.
  replace (e <=? 971) with true by (symmetry; apply Z.leb_le; exact He).
  unfold le, SFleb.
  rewrite (proj1 (SFcompare_canonical _ _ _ _ Hc HA)).
  rewrite (proj2 (SFcompare_canonical _ _ _ _ HA Hc)).
  destruct (scaled m e ?= scaled mA eA) eqn:E; try (split; reflexivity).
  apply Z.compare_gt_iff in E. lia.
Qed.

Lemma bounded_exponent :
  forall m e, bounded prec emax m e = true -> -1074 <= e.
Proof.
  intros m e H. apply bounded_iff in H. destruct H as [H _].
  exact (proj1 (canonical_facts _ _ H)).
Qed.

(** Adding a positive number does not lower a number, and subtracting
    one does not raise it: rounding is monotone. *)
Lemma add_positive_le :
  forall a r : number,
    isDouble a = true -> is_nan a = false -> a <> S754_infinity true ->
    isPositive r = true ->
    le a (add a r) = true.
Proof.
  intros [sa | sa | | sa ma ea] [sr | [|] | | [|] mr er] Ha Hn Hi Hr;
    try discriminate;
    try (destruct sa; try (exfalso; apply Hi; reflexivity); reflexivity).
  cbn [isDouble valid_binary isPositive] in Ha, Hr.
  pose proof (bounded_exponent _ _ Ha) as Hea.
  pose proof (bounded_exponent _ _ Hr) as Her.
  unfold add, SFadd. cbv zeta.
  set (ez := Z.min ea er).
  assert (Hez : -1074 <= ez) by (unfold ez; lia).
  pose proof (shl_align_scaled ma ea ez ltac:(unfold ez; lia) Hez) as HA.
  pose proof (shl_align_scaled mr er ez ltac:(unfold ez; lia) Hez) as HR.
  set (A := Zpos (fst (shl_align ma ea ez))) in *.
  set (R := Zpos (fst (shl_align mr er ez))) in *.
  assert (HW : 0 < 2 ^ (ez + 1074)) by (apply Z.pow_pos_nonneg; lia).
  pose proof (scaled_pos ma ea Hea) as Pa.
  pose proof (scaled_pos mr er Her) as Pr.
  cbn [cond_Zopp].
  destruct sa; cbn [cond_Zopp].
  - (* a negative *)
    destruct (- A + R) as [| p | p] eqn:Hz; cbn [binary_normalize].
    + reflexivity.
    + destruct (binary_round_spec false p ez Hez) as (m & e & Hrd & _ & _).
      rewrite Hrd. unfold rounded. destruct (e <=? 971); reflexivity.
    + destruct (binary_round_spec true p ez Hez) as (m & e & Hrd & Hc & Hmono).
      rewrite Hrd.
      apply bounded_iff in Ha as Ha'. destruct Ha' as [Hca _].
      destruct (Hmono ma ea Hca) as [_ Hup].
      apply (le_rounded_below ma ea m e Ha Hc). apply Hup.
      unfold scaled at 1. nia.
  - destruct (A + R) as [| p | p] eqn:Hz; cbn [binary_normalize]; try lia.
    destruct (binary_round_spec false p ez Hez) as (m & e & Hrd & Hc & Hmono).
    rewrite Hrd.
    apply bounded_iff in Ha as Ha'. destruct Ha' as [Hca _].
    destruct (Hmono ma ea Hca) as [Hlow _].
    apply (le_rounded_above ma ea m e Ha Hc). apply Hlow.
    unfold scaled at 2. nia.
Qed.

Lemma sub_positive_le :
  forall a r : number,
    isDouble a = true -> is_nan a = false -> a <> S754_infinity false ->
    isPositive r = true ->
    le (sub a r) a = true.
Proof.
  intros [sa | sa | | sa ma ea] [sr | [|] | | [|] mr er] Ha Hn Hi Hr;
    try discriminate;
    try (destruct sa; try (exfalso; apply Hi; reflexivity); reflexivity).
  cbn [isDouble valid_binary isPositive] in Ha, Hr.
  pose proof (bounded_exponent _ _ Ha) as Hea.
  pose proof (bounded_exponent _ _ Hr) as Her.
  unfold sub, SFsub. cbv zeta.
  set (ez := Z.min ea er).
  assert (Hez : -1074 <= ez) by (unfold ez; lia).
  pose proof (shl_align_scaled ma ea ez ltac:(unfold ez; lia) Hez) as HA.
  pose proof (shl_align_scaled mr er ez ltac:(unfold ez; lia) Hez) as HR.
  set (A := Zpos (fst (shl_align ma ea ez))) in *.
  set (R := Zpos (fst (shl_align mr er ez))) in *.
  assert (HW : 0 < 2 ^ (ez + 1074)) by (apply Z.pow_pos_nonneg; lia).
  pose proof (scaled_pos ma ea Hea) as Pa.
  pose proof (scaled_pos mr er Her) as Pr.
  apply bounded_iff in Ha as Ha'. destruct Ha' as [Hca _].
  destruct sa; cbn [cond_Zopp].
  - destruct (- A - R) as [| p | p] eqn:Hz; cbn [binary_normalize]; try lia.
    destruct (binary_round_spec true p ez Hez) as (m & e & Hrd & Hc & Hmono).
    rewrite Hrd. destruct (Hmono ma ea Hca) as [Hlow _].
    apply (le_rounded_above ma ea m e Ha Hc). apply Hlow.
    unfold scaled at 2. nia.
  - destruct (A - R) as [| p | p] eqn:Hz; cbn [binary_normalize].
    + reflexivity.
    + destruct (binary_round_spec false p ez Hez) as (m & e & Hrd & Hc & Hmono).
      rewrite Hrd. destruct (Hmono ma ea Hca) as [_ Hup].
      apply (le_rounded_below ma ea m e Ha Hc). apply Hup.
      unfold scaled at 1. nia.
    + destruct (binary_round_spec true p ez Hez) as (m & e & Hrd & _ & _).
      rewrite Hrd. unfold rounded. destruct (e <=? 971); reflexivity.
Qed.

Lemma binary_normalize_valid :
  forall z ez, -1074 <= ez ->
    isDouble (binary_normalize prec emax z ez false) = true.
Proof.
  intros [| p | p] ez Hez; cbn [binary_normalize]; [reflexivity | |].
  - destruct (binary_round_spec false p ez Hez) as (m & e & Hrd & Hc & _).
    rewrite Hrd. apply rounded_valid. exact Hc.
  - destruct (binary_round_spec true p ez Hez) as (m & e & Hrd & Hc & _).
    rewrite Hrd. apply rounded_valid. exact Hc.
Qed.

Lemma add_sub_valid :
  forall x y : number,
    isDouble x = true -> isDouble y = true ->
    isDouble (add x y) = true /\ isDouble (sub x y) = true.
Proof.
  intros [sx | sx | | sx mx ex] [sy | sy | | sy my ey] Hx Hy;
    try (split; reflexivity);
    try (destruct sx, sy; split; reflexivity);
    try (split; assumption).
  cbn [isDouble valid_binary] in Hx, Hy.
  pose proof (bounded_exponent _ _ Hx). pose proof (bounded_exponent _ _ Hy).
  unfold add, sub, SFadd, SFsub. cbv zeta.
  split; apply binary_normalize_valid; lia.
Qed.

(** The difference of a number and a strictly smaller one is positive. *)
Lemma sub_of_lt_positive :
  forall x y : number,
    isDouble x = true -> isDouble y = true ->
    lt y x = true -> isPositive (sub x y) = true.
Proof.
  intros [sx | sx | | sx mx ex] [sy | sy | | sy my ey] Hx Hy Hlt;
    try discriminate;
    try (destruct sx, sy; try discriminate; reflexivity);
    try (destruct sx; try discriminate; assumption);
    try (destruct sy; try discriminate; assumption).
  cbn [isDouble valid_binary] in Hx, Hy.
  pose proof (bounded_exponent _ _ Hx) as Hex.
  pose proof (bounded_exponent _ _ Hy) as Hey.
  apply bounded_iff in Hx as Hx'. destruct Hx' as [Hcx _].
  apply bounded_iff in Hy as Hy'. destruct Hy' as [Hcy _].
  unfold sub, SFsub. cbv zeta.
  set (ez := Z.min ex ey).
  assert (Hez : -1074 <= ez) by (unfold ez; lia).
  pose proof (shl_align_scaled mx ex ez ltac:(unfold ez; lia) Hez) as HX.
  pose proof (shl_align_scaled my ey ez ltac:(unfold ez; lia) Hez) as HY.
  set (X := Zpos (fst (shl_align mx ex ez))) in *.
  set (Y := Zpos (fst (shl_align my ey ez))) in *.
  assert (HW : 0 < 2 ^ (ez + 1074)) by (apply Z.pow_pos_nonneg; lia).
  assert (PX : 0 < X) by (unfold X; lia).
  assert (PY : 0 < Y) by (unfold Y; lia).
  assert (Hpos : 0 < cond_Zopp sx X - cond_Zopp sy Y).
  { unfold lt, SFltb in Hlt.
    destruct sx, sy; cbn [cond_Zopp].
    - rewrite (proj2 (SFcompare_canonical _ _ _ _ Hcy Hcx)) in Hlt.
      destruct (scaled mx ex ?= scaled my ey) eqn:E; try discriminate.
      pose proof (proj1 (Z.compare_lt_iff _ _) E) as E'. nia.
    - discriminate Hlt.
    - lia.
    - rewrite (proj1 (SFcompare_canonical _ _ _ _ Hcy Hcx)) in Hlt.
      destruct (scaled my ey ?= scaled mx ex) eqn:E; try discriminate.
      pose proof (proj1 (Z.compare_lt_iff _ _) E) as E'. nia. }
  destruct (cond_Zopp sx X - cond_Zopp sy Y) as [| p | p]; try lia.
  cbn [binary_normalize].
  destruct (binary_round_spec false p ez Hez) as (m & e & Hrd & Hc & _).
  rewrite Hrd. apply rounded_positive. exact Hc.
Qed.

Lemma isPositive_isDouble :
  forall r, isPositive r = true -> isDouble r = true.
Proof. intros [s | [|] | | [|] m e] H; try discriminate; try reflexivity. exact H. Qed.

Lemma lt_bounds :
  forall a b : number,
    lt a b = true ->
    a <> S754_infinity false /\ b <> S754_infinity true.
Proof.
  intros [sa | [|] | | sa ma ea] [sb | [|] | | sb mb eb] H;
    try discriminate H; try (destruct sa; discriminate H);
    try (destruct sb; discriminate H);
    split; discriminate.
Qed.

End Binary64Values.

(** ** Outcome evaluator *)

(** C2. [checkOutcome] tests the target first and the stop second: WIN iff
    the target condition holds (BUY: high >= takeProfit, SELL: low <=
    takeProfit), otherwise LOSS iff the stop condition holds (BUY: low <=
    stopLoss, SELL: high >= stopLoss), otherwise OPEN; a candle on which
    both conditions hold is a WIN, never a LOSS. *)
Theorem checkOutcome_target_before_stop :
  forall (setup : TradeSetup) (high low : number),
    (checkOutcome setup high low = OutWIN <->
       targetHit setup high low = true)
    /\ (checkOutcome setup high low = OutLOSS <->
          targetHit setup high low = false /\ stopHit setup high low = true)
    /\ (checkOutcome setup high low = OutOPEN <->
          targetHit setup high low = false /\ stopHit setup high low = false)
    /\ (ts_direction setup = BUY ->
          targetHit setup high low = ge high (ts_takeProfit setup)
          /\ stopHit setup high low = le low (ts_stopLoss setup))
    /\ (ts_direction setup = SELL ->
          targetHit setup high low = le low (ts_takeProfit setup)
          /\ stopHit setup high low = ge high (ts_stopLoss setup))
    /\ (targetHit setup high low = true -> stopHit setup high low = true ->
          checkOutcome setup high low = OutWIN
          /\ checkOutcome setup high low <> OutLOSS).
Proof.
  intros setup high low.
  unfold checkOutcome, targetHit, stopHit.
  destruct (ts_direction setup).
  - destruct (ge high (ts_takeProfit setup)), (le low (ts_stopLoss setup));
      repeat split; intros; try congruence; try tauto;
      match goal with H : _ /\ _ |- _ => destruct H; congruence end.
  - destruct (le low (ts_takeProfit setup)), (ge high (ts_stopLoss setup));
      repeat split; intros; try congruence; try tauto;
      match goal with H : _ /\ _ |- _ => destruct H; congruence end.
Qed.

(** Scenario D of the specification: a BUY with stop 1.0948 and target
    1.1050, and a candle with high 1.1051 and low 1.0947 that reaches
    both. *)
Example checkOutcome_scenario_D :
  checkOutcome exampleSetup (dec 11051 4) (dec 10947 4) = OutWIN
  /\ targetHit exampleSetup (dec 11051 4) (dec 10947 4) = true
  /\ stopHit exampleSetup (dec 11051 4) (dec 10947 4) = true.
Proof. repeat split. Qed.

(** ** Retracement monitor *)

Lemma monitorOne_fold :
  forall (c : Candle) (setups : list ActiveSetup) (acc : MonitorResult),
    fold_left (monitorOne c) setups acc =
    {| mr_triggered :=
         mr_triggered acc
         ++ map (advanced TRIGGERED)
              (filter (fun s => isWaiting s && setupTriggers c s) setups);
       mr_expired :=
         mr_expired acc
         ++ map (advanced EXPIRED)
              (filter (fun s => isWaiting s && negb (setupTriggers c s)
                                && isSetupExpired (as_candlesElapsed s + 1))
                 setups);
       mr_stillActive :=
         mr_stillActive acc
         ++ map (advanced WAITING)
              (filter (fun s => isWaiting s && negb (setupTriggers c s)
                                && negb (isSetupExpired (as_candlesElapsed s + 1)))
                 setups) |}.
Proof.
  intros c setups.
  induction setups as [| s rest IH]; intros acc.
  - simpl. rewrite !app_nil_r. destruct acc; reflexivity.
  - simpl fold_left. rewrite IH. clear IH.
    unfold monitorOne, isWaiting, setupTriggers, entryReached, advanced.
    simpl filter.
    destruct (as_status s) eqn:Hst; simpl; try reflexivity.
    destruct (as_direction s);
      match goal with
      | |- context [if ?b then _ else _] => destruct b eqn:Hhit
      end; simpl;
      try (destruct (isSetupExpired (as_candlesElapsed s + 1)); simpl);
      rewrite <- ?app_assoc; simpl; rewrite ?Hst; reflexivity.
Qed.

Lemma filter_filter_andb :
  forall (A : Type) (f g : A -> bool) (l : list A),
    filter g (filter f l) = filter (fun x => f x && g x) l.
Proof.
  intros A f g l. induction l as [| x l IH]; simpl; [reflexivity |].
  destruct (f x); simpl; [destruct (g x) |]; rewrite IH; reflexivity.
Qed.

Lemma monitorSetups_movedTo :
  forall (setups : list ActiveSetup) (c : Candle),
    monitorSetups setups c =
    {| mr_triggered := movedTo TRIGGERED c setups;
       mr_expired := movedTo EXPIRED c setups;
       mr_stillActive := movedTo WAITING c setups |}.
Proof.
  intros setups c. unfold monitorSetups, movedTo.
  rewrite monitorOne_fold. simpl.
  rewrite !filter_filter_andb.
  f_equal; f_equal; apply filter_ext; intros s;
    unfold nextStatus, isSetupExpired;
    destruct (isWaiting s), (setupTriggers c s),
      (MAX_CANDLES_FOR_ENTRY <=? as_candlesElapsed s + 1); reflexivity.
Qed.

(** C1. Feeding a new candle to [monitorSetups]: every WAITING setup is
    advanced by exactly one candle and lands in exactly the list of its
    next status, which is TRIGGERED iff the candle reaches the entry zone
    (BUY: low <= entryZone, SELL: high >= entryZone), this test coming
    before the expiry test, so a triggering tenth candle gives TRIGGERED
    and not EXPIRED; EXPIRED iff it does not trigger and the incremented
    count is >= 10; WAITING otherwise.  A setup that is already TRIGGERED
    or EXPIRED is skipped: it changes nothing, and the function is total,
    so nothing is thrown. *)
Theorem monitorSetups_lifecycle :
  forall (setups : list ActiveSetup) (c : Candle),
    monitorSetups setups c =
      {| mr_triggered := movedTo TRIGGERED c setups;
         mr_expired := movedTo EXPIRED c setups;
         mr_stillActive := movedTo WAITING c setups |}
    /\ (forall s st,
          as_candlesElapsed (advanced st s) = as_candlesElapsed s + 1
          /\ as_status (advanced st s) = st
          /\ as_id (advanced st s) = as_id s
          /\ as_entryZone (advanced st s) = as_entryZone s)
    /\ (forall s,
          (nextStatus c s = TRIGGERED <-> setupTriggers c s = true)
          /\ (nextStatus c s = EXPIRED <->
                setupTriggers c s = false
                /\ MAX_CANDLES_FOR_ENTRY <= as_candlesElapsed s + 1)
          /\ (nextStatus c s = WAITING <->
                setupTriggers c s = false
                /\ as_candlesElapsed s + 1 < MAX_CANDLES_FOR_ENTRY))
    /\ (forall s,
          setupTriggers c s =
          match as_direction s with
          | BUY => le (c_low c) (as_entryZone s)
          | SELL => ge (c_high c) (as_entryZone s)
          end)
    /\ (forall s,
          as_status s = WAITING -> setupTriggers c s = true ->
          as_candlesElapsed s + 1 = MAX_CANDLES_FOR_ENTRY ->
          monitorSetups [s] c =
            {| mr_triggered := [advanced TRIGGERED s];
               mr_expired := []; mr_stillActive := [] |})
    /\ (forall s before after,
          as_status s <> WAITING ->
          monitorSetups (before ++ s :: after) c =
          monitorSetups (before ++ after) c).
Proof.
  intros setups c.
  split; [apply monitorSetups_movedTo |].
  split; [intros s st; repeat split |].
  split.
  { intros s. unfold nextStatus.
    destruct (setupTriggers c s).
    - repeat split; intros; try congruence;
        match goal with H : _ /\ _ |- _ => destruct H; congruence end.
    - destruct (MAX_CANDLES_FOR_ENTRY <=? as_candlesElapsed s + 1) eqn:E.
      + apply Nat.leb_le in E.
        repeat split; intros; try congruence; try lia;
          match goal with H : _ /\ _ |- _ => destruct H; lia end.
      + apply Nat.leb_gt in E.
        repeat split; intros; try congruence; try lia;
          match goal with H : _ /\ _ |- _ => destruct H; lia end. }
  split; [intros s; reflexivity |].
  split.
  { intros s Hw Ht Hn. rewrite monitorSetups_movedTo. unfold movedTo.
    cbn [filter]. unfold isWaiting. rewrite Hw. cbn [SetupStatus_beq filter].
    unfold nextStatus. rewrite Ht. reflexivity. }
  intros s before after Hs.
  assert (Hskip : filter isWaiting (before ++ s :: after)
                  = filter isWaiting (before ++ after)).
  { rewrite !filter_app. cbn [filter]. unfold isWaiting at 2.
    destruct (as_status s); try congruence; reflexivity. }
  rewrite !monitorSetups_movedTo. unfold movedTo.
  rewrite Hskip. reflexivity.
Qed.

(** ** Retracement check over a window of candles *)

Lemma findTrigger_none :
  forall d e cs i,
    (forall c, In c cs -> fills d e c = false) ->
    findTrigger d e cs i = None.
Proof.
  intros d e cs. induction cs as [| c rest IH]; intros i Hall.
  - reflexivity.
  - simpl. pose proof (Hall c (or_introl eq_refl)) as Hc.
    unfold fills, entryReached in Hc.
    destruct (c_complete c); simpl in *.
    + rewrite Hc. apply IH. intros c' Hin. apply Hall. now right.
    + apply IH. intros c' Hin. apply Hall. now right.
Qed.

Lemma findTrigger_first :
  forall d e cs i k c,
    nth_error cs k = Some c ->
    fills d e c = true ->
    (forall j c', j < k -> nth_error cs j = Some c' -> fills d e c' = false) ->
    findTrigger d e cs i =
      Some {| rc_triggered := true; rc_entryPrice := Some e;
              rc_triggerCandle := Some c; rc_candlesElapsed := i + k + 1 |}.
Proof.
  intros d e cs. induction cs as [| c0 rest IH]; intros i k c Hk Hf Hbefore.
  - destruct k; discriminate.
  - destruct k as [| k'].
    + simpl in Hk. injection Hk as ->.
      unfold fills, entryReached in Hf. apply andb_prop in Hf as [Hc Hr].
      simpl. rewrite Hc. simpl. rewrite Hr.
      rewrite Nat.add_0_r. reflexivity.
    + simpl in Hk.
      pose proof (Hbefore 0 c0 (Nat.lt_0_succ k') eq_refl) as H0.
      unfold fills, entryReached in H0.
      assert (Hrest : findTrigger d e rest (S i) =
                Some {| rc_triggered := true; rc_entryPrice := Some e;
                        rc_triggerCandle := Some c;
                        rc_candlesElapsed := S i + k' + 1 |}).
      { apply IH; [exact Hk | exact Hf |].
        intros j c' Hj Hn. apply (Hbefore (S j) c'); [lia | exact Hn]. }
      replace (i + S k' + 1) with (S i + k' + 1) by lia.
      simpl findTrigger.
      destruct (c_complete c0); simpl in *.
      * rewrite H0. exact Hrest.
      * exact Hrest.
Qed.

(** C10. [checkRetracement] looks at the first [MAX_CANDLES_FOR_ENTRY]
    (10) candles only.  Incomplete candles are skipped by the trigger
    test but keep their position: when the first complete candle that
    reaches the entry zone stands at zero-based position [i] of that
    window, the result is triggered with [candlesElapsed = i + 1]; when
    no candle of the window fills the entry, the result is not triggered
    and [candlesElapsed] is the length of the window. *)
Theorem checkRetracement_window :
  forall (direction : Direction) (entryZone : number)
         (subsequentCandles : list Candle),
    let window := firstn MAX_CANDLES_FOR_ENTRY subsequentCandles in
    MAX_CANDLES_FOR_ENTRY = 10
    /\ length window = Nat.min 10 (length subsequentCandles)
    /\ checkRetracement direction entryZone subsequentCandles =
       checkRetracement direction entryZone window
    /\ (forall i c,
          nth_error window i = Some c ->
          c_complete c = true ->
          entryReached direction entryZone c = true ->
          (forall j c', j < i -> nth_error window j = Some c' ->
                        fills direction entryZone c' = false) ->
          checkRetracement direction entryZone subsequentCandles =
            {| rc_triggered := true; rc_entryPrice := Some entryZone;
               rc_triggerCandle := Some c; rc_candlesElapsed := i + 1 |})
    /\ ((forall c, In c window -> fills direction entryZone c = false) ->
          checkRetracement direction entryZone subsequentCandles =
            {| rc_triggered := false; rc_entryPrice := None;
               rc_triggerCandle := None;
               rc_candlesElapsed := length window |}).
Proof.
  intros direction entryZone subsequentCandles window.
  split; [reflexivity |].
  split; [apply length_firstn |].
  split.
  { unfold checkRetracement. fold window.
    replace (firstn MAX_CANDLES_FOR_ENTRY window) with window; [reflexivity |].
    unfold window. rewrite firstn_firstn, Nat.min_id. reflexivity. }
  split.
  - intros i c Hi Hc Hr Hbefore. unfold checkRetracement. fold window.
    rewrite (@findTrigger_first direction entryZone window 0 i c Hi);
      [reflexivity | | exact Hbefore].
    unfold fills. rewrite Hc, Hr. reflexivity.
  - intros Hnone. unfold checkRetracement. fold window.
    rewrite (findTrigger_none _ _ _ 0 Hnone). reflexivity.
Qed.

(** ** Signal candle detector *)

Lemma getTolerance_not_nan :
  forall pair : Pair, is_nan (getTolerance pair) = false.
Proof. intros []; vm_compute; reflexivity. Qed.

(** With a bullish or a bearish body the doji test [bodySize < tolerance]
    is the negation of [bodySize >= tolerance]: the body size is not NaN. *)
Lemma doji_test_total :
  forall (open close : number) (pair : Pair),
    lt open close = true \/ lt close open = true ->
    lt (abs (sub close open)) (getTolerance pair)
    = negb (ge (abs (sub close open)) (getTolerance pair)).
Proof.
  intros open close pair H.
  apply lt_negb_ge; [| apply getTolerance_not_nan].
  apply abs_not_nan.
  destruct H as [H | H]; apply sub_not_nan_of_lt in H; tauto.
Qed.

(** C5. [detectWickless] returns a valid signal iff the trend is UP, the
    candle is bullish (close > open), has no bottom wick (low >= open - e)
    and a body of at least e, in which case it is a BUY at the candle's
    low; or the trend is DOWN, the candle is bearish (close < open), has
    no top wick (high <= open + e) and a body of at least e, in which
    case it is a SELL at the candle's high.  With a RANGING trend, or a
    body below e, there is no signal whatever the candle. *)
Theorem detectWickless_valid_iff :
  forall (candle : Candle) (pair : Pair) (trend : Trend),
    let e := getTolerance pair in
    let body := abs (sub (c_close candle) (c_open candle)) in
    let buy :=
      trend = UP
      /\ gt (c_close candle) (c_open candle) = true
      /\ ge (c_low candle) (sub (c_open candle) e) = true
      /\ ge body e = true in
    let sell :=
      trend = DOWN
      /\ lt (c_close candle) (c_open candle) = true
      /\ le (c_high candle) (add (c_open candle) e) = true
      /\ ge body e = true in
    (wr_isValid (detectWickless candle pair trend) = true <-> buy \/ sell)
    /\ (buy -> detectWickless candle pair trend =
                 {| wr_isValid := true; wr_direction := Some BUY;
                    wr_entryZone := Some (c_low candle);
                    wr_candle := Some candle |})
    /\ (sell -> detectWickless candle pair trend =
                  {| wr_isValid := true; wr_direction := Some SELL;
                     wr_entryZone := Some (c_high candle);
                     wr_candle := Some candle |})
    /\ (wr_isValid (detectWickless candle pair trend) = false ->
          detectWickless candle pair trend = noSignal)
    /\ (trend = RANGING -> detectWickless candle pair trend = noSignal)
    /\ (lt body e = true -> detectWickless candle pair trend = noSignal).
Proof.
  intros candle pair trend e body buy sell.
  assert (Hbuy : buy -> detectWickless candle pair trend =
                   {| wr_isValid := true; wr_direction := Some BUY;
                      wr_entryZone := Some (c_low candle);
                      wr_candle := Some candle |}).
  { intros (Ht & Hb & Hw & Hbody). subst trend. unfold detectWickless.
    rewrite (doji_test_total _ _ pair (or_introl Hb)).
    fold e body. rewrite Hbody. simpl. rewrite Hb, Hw. reflexivity. }
  assert (Hsell : sell -> detectWickless candle pair trend =
                    {| wr_isValid := true; wr_direction := Some SELL;
                       wr_entryZone := Some (c_high candle);
                       wr_candle := Some candle |}).
  { intros (Ht & Hb & Hw & Hbody). subst trend. unfold detectWickless.
    rewrite (doji_test_total _ _ pair (or_intror Hb)).
    fold e body. rewrite Hbody. simpl. rewrite Hb, Hw. reflexivity. }
  assert (Hvalid : wr_isValid (detectWickless candle pair trend) = true ->
                   buy \/ sell).
  { unfold detectWickless. fold e body.
    destruct trend; [| | simpl; discriminate].
    - destruct (lt body e) eqn:Hd; [simpl; discriminate |].
      destruct (gt (c_close candle) (c_open candle)) eqn:Hb;
        [| simpl; discriminate].
      destruct (ge (c_low candle) (sub (c_open candle) e)) eqn:Hw;
        [| simpl; discriminate].
      intros _. left. repeat split; try assumption.
      pose proof (doji_test_total _ _ pair (or_introl Hb)) as Ht.
      fold e body in Ht. rewrite Hd in Ht.
      destruct (ge body e); [reflexivity | discriminate].
    - destruct (lt body e) eqn:Hd; [simpl; discriminate |].
      destruct (lt (c_close candle) (c_open candle)) eqn:Hb;
        [| simpl; discriminate].
      destruct (le (c_high candle) (add (c_open candle) e)) eqn:Hw;
        [| simpl; discriminate].
      intros _. right. repeat split; try assumption.
      pose proof (doji_test_total _ _ pair (or_intror Hb)) as Ht.
      fold e body in Ht. rewrite Hd in Ht.
      destruct (ge body e); [reflexivity | discriminate]. }
  split.
  { split; [exact Hvalid |].
    intros [H | H]; [rewrite (Hbuy H) | rewrite (Hsell H)]; reflexivity. }
  split; [exact Hbuy |].
  split; [exact Hsell |].
  split.
  { unfold detectWickless. fold e body.
    destruct trend; [| | reflexivity];
      destruct (lt body e); try reflexivity;
      match goal with
      | |- context [if ?b && ?c then _ else _] => destruct b, c
      end; simpl; intros; try reflexivity; discriminate. }
  split.
  { intros ->. reflexivity. }
  intros Hd. unfold detectWickless. fold e body. rewrite Hd.
  destruct trend; reflexivity.
Qed.

(** The candle of scenario A of the specification (open 1.1000, high
    1.1010, low 1.0999, close 1.1008, EUR/USD, trend UP) is bullish, but
    its low is under [open - e = 1.09998]: it has a bottom wick of one
    pip and gives no signal.  A low of 1.09999 would. *)
Example detectWickless_scenario_A :
  let candle low :=
    {| c_time := "2024-01-02T10:00:00Z"; c_open := dec 11000 4;
       c_high := dec 11010 4; c_low := low; c_close := dec 11008 4;
       c_complete := true |} in
  ge (dec 10999 4) (sub (dec 11000 4) (getTolerance EUR_USD)) = false
  /\ detectWickless (candle (dec 10999 4)) EUR_USD UP = noSignal
  /\ detectWickless (candle (dec 109999 5)) EUR_USD UP =
       {| wr_isValid := true; wr_direction := Some BUY;
          wr_entryZone := Some (dec 109999 5);
          wr_candle := Some (candle (dec 109999 5)) |}.
Proof. vm_compute. repeat split. Qed.

(** ** Setup validation *)

(** Numbers that compare equal compare alike with any third number. *)
Lemma SFeqb_compare_r :
  forall a b x : number,
    SFeqb a b = true -> SFcompare a x = SFcompare b x.
Proof.
  intros [sa | sa | | sa ma ea] [sb | sb | | sb mb eb] x H;
    unfold SFeqb in H; simpl in H; try discriminate;
    try reflexivity;
    try (destruct sa, sb; try discriminate; reflexivity);
    try (destruct sa; discriminate);
    try (destruct sb; discriminate).
  destruct sa, sb; try discriminate;
    destruct (ea ?= eb)%Z eqn:He; try discriminate;
    apply Z.compare_eq in He; subst eb;
    destruct (Pos.compare_cont Eq ma mb) eqn:Hm; try discriminate;
    apply Pos.compare_eq in Hm; subst mb; reflexivity.
Qed.

Lemma SFeqb_not_lt :
  forall a b : number, SFeqb a b = true -> lt a b = false /\ gt a b = false.
Proof.
  intros a b H. unfold lt, gt, SFltb.
  rewrite (SFcompare_swap a b).
  unfold SFeqb in H.
  destruct (SFcompare a b) as [[| |] |]; try discriminate.
  split; reflexivity.
Qed.

(** With an entry, a stop and a target that are numbers, the verdict is
    the conjunction of the band test and of the ordering test. *)
Lemma validateSetup_valid :
  forall (toFixed : number -> nat -> string)
         (numberToString : number -> string)
         (setup : TradeSetup) (pair : Pair) (minPips maxPips : number),
    is_nan (ts_entryZone setup) = false ->
    is_nan (ts_stopLoss setup) = false ->
    is_nan (ts_takeProfit setup) = false ->
    valid (validateSetup toFixed numberToString setup pair minPips maxPips)
    = riskInBand setup minPips maxPips && entryBetween setup.
Proof.
  intros toFixed numberToString setup pair minPips maxPips He Hs Ht.
  assert (Hbuy1 : le (ts_entryZone setup) (ts_stopLoss setup)
                  = negb (lt (ts_stopLoss setup) (ts_entryZone setup))).
  { apply (le_negb_gt _ _ He Hs). }
  assert (Hbuy2 : ge (ts_entryZone setup) (ts_takeProfit setup)
                  = negb (lt (ts_entryZone setup) (ts_takeProfit setup))).
  { rewrite (lt_negb_ge _ _ He Ht). rewrite negb_involutive. reflexivity. }
  assert (Hsell1 : ge (ts_entryZone setup) (ts_stopLoss setup)
                   = negb (lt (ts_entryZone setup) (ts_stopLoss setup))).
  { rewrite (lt_negb_ge _ _ He Hs). rewrite negb_involutive. reflexivity. }
  assert (Hsell2 : le (ts_entryZone setup) (ts_takeProfit setup)
                   = negb (lt (ts_takeProfit setup) (ts_entryZone setup))).
  { apply (le_negb_gt _ _ He Ht). }
  unfold validateSetup, riskInBand, entryBetween.
  destruct (lt (ts_riskPips setup) minPips); [reflexivity |].
  destruct (gt (ts_riskPips setup) maxPips); [reflexivity |].
  destruct (ts_direction setup).
  - rewrite Hbuy1, Hbuy2.
    destruct (lt (ts_stopLoss setup) (ts_entryZone setup)),
             (lt (ts_entryZone setup) (ts_takeProfit setup)); reflexivity.
  - rewrite Hsell1, Hsell2.
    destruct (lt (ts_takeProfit setup) (ts_entryZone setup)),
             (lt (ts_entryZone setup) (ts_stopLoss setup)); reflexivity.
Qed.

Lemma le_not_lt :
  forall a b : number, le a b = true -> lt b a = false.
Proof.
  intros a b H. unfold le, lt, SFleb, SFltb in *.
  rewrite (SFcompare_swap a b).
  destruct (SFcompare a b) as [[| |] |]; try discriminate; reflexivity.
Qed.

(** A rejection always has one of the three causes. *)
Lemma validateSetup_rejection_cause :
  forall (toFixed : number -> nat -> string)
         (numberToString : number -> string)
         (setup : TradeSetup) (pair : Pair) (minPips maxPips : number),
    valid (validateSetup toFixed numberToString setup pair minPips maxPips)
    = false ->
    lt (ts_riskPips setup) minPips = true
    \/ gt (ts_riskPips setup) maxPips = true
    \/ entryBetween setup = false.
Proof.
  intros toFixed numberToString setup pair minPips maxPips.
  unfold validateSetup, entryBetween.
  destruct (lt (ts_riskPips setup) minPips); [intros _; left; reflexivity |].
  destruct (gt (ts_riskPips setup) maxPips);
    [intros _; right; left; reflexivity |].
  intros H. right. right. revert H.
  destruct (ts_direction setup).
  - destruct (le (ts_entryZone setup) (ts_stopLoss setup)) eqn:H1;
      [intros _; rewrite (le_not_lt _ _ H1); reflexivity |].
    destruct (ge (ts_entryZone setup) (ts_takeProfit setup)) eqn:H2;
      [intros _ | cbn; discriminate].
    unfold ge in H2. fold (le (ts_takeProfit setup) (ts_entryZone setup)) in H2.
    rewrite (le_not_lt _ _ H2). apply andb_false_r.
  - destruct (ge (ts_entryZone setup) (ts_stopLoss setup)) eqn:H1.
    + intros _. unfold ge in H1.
      fold (le (ts_stopLoss setup) (ts_entryZone setup)) in H1.
      rewrite (le_not_lt _ _ H1). apply andb_false_r.
    + destruct (le (ts_entryZone setup) (ts_takeProfit setup)) eqn:H2;
        [intros _; rewrite (le_not_lt _ _ H2); reflexivity
        | cbn; discriminate].
Qed.

(** C9 fails on levels that are not numbers.  A candle with a missing low
    is taken for a swing low, the stop anchored on it is NaN, and so are
    the risk and the target; every comparison with NaN is false, so
    neither band test and none of the ordering tests rejects: the entry
    does not sit strictly between stop and target, and the setup is
    accepted. *)
Lemma validateSetup_accepts_nan_levels :
  exists setup,
    calculateTradeSetup BUY (dec 10999 4) missingLowCandles EUR_USD
      = Ok (Some setup)
    /\ is_nan (ts_stopLoss setup) = true
    /\ lt (ts_riskPips setup) DEFAULT_MIN_PIPS = false
    /\ gt (ts_riskPips setup) DEFAULT_MAX_PIPS = false
    /\ entryBetween setup = false
    /\ valid (validateSetup (fun _ _ => "NaN"%string) (fun _ => "5"%string)
                setup EUR_USD DEFAULT_MIN_PIPS DEFAULT_MAX_PIPS) = true.
Proof.
  eexists. split; [vm_compute; reflexivity |].
  repeat split.
Qed.

(** C9, amended.  [validateSetup] is total: it has no path that throws.
    It answers [valid = false] whenever the risk is below [minPips] or
    above [maxPips], and only when the risk is below [minPips], or above
    [maxPips], or the entry does not sit strictly between stop and
    target for the direction of the setup; a rejection carries a reason
    that is not the empty string, and a risk equal to [minPips] or to
    [maxPips] is inside the band.  For a setup whose entry, stop and
    target are numbers (not NaN) it answers [valid = false] exactly in
    these three cases, and [valid = true] in every other case. *)
Theorem validateSetup_rejects_iff :
  forall (toFixed : number -> nat -> string)
         (numberToString : number -> string)
         (setup : TradeSetup) (pair : Pair) (minPips maxPips : number),
    let v := validateSetup toFixed numberToString setup pair minPips maxPips in
    (valid v = false ->
       lt (ts_riskPips setup) minPips = true
       \/ gt (ts_riskPips setup) maxPips = true
       \/ entryBetween setup = false)
    /\ (lt (ts_riskPips setup) minPips = true
        \/ gt (ts_riskPips setup) maxPips = true -> valid v = false)
    /\ (is_nan (ts_entryZone setup) = false ->
        is_nan (ts_stopLoss setup) = false ->
        is_nan (ts_takeProfit setup) = false ->
        (valid v = false <->
           lt (ts_riskPips setup) minPips = true
           \/ gt (ts_riskPips setup) maxPips = true
           \/ entryBetween setup = false)
        /\ (valid v = true <->
              lt (ts_riskPips setup) minPips = false
              /\ gt (ts_riskPips setup) maxPips = false
              /\ entryBetween setup = true))
    /\ (valid v = false -> reason v <> EmptyString)
    /\ (SFeqb (ts_riskPips setup) minPips = true ->
          lt (ts_riskPips setup) minPips = false)
    /\ (SFeqb (ts_riskPips setup) maxPips = true ->
          gt (ts_riskPips setup) maxPips = false).
Proof.
  intros toFixed numberToString setup pair minPips maxPips v.
  split; [apply validateSetup_rejection_cause |].
  split.
  { unfold v, validateSetup.
    destruct (lt (ts_riskPips setup) minPips); [reflexivity |].
    destruct (gt (ts_riskPips setup) maxPips); [reflexivity |].
    intros [H | H]; discriminate H. }
  split.
  { intros He Hs Ht.
    assert (Hv : valid v
                 = riskInBand setup minPips maxPips && entryBetween setup).
    { apply validateSetup_valid; assumption. }
    split.
    - rewrite Hv. unfold riskInBand.
      destruct (lt (ts_riskPips setup) minPips),
               (gt (ts_riskPips setup) maxPips),
               (entryBetween setup); simpl; split; intros H;
        try reflexivity; try discriminate; try tauto;
        destruct H as [H | [H | H]]; discriminate.
    - rewrite Hv. unfold riskInBand.
      destruct (lt (ts_riskPips setup) minPips),
               (gt (ts_riskPips setup) maxPips),
               (entryBetween setup); simpl; split; intros H;
        try reflexivity; try discriminate; try tauto;
        destruct H as (H1 & H2 & H3); discriminate. }
  split.
  { unfold v, validateSetup.
    destruct (lt (ts_riskPips setup) minPips); [simpl; discriminate |].
    destruct (gt (ts_riskPips setup) maxPips); [simpl; discriminate |].
    destruct (ts_direction setup);
      repeat match goal with
             | |- context [if ?b then _ else _] => destruct b
             end; simpl; intros; discriminate. }
  split; intros H; apply SFeqb_not_lt in H; tauto.
Qed.

(** The amended C9 at the example setup, whose levels are numbers and
    whose risk of 51 pips is above the default band. *)
Lemma validateSetup_rejects_iff_witness :
  is_nan (ts_entryZone exampleSetup) = false
  /\ is_nan (ts_stopLoss exampleSetup) = false
  /\ is_nan (ts_takeProfit exampleSetup) = false
  /\ (valid (validateSetup (fun _ _ => "51.0"%string) (fun _ => "50"%string)
               exampleSetup EUR_USD DEFAULT_MIN_PIPS DEFAULT_MAX_PIPS) = false
      <-> lt (ts_riskPips exampleSetup) DEFAULT_MIN_PIPS = true
          \/ gt (ts_riskPips exampleSetup) DEFAULT_MAX_PIPS = true
          \/ entryBetween exampleSetup = false).
Proof.
  split; [reflexivity |]. split; [reflexivity |]. split; [reflexivity |].
  exact (proj1
           (proj1 (proj2 (proj2
              (validateSetup_rejects_iff
                 (fun _ _ => "51.0"%string) (fun _ => "50"%string)
                 exampleSetup EUR_USD DEFAULT_MIN_PIPS DEFAULT_MAX_PIPS)))
              eq_refl eq_refl eq_refl)).
Defined.

(** ** Swing point detector *)

Lemma at_index_some :
  forall (A : Type) (xs : list A) (i : nat) (x : A),
    nth_error xs i = Some x -> at_index xs i = Ok x.
Proof. intros A xs i x H. unfold at_index. rewrite H. reflexivity. Qed.

Lemma nth_error_in_range :
  forall (A : Type) (xs : list A) (i : nat),
    i < length xs -> exists x, nth_error xs i = Some x.
Proof.
  intros A xs i H. destruct (nth_error xs i) as [x |] eqn:E.
  - exists x. reflexivity.
  - apply nth_error_None in E. lia.
Qed.

(** The inner loop computes the conjunction of the per-distance tests;
    leaving it early does not change the flags it would have returned. *)
Lemma checkNeighbours_forallb :
  forall candles current i remaining j h0 l0,
    1 <= j ->
    j + remaining <= i + 1 ->
    i + j + remaining <= length candles ->
    checkNeighbours candles current i remaining j h0 l0 =
      Ok (h0 && forallb (highClears candles current i) (seq j remaining),
          l0 && forallb (lowClears candles current i) (seq j remaining)).
Proof.
  intros candles current i remaining.
  induction remaining as [| r IH]; intros j h0 l0 Hj Hleft Hright.
  - simpl. rewrite !andb_true_r. reflexivity.
  - destruct (@nth_error_in_range _ candles (i - j)) as [l Hl]; [lia |].
    destruct (@nth_error_in_range _ candles (i + j)) as [rc Hr]; [lia |].
    cbn [checkNeighbours seq forallb].
    unfold at_left, eitherNeighbour.
    assert (Hij : (i <? j) = false) by (apply Nat.ltb_ge; lia).
    rewrite Hij, (at_index_some _ _ _ _ Hl), (at_index_some _ _ _ _ Hr).
    cbn [bind].
    unfold highClears at 1, lowClears at 1. rewrite Hl, Hr.
    destruct (ge (c_high l) (c_high current));
      destruct (ge (c_high rc) (c_high current));
      destruct (le (c_low l) (c_low current));
      destruct (le (c_low rc) (c_low current));
      cbn [bind negb andb orb];
      destruct h0, l0; cbn [negb andb]; try reflexivity;
      rewrite ?IH by lia; cbn [andb]; reflexivity.
Qed.

Lemma scanCandles_flat_map :
  forall candles lookback remaining i swings,
    lookback <= i ->
    i + remaining + lookback <= length candles ->
    scanCandles candles lookback remaining i swings =
      Ok (swings ++ flat_map (swingsAt candles lookback) (seq i remaining)).
Proof.
  intros candles lookback remaining.
  induction remaining as [| r IH]; intros i swings Hlo Hhi.
  - simpl. rewrite app_nil_r. reflexivity.
  - destruct (@nth_error_in_range _ candles i) as [current Hc]; [lia |].
    cbn [scanCandles seq flat_map].
    rewrite (at_index_some _ _ _ _ Hc). cbn [bind].
    rewrite checkNeighbours_forallb by lia. cbn [bind andb].
    rewrite IH by lia.
    unfold swingsAt at 2. rewrite Hc.
    destruct (forallb (highClears candles current i) (seq 1 lookback));
      destruct (forallb (lowClears candles current i) (seq 1 lookback));
      rewrite <- ?app_assoc; reflexivity.
Qed.

Lemma swingsAt_index :
  forall candles lookback i s,
    In s (swingsAt candles lookback i) -> sp_index s = i.
Proof.
  intros candles lookback i s H. unfold swingsAt in H.
  destruct (nth_error candles i) as [current |]; [| contradiction].
  apply in_app_or in H.
  destruct H as [H | H];
    match type of H with
    | In _ (if ?b then _ else _) => destruct b
    end; simpl in H; try contradiction;
    destruct H as [<- | []]; reflexivity.
Qed.

Lemma StronglySorted_app :
  forall (A : Type) (R : A -> A -> Prop) (l1 l2 : list A),
    StronglySorted R l1 ->
    StronglySorted R l2 ->
    (forall x y, In x l1 -> In y l2 -> R x y) ->
    StronglySorted R (l1 ++ l2).
Proof.
  intros A R l1 l2 H1 H2 Hcross.
  induction H1 as [| a l Hl IH Ha]; simpl; [exact H2 |].
  constructor.
  - apply IH. intros x y Hx Hy. apply Hcross; [now right | exact Hy].
  - apply Forall_app. split; [exact Ha |].
    apply Forall_forall. intros y Hy. apply Hcross; [now left | exact Hy].
Qed.

Lemma swingsAt_sorted :
  forall candles lookback i,
    StronglySorted byIndex (swingsAt candles lookback i).
Proof.
  intros candles lookback i. unfold swingsAt.
  destruct (nth_error candles i) as [current |]; [| constructor].
  destruct (forallb (highClears candles current i) (seq 1 lookback));
    destruct (forallb (lowClears candles current i) (seq 1 lookback));
    simpl; repeat constructor.
Qed.

Lemma flat_map_swingsAt_sorted :
  forall candles lookback n i,
    StronglySorted byIndex
      (flat_map (swingsAt candles lookback) (seq i n)).
Proof.
  intros candles lookback n.
  induction n as [| n IH]; intros i; simpl; [constructor |].
  apply StronglySorted_app; [apply swingsAt_sorted | apply IH |].
  intros x y Hx Hy. unfold byIndex.
  apply swingsAt_index in Hx.
  apply in_flat_map in Hy. destruct Hy as (k & Hk & Hy).
  apply swingsAt_index in Hy. apply in_seq in Hk. lia.
Qed.

(** Sorting a list that is already in index order changes nothing. *)
Lemma sortByIndex_sorted :
  forall swings,
    StronglySorted byIndex swings -> sortByIndex swings = swings.
Proof.
  intros swings H. induction H as [| a l Hl IH Ha]; [reflexivity |].
  unfold sortByIndex in *. simpl. rewrite IH.
  destruct l as [| t rest]; [reflexivity |].
  simpl. inversion Ha as [| ? ? Hat _]; subst.
  unfold byIndex in Hat. apply Nat.leb_le in Hat. rewrite Hat. reflexivity.
Qed.

(** Whatever its input, the sort returns a list in index order. *)
Lemma insertByIndex_sorted :
  forall s l,
    StronglySorted byIndex l ->
    StronglySorted byIndex (insertByIndex s l).
Proof.
  intros s l H. induction H as [| a l Hl IH Ha]; simpl.
  - repeat constructor.
  - destruct (sp_index s <=? sp_index a) eqn:E.
    + apply Nat.leb_le in E. constructor; [constructor; assumption |].
      constructor; [exact E |].
      apply Forall_forall. intros y Hy.
      rewrite Forall_forall in Ha. specialize (Ha y Hy).
      unfold byIndex in *. lia.
    + apply Nat.leb_gt in E. constructor; [exact IH |].
      assert (Hin : forall y, In y (insertByIndex s l) -> y = s \/ In y l).
      { clear. induction l as [| t rest IHl]; simpl; intros y Hy.
        - destruct Hy as [<- | []]. now left.
        - destruct (sp_index s <=? sp_index t); simpl in Hy.
          + destruct Hy as [<- | Hy]; [now left | now right].
          + destruct Hy as [<- | Hy]; [right; now left |].
            destruct (IHl y Hy) as [-> | Hr]; [now left | right; now right]. }
      apply Forall_forall. intros y Hy.
      destruct (Hin y Hy) as [-> | Hy'].
      * unfold byIndex. lia.
      * rewrite Forall_forall in Ha. exact (Ha y Hy').
Qed.

Lemma sortByIndex_is_sorted :
  forall swings, StronglySorted byIndex (sortByIndex swings).
Proof.
  induction swings as [| s l IH]; [constructor |].
  unfold sortByIndex in *. simpl. apply insertByIndex_sorted, IH.
Qed.

(** [findSwingPoints] never throws, and returns the swing points of the
    list index by index. *)
Lemma findSwingPoints_swingPointsOf :
  forall candles lookback,
    findSwingPoints candles lookback = Ok (swingPointsOf candles lookback).
Proof.
  intros candles lookback. unfold findSwingPoints, swingPointsOf.
  destruct (length candles <? lookback * 2 + 1) eqn:E.
  - apply Nat.ltb_lt in E.
    replace (length candles - lookback - lookback) with 0 by lia.
    reflexivity.
  - apply Nat.ltb_ge in E.
    rewrite scanCandles_flat_map by lia. cbn [bind app].
    rewrite sortByIndex_sorted; [reflexivity |].
    apply flat_map_swingsAt_sorted.
Qed.

Lemma swingsAt_inv :
  forall candles lookback i s,
    In s (swingsAt candles lookback i) ->
    exists current,
      nth_error candles i = Some current
      /\ sp_index s = i
      /\ sp_time s = c_time current
      /\ match sp_type s with
         | HIGH => sp_price s = c_high current
                   /\ forallb (highClears candles current i) (seq 1 lookback)
                      = true
         | LOW => sp_price s = c_low current
                  /\ forallb (lowClears candles current i) (seq 1 lookback)
                     = true
         end.
Proof.
  intros candles lookback i s H. unfold swingsAt in H.
  destruct (nth_error candles i) as [current |]; [| contradiction].
  exists current. split; [reflexivity |].
  apply in_app_or in H.
  destruct H as [H | H];
    match type of H with
    | In _ (if ?b then _ else _) => destruct b eqn:E
    end; simpl in H; try contradiction;
    destruct H as [<- | []]; simpl; repeat split; assumption.
Qed.

Lemma highClears_strict :
  forall candles current i j,
    Forall numericCandle candles ->
    nth_error candles i = Some current ->
    highClears candles current i j = true ->
    exists l r,
      nth_error candles (i - j) = Some l
      /\ nth_error candles (i + j) = Some r
      /\ gt (c_high current) (c_high l) = true
      /\ gt (c_high current) (c_high r) = true.
Proof.
  intros candles current i j Hnum Hc H. unfold highClears in H.
  destruct (nth_error candles (i - j)) as [l |] eqn:Hl; [| discriminate].
  destruct (nth_error candles (i + j)) as [r |] eqn:Hr; [| discriminate].
  exists l, r. split; [reflexivity |]. split; [reflexivity |].
  rewrite Forall_forall in Hnum.
  destruct (Hnum _ (nth_error_In _ _ Hc)) as [Nc _].
  destruct (Hnum _ (nth_error_In _ _ Hl)) as [Nl _].
  destruct (Hnum _ (nth_error_In _ _ Hr)) as [Nr _].
  apply negb_true_iff, orb_false_iff in H. destruct H as [H1 H2].
  unfold gt. fold (lt (c_high l) (c_high current)).
  fold (lt (c_high r) (c_high current)).
  rewrite (lt_negb_ge _ _ Nl Nc), (lt_negb_ge _ _ Nr Nc), H1, H2.
  split; reflexivity.
Qed.

Lemma lowClears_strict :
  forall candles current i j,
    Forall numericCandle candles ->
    nth_error candles i = Some current ->
    lowClears candles current i j = true ->
    exists l r,
      nth_error candles (i - j) = Some l
      /\ nth_error candles (i + j) = Some r
      /\ lt (c_low current) (c_low l) = true
      /\ lt (c_low current) (c_low r) = true.
Proof.
  intros candles current i j Hnum Hc H. unfold lowClears in H.
  destruct (nth_error candles (i - j)) as [l |] eqn:Hl; [| discriminate].
  destruct (nth_error candles (i + j)) as [r |] eqn:Hr; [| discriminate].
  exists l, r. split; [reflexivity |]. split; [reflexivity |].
  rewrite Forall_forall in Hnum.
  destruct (Hnum _ (nth_error_In _ _ Hc)) as [_ Nc].
  destruct (Hnum _ (nth_error_In _ _ Hl)) as [_ Nl].
  destruct (Hnum _ (nth_error_In _ _ Hr)) as [_ Nr].
  apply negb_true_iff, orb_false_iff in H. destruct H as [H1 H2].
  rewrite (le_negb_gt _ _ Nl Nc) in H1. rewrite (le_negb_gt _ _ Nr Nc) in H2.
  apply negb_false_iff in H1, H2.
  split; assumption.
Qed.

Lemma highClears_inv :
  forall candles current i j,
    highClears candles current i j = true ->
    exists l r,
      nth_error candles (i - j) = Some l
      /\ nth_error candles (i + j) = Some r
      /\ ge (c_high l) (c_high current) = false
      /\ ge (c_high r) (c_high current) = false.
Proof.
  intros candles current i j H. unfold highClears in H.
  destruct (nth_error candles (i - j)) as [l |]; [| discriminate].
  destruct (nth_error candles (i + j)) as [r |]; [| discriminate].
  exists l, r. split; [reflexivity |]. split; [reflexivity |].
  apply negb_true_iff, orb_false_iff in H. exact H.
Qed.

Lemma lowClears_inv :
  forall candles current i j,
    lowClears candles current i j = true ->
    exists l r,
      nth_error candles (i - j) = Some l
      /\ nth_error candles (i + j) = Some r
      /\ le (c_low l) (c_low current) = false
      /\ le (c_low r) (c_low current) = false.
Proof.
  intros candles current i j H. unfold lowClears in H.
  destruct (nth_error candles (i - j)) as [l |]; [| discriminate].
  destruct (nth_error candles (i + j)) as [r |]; [| discriminate].
  exists l, r. split; [reflexivity |]. split; [reflexivity |].
  apply negb_true_iff, orb_false_iff in H. exact H.
Qed.

Lemma not_ge_gt :
  forall a b,
    is_nan a = false -> is_nan b = false -> ge a b = false -> gt b a = true.
Proof.
  intros a b Na Nb H. unfold gt. fold (lt a b).
  rewrite (lt_negb_ge _ _ Na Nb), H. reflexivity.
Qed.

Lemma not_le_lt :
  forall a b,
    is_nan a = false -> is_nan b = false -> le a b = false -> lt b a = true.
Proof.
  intros a b Na Nb H. rewrite (le_negb_gt _ _ Na Nb) in H.
  apply negb_false_iff in H. exact H.
Qed.

(** C7 fails where a high is not a number.  Such a high is never [>=]
    another one, and the source lowers the flag only when a neighbour's
    high is [>=] the current one: the middle candle below, between two
    candles whose high is missing, is reported as a swing HIGH, and its
    high is not strictly greater than the high of the candle before
    it. *)
Lemma findSwingPoints_nan_neighbour :
  findSwingPoints nanNeighbours 1 =
    Ok [ {| sp_index := 1; sp_time := "t1";
            sp_price := ofZ 4; sp_type := HIGH |} ]
  /\ nth_error nanNeighbours (1 - 1) = Some (flatCandle "t0" S754_nan (ofZ 1))
  /\ gt (ofZ 4) (c_high (flatCandle "t0" S754_nan (ofZ 1))) = false.
Proof. repeat split. Qed.

(** C7, amended.  For any candle list and any lookback,
    [findSwingPoints] returns, without throwing, a list in ascending
    index order in which every entry stands at an index with [lookback]
    candles on each side.  No high of the [lookback] candles on each side
    of a HIGH entry is greater than or equal to its high, and no low of
    those candles is less than or equal to the low of a LOW entry: the
    high of a HIGH entry is strictly greater than each of those highs
    that is a number, and the low of a LOW entry strictly less than each
    of those lows that is a number, when the entry's own price is a
    number.  The list is empty when there are fewer than
    [2 * lookback + 1] candles, and one candle can appear both as a HIGH
    and as a LOW. *)
Theorem findSwingPoints_sorted_strict :
  forall (candles : list Candle) (lookback : nat),
    exists swings,
      findSwingPoints candles lookback = Ok swings
      /\ StronglySorted byIndex swings
      /\ (forall s, In s swings ->
            exists current,
              nth_error candles (sp_index s) = Some current
              /\ lookback <= sp_index s
              /\ sp_index s + lookback < length candles
              /\ sp_time s = c_time current
              /\ match sp_type s with
                 | HIGH =>
                     sp_price s = c_high current
                     /\ forall j, 1 <= j <= lookback ->
                          exists l r,
                            nth_error candles (sp_index s - j) = Some l
                            /\ nth_error candles (sp_index s + j) = Some r
                            /\ ge (c_high l) (sp_price s) = false
                            /\ ge (c_high r) (sp_price s) = false
                            /\ (is_nan (sp_price s) = false ->
                                (is_nan (c_high l) = false ->
                                 gt (sp_price s) (c_high l) = true)
                                /\ (is_nan (c_high r) = false ->
                                    gt (sp_price s) (c_high r) = true))
                 | LOW =>
                     sp_price s = c_low current
                     /\ forall j, 1 <= j <= lookback ->
                          exists l r,
                            nth_error candles (sp_index s - j) = Some l
                            /\ nth_error candles (sp_index s + j) = Some r
                            /\ le (c_low l) (sp_price s) = false
                            /\ le (c_low r) (sp_price s) = false
                            /\ (is_nan (sp_price s) = false ->
                                (is_nan (c_low l) = false ->
                                 lt (sp_price s) (c_low l) = true)
                                /\ (is_nan (c_low r) = false ->
                                    lt (sp_price s) (c_low r) = true))
                 end)
      /\ (length candles < 2 * lookback + 1 -> swings = [])
      /\ (exists h l,
            findSwingPoints outsideBar 1 = Ok [h; l]
            /\ sp_type h = HIGH /\ sp_type l = LOW
            /\ sp_index h = sp_index l).
Proof.
  intros candles lookback.
  exists (swingPointsOf candles lookback).
  split; [apply findSwingPoints_swingPointsOf |].
  split; [apply flat_map_swingsAt_sorted |].
  split.
  { intros s Hs. unfold swingPointsOf in Hs.
    apply in_flat_map in Hs. destruct Hs as (i & Hi & Hs).
    apply in_seq in Hi.
    destruct (swingsAt_inv _ _ _ _ Hs) as (current & Hc & Hidx & Htime & Hty).
    exists current. rewrite Hidx.
    split; [exact Hc |]. split; [lia |]. split; [lia |].
    split; [exact Htime |].
    destruct (sp_type s); destruct Hty as [Hp Hall]; (split; [exact Hp |]);
      intros j Hj; rewrite forallb_forall in Hall;
      assert (Hin : In j (seq 1 lookback)) by (apply in_seq; lia);
      specialize (Hall j Hin); rewrite Hp.
    - destruct (highClears_inv _ _ _ _ Hall) as (l & r & Hl & Hr & H1 & H2).
      exists l, r. repeat split; try assumption; intros Nl.
      + apply not_ge_gt; assumption.
      + apply not_ge_gt; assumption.
    - destruct (lowClears_inv _ _ _ _ Hall) as (l & r & Hl & Hr & H1 & H2).
      exists l, r. repeat split; try assumption; intros Nl.
      + apply not_le_lt; assumption.
      + apply not_le_lt; assumption. }
  split.
  { intros Hshort. unfold swingPointsOf.
    replace (length candles - lookback - lookback) with 0 by lia.
    reflexivity. }
  eexists. eexists. split; [vm_compute; reflexivity |].
  repeat split.
Qed.

(** The amended C7 at the three candles of [outsideBar], whose prices are
    numbers: the HIGH entry is strictly above the highs of both
    neighbours. *)
Lemma findSwingPoints_sorted_strict_witness :
  exists swings h l r,
    findSwingPoints outsideBar 1 = Ok swings
    /\ StronglySorted byIndex swings
    /\ In h swings
    /\ sp_type h = HIGH
    /\ nth_error outsideBar (sp_index h - 1) = Some l
    /\ nth_error outsideBar (sp_index h + 1) = Some r
    /\ gt (sp_price h) (c_high l) = true
    /\ gt (sp_price h) (c_high r) = true.
Proof.
  destruct (findSwingPoints_sorted_strict outsideBar 1)
    as (swings & H1 & H2 & H3 & _).
  assert (Hs : swings =
    [ {| sp_index := 1; sp_time := "t1";
         sp_price := ofZ 4; sp_type := HIGH |};
      {| sp_index := 1; sp_time := "t1";
         sp_price := ofZ 1; sp_type := LOW |} ]).
  { assert (E : findSwingPoints outsideBar 1 =
      Ok [ {| sp_index := 1; sp_time := "t1";
              sp_price := ofZ 4; sp_type := HIGH |};
           {| sp_index := 1; sp_time := "t1";
              sp_price := ofZ 1; sp_type := LOW |} ]) by reflexivity.
    rewrite E in H1. injection H1 as <-. reflexivity. }
  specialize (H3 {| sp_index := 1; sp_time := "t1";
                    sp_price := ofZ 4; sp_type := HIGH |}).
  destruct H3 as (current & _ & _ & _ & _ & Hhigh);
    [rewrite Hs; now left |].
  cbn [sp_type sp_index sp_price] in Hhigh. destruct Hhigh as [_ Hhigh].
  destruct (Hhigh 1 (conj (Nat.le_refl 1) (Nat.le_refl 1)))
    as (l & r & Hl & Hr & _ & _ & Hstrict).
  destruct (Hstrict eq_refl) as [Sl Sr].
  assert (El : l = flatCandle "t0" (ofZ 3) (ofZ 2))
    by (cbn in Hl; injection Hl as <-; reflexivity).
  assert (Er : r = flatCandle "t2" (ofZ 3) (ofZ 2))
    by (cbn in Hr; injection Hr as <-; reflexivity).
  exists swings, {| sp_index := 1; sp_time := "t1";
                    sp_price := ofZ 4; sp_type := HIGH |}, l, r.
  split; [exact H1 |]. split; [exact H2 |].
  split; [rewrite Hs; now left |]. split; [reflexivity |].
  split; [exact Hl |]. split; [exact Hr |].
  split; [apply Sl; rewrite El; reflexivity
         | apply Sr; rewrite Er; reflexivity].
Defined.

(** ** Trend classifier *)

Lemma last_two_cases :
  forall (A : Type) (xs : list A),
    length xs < 2 \/ exists pre p l, xs = pre ++ [p; l].
Proof.
  intros A xs. destruct xs as [| l ys _] using rev_ind; [left; simpl; lia |].
  destruct ys as [| p zs _] using rev_ind; [left; simpl; lia |].
  right. exists zs, p, l. rewrite <- app_assoc. reflexivity.
Qed.

Lemma sliceLast2_app :
  forall (A : Type) (pre : list A) (p l : A),
    sliceLast2 (pre ++ [p; l]) = [p; l].
Proof.
  intros A pre p l. unfold sliceLast2.
  rewrite length_app. simpl.
  replace (length pre + 2 - 2) with (length pre + 0) by lia.
  rewrite skipn_app, Nat.add_0_r, skipn_all.
  replace (length pre - length pre) with 0 by lia. reflexivity.
Qed.

Lemma sliceLast2_short :
  forall (A : Type) (xs : list A), length xs < 2 -> sliceLast2 xs = xs.
Proof.
  intros A xs H. unfold sliceLast2.
  replace (length xs - 2) with 0 by lia. reflexivity.
Qed.

Lemma lastTwo_app :
  forall pre p l, lastTwo (pre ++ [p; l]) = Some (p, l).
Proof.
  intros pre p l. unfold lastTwo. rewrite rev_app_distr. reflexivity.
Qed.

Lemma lastTwo_short :
  forall xs, length xs < 2 -> lastTwo xs = None.
Proof.
  intros [| a [| b xs]] H; simpl in H; try lia; reflexivity.
Qed.

(** On swings of one kind the comparison helpers do not throw. *)
Lemma compareLastTwo_highs :
  forall xs,
    Forall (fun s => isType HIGH s = true) xs ->
    compareLastTwo (sliceLast2 xs) isHigherHigh isLowerHigh =
      Ok match lastTwo xs with
         | Some (previous, latest) =>
             (Some (gt (sp_price latest) (sp_price previous)),
              Some (lt (sp_price latest) (sp_price previous)))
         | None => (None, None)
         end.
Proof.
  intros xs Hall.
  destruct (last_two_cases _ xs) as [Hshort | (pre & p & l & ->)].
  - rewrite sliceLast2_short, lastTwo_short by exact Hshort.
    unfold compareLastTwo.
    replace (2 <=? length xs) with false
      by (symmetry; apply Nat.leb_gt; exact Hshort).
    reflexivity.
  - rewrite sliceLast2_app, lastTwo_app.
    apply Forall_app in Hall. destruct Hall as [_ Hall].
    inversion Hall as [| ? ? Hp Hall']; subst.
    inversion Hall' as [| ? ? Hl _]; subst.
    unfold compareLastTwo, isHigherHigh, isLowerHigh. simpl.
    rewrite Hp, Hl. reflexivity.
Qed.

Lemma compareLastTwo_lows :
  forall xs,
    Forall (fun s => isType LOW s = true) xs ->
    compareLastTwo (sliceLast2 xs) isHigherLow isLowerLow =
      Ok match lastTwo xs with
         | Some (previous, latest) =>
             (Some (gt (sp_price latest) (sp_price previous)),
              Some (lt (sp_price latest) (sp_price previous)))
         | None => (None, None)
         end.
Proof.
  intros xs Hall.
  destruct (last_two_cases _ xs) as [Hshort | (pre & p & l & ->)].
  - rewrite sliceLast2_short, lastTwo_short by exact Hshort.
    unfold compareLastTwo.
    replace (2 <=? length xs) with false
      by (symmetry; apply Nat.leb_gt; exact Hshort).
    reflexivity.
  - rewrite sliceLast2_app, lastTwo_app.
    apply Forall_app in Hall. destruct Hall as [_ Hall].
    inversion Hall as [| ? ? Hp Hall']; subst.
    inversion Hall' as [| ? ? Hl _]; subst.
    unfold compareLastTwo, isHigherLow, isLowerLow. simpl.
    rewrite Hp, Hl. reflexivity.
Qed.

Lemma filter_isType :
  forall kind swings,
    Forall (fun s => isType kind s = true) (filter (isType kind) swings).
Proof.
  intros kind swings. apply Forall_forall. intros s Hs.
  apply filter_In in Hs. tauto.
Qed.

(** The trend in terms of the swing points found. *)
Lemma classifyTrend_of_swings :
  forall candles lookback,
    classifyTrend candles lookback =
    let swings := swingPointsOf candles lookback in
    Ok (if negb (MIN_SWING_POINTS <=? length swings) then RANGING
        else
          match lastTwo (filter (isType HIGH) swings),
                lastTwo (filter (isType LOW) swings) with
          | Some (ph, lh), Some (pl, ll) =>
              if gt (sp_price lh) (sp_price ph)
                 && gt (sp_price ll) (sp_price pl) then UP
              else if lt (sp_price lh) (sp_price ph)
                      && lt (sp_price ll) (sp_price pl) then DOWN
              else RANGING
          | _, _ => RANGING
          end).
Proof.
  intros candles lookback.
  unfold classifyTrend, hasEnoughSwingPoints, getSwingRelationships.
  rewrite findSwingPoints_swingPointsOf. cbn [bind].
  cbv zeta.
  destruct (negb (MIN_SWING_POINTS <=? length (swingPointsOf candles lookback)));
    [reflexivity |].
  rewrite (compareLastTwo_highs _ (filter_isType HIGH _)).
  rewrite (compareLastTwo_lows _ (filter_isType LOW _)).
  destruct (lastTwo (filter (isType HIGH) (swingPointsOf candles lookback)))
    as [[ph lh] |];
    destruct (lastTwo (filter (isType LOW) (swingPointsOf candles lookback)))
      as [[pl ll] |]; cbn [bind hasHigherHigh hasHigherLow hasLowerHigh
                           hasLowerLow isTrue]; try reflexivity.
  - destruct (gt (sp_price lh) (sp_price ph)), (gt (sp_price ll) (sp_price pl)),
      (lt (sp_price lh) (sp_price ph)), (lt (sp_price ll) (sp_price pl));
      reflexivity.
  - destruct (gt (sp_price lh) (sp_price ph)), (lt (sp_price lh) (sp_price ph));
      reflexivity.
Qed.

Lemma risingSwings_iff :
  forall kind swings p l,
    lastTwo (filter (isType kind) swings) = Some (p, l) ->
    (risingSwings kind swings <-> gt (sp_price l) (sp_price p) = true).
Proof.
  intros kind swings p l H. unfold risingSwings. split.
  - intros (p' & l' & H' & Hgt). rewrite H in H'. injection H' as <- <-.
    exact Hgt.
  - intros Hgt. exists p, l. split; assumption.
Qed.

Lemma fallingSwings_iff :
  forall kind swings p l,
    lastTwo (filter (isType kind) swings) = Some (p, l) ->
    (fallingSwings kind swings <-> lt (sp_price l) (sp_price p) = true).
Proof.
  intros kind swings p l H. unfold fallingSwings. split.
  - intros (p' & l' & H' & Hlt). rewrite H in H'. injection H' as <- <-.
    exact Hlt.
  - intros Hlt. exists p, l. split; assumption.
Qed.

Lemma no_pair_no_trend :
  forall kind swings,
    lastTwo (filter (isType kind) swings) = None ->
    ~ risingSwings kind swings /\ ~ fallingSwings kind swings.
Proof.
  intros kind swings H.
  split; intros (p & l & H' & _); rewrite H in H'; discriminate.
Qed.

(** C8. [classifyTrend] never throws.  It returns RANGING when fewer than
    [MIN_SWING_POINTS] (4) swing points are found; otherwise UP iff the
    latest swing high is strictly greater than the previous swing high
    and the latest swing low strictly greater than the previous swing
    low, DOWN iff both are strictly lower, and RANGING in every other
    case (fewer than two highs or two lows, equal swings, mixed
    signals). *)
Theorem classifyTrend_by_swings :
  forall (candles : list Candle) (lookback : nat),
    exists swings trend,
      findSwingPoints candles lookback = Ok swings
      /\ classifyTrend candles lookback = Ok trend
      /\ MIN_SWING_POINTS = 4
      /\ (length swings < MIN_SWING_POINTS -> trend = RANGING)
      /\ (MIN_SWING_POINTS <= length swings ->
            (trend = UP <->
               risingSwings HIGH swings /\ risingSwings LOW swings)
            /\ (trend = DOWN <->
                  fallingSwings HIGH swings /\ fallingSwings LOW swings)
            /\ (trend = RANGING <->
                  ~ (risingSwings HIGH swings /\ risingSwings LOW swings)
                  /\ ~ (fallingSwings HIGH swings
                        /\ fallingSwings LOW swings))).
Proof.
  intros candles lookback.
  exists (swingPointsOf candles lookback).
  rewrite classifyTrend_of_swings. cbv zeta.
  set (swings := swingPointsOf candles lookback).
  eexists. split; [apply findSwingPoints_swingPointsOf |].
  split; [reflexivity |]. split; [reflexivity |].
  destruct (MIN_SWING_POINTS <=? length swings) eqn:Hn; cbn [negb].
  2: { apply Nat.leb_gt in Hn. split; [reflexivity | lia]. }
  apply Nat.leb_le in Hn. split; [lia |]. intros _.
  destruct (lastTwo (filter (isType HIGH) swings)) as [[ph lh] |] eqn:Hh.
  2: { destruct (no_pair_no_trend HIGH swings Hh) as [Hr Hf].
       repeat split; intros; try discriminate; tauto. }
  destruct (lastTwo (filter (isType LOW) swings)) as [[pl ll] |] eqn:Hl.
  2: { destruct (no_pair_no_trend LOW swings Hl) as [Hr Hf].
       repeat split; intros; try discriminate; tauto. }
  pose proof (risingSwings_iff HIGH swings ph lh Hh) as RH.
  pose proof (risingSwings_iff LOW swings pl ll Hl) as RL.
  pose proof (fallingSwings_iff HIGH swings ph lh Hh) as FH.
  pose proof (fallingSwings_iff LOW swings pl ll Hl) as FL.
  pose proof (lt_gt_exclusive (sp_price lh) (sp_price ph)) as XH.
  pose proof (lt_gt_exclusive (sp_price ll) (sp_price pl)) as XL.
  destruct (gt (sp_price lh) (sp_price ph)) eqn:G1;
    destruct (gt (sp_price ll) (sp_price pl)) eqn:G2;
    destruct (lt (sp_price lh) (sp_price ph)) eqn:L1;
    destruct (lt (sp_price ll) (sp_price pl)) eqn:L2;
    cbn [andb];
    try (specialize (XH eq_refl); discriminate);
    try (specialize (XL eq_refl); discriminate);
    repeat split; intros; try discriminate; try tauto;
    intuition discriminate.
Qed.

(** ** Setup calculator *)

Lemma lastOrNull_app :
  forall (A : Type) (pre : list A) (a : A), lastOrNull (pre ++ [a]) = Some a.
Proof.
  intros A pre a. unfold lastOrNull. rewrite length_app. simpl.
  replace (0 <? length pre + 1) with true
    by (symmetry; apply Nat.ltb_lt; lia).
  replace (length pre + 1 - 1) with (length pre) by lia.
  rewrite nth_error_app2 by lia.
  replace (length pre - length pre) with 0 by lia. reflexivity.
Qed.

Lemma lastOrNull_cases :
  forall (A : Type) (xs : list A),
    (xs = [] /\ lastOrNull xs = None)
    \/ (exists pre a, xs = pre ++ [a] /\ lastOrNull xs = Some a).
Proof.
  intros A xs. destruct xs as [| a pre _] using rev_ind.
  - left. split; reflexivity.
  - right. exists pre, a. split; [reflexivity | apply lastOrNull_app].
Qed.

Lemma getStructureForSL_anchor :
  forall candles direction lookback,
    getStructureForSL candles direction lookback =
    Ok (lastOrNull (filter (isType (anchorKind direction))
                      (swingPointsOf candles lookback))).
Proof.
  intros candles [] lookback; unfold getStructureForSL,
    getMostRecentSwingLow, getMostRecentSwingHigh, findSwingLows,
    findSwingHighs; rewrite findSwingPoints_swingPointsOf; reflexivity.
Qed.

Lemma calculateTradeSetup_setupFrom :
  forall direction entryZone candles pair,
    calculateTradeSetup direction entryZone candles pair =
    Ok (option_map (setupFrom direction entryZone pair)
          (lastOrNull (filter (isType (anchorKind direction))
                         (swingPointsOf candles SWING_LOOKBACK)))).
Proof.
  intros direction entryZone candles pair. unfold calculateTradeSetup.
  rewrite getStructureForSL_anchor. cbn [bind].
  destruct (lastOrNull _) as [anchor |]; [| reflexivity].
  destruct direction; reflexivity.
Qed.

(** C4, as stated, fails on its last part.  USD/JPY, swing low 127.60,
    buffer 0.02, entry 127.80: the stop is 127.58, the risk
    0.21999999999999886 and the target 128.01999999999998, whose distance
    to the entry is 0.21999999999998465: the sum [entry + risk] crosses
    128, where the spacing of binary64 doubles, and is rounded. *)
Lemma calculateTradeSetup_reward_differs_from_risk :
  exists setup,
    calculateTradeSetup BUY (dec 12780 2) yenCandles USD_JPY = Ok (Some setup)
    /\ ts_stopLoss setup = sub (dec 12760 2) (dec 2 2)
    /\ SFeqb (abs (sub (ts_takeProfit setup) (ts_entryZone setup)))
             (abs (sub (ts_entryZone setup) (ts_stopLoss setup))) = false
    /\ abs (sub (ts_takeProfit setup) (ts_entryZone setup))
       <> abs (sub (ts_entryZone setup) (ts_stopLoss setup)).
Proof.
  eexists. split; [vm_compute; reflexivity |].
  split; [vm_compute; reflexivity |].
  split; [vm_compute; reflexivity |].
  vm_compute. discriminate.
Qed.

(** C4, amended.  [calculateTradeSetup] never throws; it returns null iff
    the candle list has no swing of the anchoring kind (no swing LOW for
    a BUY, no swing HIGH for a SELL), and otherwise anchors on the most
    recent one: the stop is the anchor price minus the pair's buffer for
    a BUY and plus it for a SELL, the risk is the distance from entry to
    stop, and the target is the entry plus the risk for a BUY and minus
    it for a SELL, each operation being a binary64 operation.  (That the
    target and the stop are at exactly the same distance from the entry
    is not part of the statement.) *)
Theorem calculateTradeSetup_levels :
  forall (direction : Direction) (entryZone : number)
         (candles : list Candle) (pair : Pair),
    exists swings result,
      findSwingPoints candles SWING_LOOKBACK = Ok swings
      /\ calculateTradeSetup direction entryZone candles pair = Ok result
      /\ (result = None <->
            filter (isType (anchorKind direction)) swings = [])
      /\ (forall setup, result = Some setup ->
            exists earlier anchor,
              filter (isType (anchorKind direction)) swings
                = earlier ++ [anchor]
              /\ ts_structurePoint setup = anchor
              /\ ts_direction setup = direction
              /\ ts_entryZone setup = entryZone
              /\ match direction with
                 | BUY =>
                     ts_stopLoss setup
                       = sub (sp_price anchor) (getSLBuffer pair)
                     /\ ts_takeProfit setup
                        = add entryZone (sub entryZone (ts_stopLoss setup))
                     /\ ts_riskPips setup
                        = mul (sub entryZone (ts_stopLoss setup))
                              (getPipMultiplier pair)
                 | SELL =>
                     ts_stopLoss setup
                       = add (sp_price anchor) (getSLBuffer pair)
                     /\ ts_takeProfit setup
                        = sub entryZone (sub (ts_stopLoss setup) entryZone)
                     /\ ts_riskPips setup
                        = mul (sub (ts_stopLoss setup) entryZone)
                              (getPipMultiplier pair)
                 end).
Proof.
  intros direction entryZone candles pair.
  exists (swingPointsOf candles SWING_LOOKBACK).
  rewrite calculateTradeSetup_setupFrom.
  eexists. split; [apply findSwingPoints_swingPointsOf |].
  split; [reflexivity |].
  destruct (lastOrNull_cases _
              (filter (isType (anchorKind direction))
                 (swingPointsOf candles SWING_LOOKBACK)))
    as [[Hnil Hnone] | (pre & a & Happ & Hsome)].
  - rewrite Hnone, Hnil. simpl. split; [tauto |].
    intros setup H. discriminate.
  - rewrite Hsome, Happ. simpl. split.
    + split; [discriminate |]. intros H. destruct pre; discriminate.
    + intros setup H. injection H as <-. exists pre, a.
      split; [reflexivity |].
      destruct direction; simpl; repeat split.
Qed.

Lemma getSLBuffer_finite :
  forall pair : Pair, is_finite (getSLBuffer pair) = true.
Proof. intros []; vm_compute; reflexivity. Qed.

Lemma is_finite_not_nan :
  forall a : number, is_finite a = true -> is_nan a = false.
Proof. intros [| | |] H; try discriminate; reflexivity. Qed.

(** A swing point carries the high or the low of a candle of the list. *)
Lemma swing_price_finite :
  forall candles lookback s,
    Forall finiteCandle candles ->
    In s (swingPointsOf candles lookback) ->
    is_finite (sp_price s) = true.
Proof.
  intros candles lookback s Hfin Hs. unfold swingPointsOf in Hs.
  apply in_flat_map in Hs. destruct Hs as (i & _ & Hs).
  destruct (swingsAt_inv _ _ _ _ Hs) as (current & Hc & _ & _ & Hty).
  rewrite Forall_forall in Hfin.
  destruct (Hfin _ (nth_error_In _ _ Hc)) as [Hh Hl].
  destruct (sp_type s); destruct Hty as [-> _]; assumption.
Qed.

(** From finite prices the three levels of a setup come out as numbers
    (possibly infinite), never NaN. *)
Lemma setupFrom_not_nan :
  forall direction entryZone pair anchor,
    is_finite entryZone = true ->
    is_finite (sp_price anchor) = true ->
    let setup := setupFrom direction entryZone pair anchor in
    is_nan (ts_entryZone setup) = false
    /\ is_nan (ts_stopLoss setup) = false
    /\ is_nan (ts_takeProfit setup) = false.
Proof.
  intros direction entryZone pair anchor He Ha.
  pose proof (is_finite_not_nan _ (getSLBuffer_finite pair)) as Hb.
  pose proof (is_finite_not_nan _ He) as Hen.
  destruct direction; simpl.
  - assert (Hs : is_nan (sub (sp_price anchor) (getSLBuffer pair)) = false)
      by (apply sub_not_nan; assumption).
    repeat split; try assumption.
    apply add_not_nan; [exact He |]. apply sub_not_nan; assumption.
  - assert (Hs : is_nan (add (sp_price anchor) (getSLBuffer pair)) = false)
      by (apply add_not_nan; assumption).
    repeat split; try assumption.
    apply sub_not_nan; [exact He |]. apply sub_not_nan_r; assumption.
Qed.

(** C3, as stated, fails when the entry lies beyond the structure stop.
    USD/JPY, swing low 127.60, buffer 0.02, entry 127.50 (a signal candle
    whose low is under the last swing low): the stop 127.58 is above the
    entry. *)
Lemma calculateTradeSetup_stop_above_entry :
  exists setup,
    calculateTradeSetup BUY (dec 12750 2) yenCandles USD_JPY = Ok (Some setup)
    /\ ts_direction setup = BUY
    /\ lt (ts_stopLoss setup) (ts_entryZone setup) = false
    /\ gt (ts_stopLoss setup) (ts_entryZone setup) = true
    /\ ~ (lt (ts_stopLoss setup) (ts_entryZone setup) = true
          /\ lt (ts_entryZone setup) (ts_takeProfit setup) = true).
Proof.
  eexists. split; [vm_compute; reflexivity |].
  split; [reflexivity |].
  split; [vm_compute; reflexivity |].
  split; [vm_compute; reflexivity |].
  intros [H _]. vm_compute in H. discriminate.
Qed.

(** With the entry strictly beyond the stop, the target can still equal
    the entry: the risk is then lost when it is added to the entry.
    XAU/USD, swing low 2048.20, buffer 0.20, entry 2048.00: the stop
    2048.20 - 0.20 is rounded to the double just below 2048, the risk is
    half the spacing of the doubles above 2048, and the target
    2048 + risk is rounded back to 2048. *)
Example calculateTradeSetup_target_equals_entry :
  exists setup,
    calculateTradeSetup BUY (dec 204800 2) goldCandles XAU_USD
      = Ok (Some setup)
    /\ lt (ts_stopLoss setup) (ts_entryZone setup) = true
    /\ SFeqb (ts_entryZone setup) (ts_takeProfit setup) = true
    /\ lt (ts_entryZone setup) (ts_takeProfit setup) = false.
Proof.
  eexists. split; [vm_compute; reflexivity |].
  repeat split; vm_compute; reflexivity.
Qed.

Lemma getSLBuffer_double :
  forall pair : Pair, isDouble (getSLBuffer pair) = true.
Proof. intros []; vm_compute; reflexivity. Qed.

(** A swing point carries the high or the low of a candle of the list. *)
Lemma swing_price_double :
  forall candles lookback s,
    Forall doubleCandle candles ->
    In s (swingPointsOf candles lookback) ->
    isDouble (sp_price s) = true.
Proof.
  intros candles lookback s Hd Hs. unfold swingPointsOf in Hs.
  apply in_flat_map in Hs. destruct Hs as (i & _ & Hs).
  destruct (swingsAt_inv _ _ _ _ Hs) as (current & Hc & _ & _ & Hty).
  rewrite Forall_forall in Hd.
  destruct (Hd _ (nth_error_In _ _ Hc)) as [Hh Hl].
  destruct (sp_type s); destruct Hty as [-> _]; assumption.
Qed.

(** The levels derived from an anchor: with the entry strictly on the
    profit side of the stop, the target is not on the other side of the
    entry. *)
Lemma setupFrom_target_side :
  forall direction entryZone pair anchor,
    isDouble entryZone = true ->
    isDouble (sp_price anchor) = true ->
    let setup := setupFrom direction entryZone pair anchor in
    match direction with
    | BUY => lt (ts_stopLoss setup) entryZone = true ->
             le entryZone (ts_takeProfit setup) = true
    | SELL => lt entryZone (ts_stopLoss setup) = true ->
              le (ts_takeProfit setup) entryZone = true
    end.
Proof.
  intros direction entryZone pair anchor He Ha.
  pose proof (getSLBuffer_double pair) as Hb.
  destruct (add_sub_valid _ _ Ha Hb) as [Hadd Hsub].
  destruct direction; cbn [setupFrom ts_stopLoss ts_takeProfit]; intros Hlt.
  - destruct (lt_not_nan _ _ Hlt) as [_ Hn].
    destruct (lt_bounds _ _ Hlt) as [_ Hi].
    apply add_positive_le; try assumption.
    apply sub_of_lt_positive; assumption.
  - destruct (lt_not_nan _ _ Hlt) as [Hn _].
    destruct (lt_bounds _ _ Hlt) as [Hi _].
    apply sub_positive_le; try assumption.
    apply sub_of_lt_positive; assumption.
Qed.

Lemma lt_iff_le_not_eq :
  forall a b : number,
    le a b = true -> (lt a b = true <-> SFeqb a b = false).
Proof.
  intros a b H. unfold le, lt, SFleb, SFltb, SFeqb in *.
  destruct (SFcompare a b) as [[| |] |]; try discriminate;
    split; intros; try reflexivity; discriminate.
Qed.

(** C3, amended.  [calculateTradeSetup] places the stop beyond the
    anchor and does not compare it with the entry.  For prices that are
    binary64 numbers: when the entry of a BUY lies strictly above the
    stop, [stopLoss < entryZone <= takeProfit], and when the entry of a
    SELL lies strictly below the stop,
    [takeProfit <= entryZone < stopLoss].  The returned setup has the
    strict ordering ([stopLoss < entryZone < takeProfit] for a BUY,
    [takeProfit < entryZone < stopLoss] for a SELL) exactly when the
    entry lies strictly on the profit side of the stop and the target is
    not equal to the entry. *)
Theorem calculateTradeSetup_ordering :
  forall (direction : Direction) (entryZone : number)
         (candles : list Candle) (pair : Pair) (setup : TradeSetup),
    Forall doubleCandle candles ->
    isDouble entryZone = true ->
    calculateTradeSetup direction entryZone candles pair = Ok (Some setup) ->
    ts_direction setup = direction
    /\ ts_entryZone setup = entryZone
    /\ match direction with
       | BUY =>
           ts_stopLoss setup
           = sub (sp_price (ts_structurePoint setup)) (getSLBuffer pair)
           /\ (lt (ts_stopLoss setup) (ts_entryZone setup) = true ->
               le (ts_entryZone setup) (ts_takeProfit setup) = true)
           /\ (entryBetween setup = true <->
               lt (ts_stopLoss setup) (ts_entryZone setup) = true
               /\ SFeqb (ts_entryZone setup) (ts_takeProfit setup) = false)
       | SELL =>
           ts_stopLoss setup
           = add (sp_price (ts_structurePoint setup)) (getSLBuffer pair)
           /\ (lt (ts_entryZone setup) (ts_stopLoss setup) = true ->
               le (ts_takeProfit setup) (ts_entryZone setup) = true)
           /\ (entryBetween setup = true <->
               lt (ts_entryZone setup) (ts_stopLoss setup) = true
               /\ SFeqb (ts_takeProfit setup) (ts_entryZone setup) = false)
       end.
Proof.
  intros direction entryZone candles pair setup Hd He Hcalc.
  rewrite calculateTradeSetup_setupFrom in Hcalc.
  destruct (lastOrNull_cases _
              (filter (isType (anchorKind direction))
                 (swingPointsOf candles SWING_LOOKBACK)))
    as [[_ Hnone] | (pre & a & Happ & Hsome)].
  { rewrite Hnone in Hcalc. discriminate. }
  rewrite Hsome in Hcalc. simpl in Hcalc. injection Hcalc as <-.
  assert (Ha : isDouble (sp_price a) = true).
  { apply (swing_price_double candles SWING_LOOKBACK a Hd).
    assert (Hin : In a (filter (isType (anchorKind direction))
                          (swingPointsOf candles SWING_LOOKBACK))).
    { rewrite Happ. apply in_or_app. right. now left. }
    apply filter_In in Hin. tauto. }
  pose proof (setupFrom_target_side direction entryZone pair a He Ha) as Hside.
  cbv zeta in Hside.
  destruct direction;
    cbn [setupFrom ts_direction ts_entryZone ts_stopLoss ts_takeProfit
         ts_structurePoint entryBetween] in *;
    (split; [reflexivity |]); (split; [reflexivity |]);
    (split; [reflexivity |]); (split; [exact Hside |]);
    rewrite andb_true_iff; split; intros [H1 H2].
  - split; [exact H1 |].
    apply (lt_iff_le_not_eq _ _ (Hside H1)). exact H2.
  - split; [exact H1 |].
    apply (lt_iff_le_not_eq _ _ (Hside H1)). exact H2.
  - split; [exact H2 |].
    apply (lt_iff_le_not_eq _ _ (Hside H2)). exact H1.
  - split; [| exact H1].
    apply (lt_iff_le_not_eq _ _ (Hside H1)). exact H2.
Qed.

(** The amended C3 at the USD/JPY candles with an entry of 127.80, above
    the stop of 127.58: the target is not below the entry. *)
Lemma calculateTradeSetup_ordering_witness :
  Forall doubleCandle yenCandles
  /\ isDouble (dec 12780 2) = true
  /\ exists setup,
       calculateTradeSetup BUY (dec 12780 2) yenCandles USD_JPY
       = Ok (Some setup)
       /\ lt (ts_stopLoss setup) (ts_entryZone setup) = true
       /\ le (ts_entryZone setup) (ts_takeProfit setup) = true.
Proof.
  assert (Hd : Forall doubleCandle yenCandles).
  { repeat constructor. }
  assert (Hcalc : calculateTradeSetup BUY (dec 12780 2) yenCandles USD_JPY
                  = Ok (Some (setupFrom BUY (dec 12780 2) USD_JPY
                                {| sp_index := 3; sp_time := "t3";
                                   sp_price := dec 12760 2;
                                   sp_type := LOW |}))).
  { vm_compute. reflexivity. }
  split; [exact Hd |]. split; [reflexivity |].
  eexists. split; [exact Hcalc |].
  assert (Hlt : lt (ts_stopLoss (setupFrom BUY (dec 12780 2) USD_JPY
                                   {| sp_index := 3; sp_time := "t3";
                                      sp_price := dec 12760 2;
                                      sp_type := LOW |}))
                   (ts_entryZone (setupFrom BUY (dec 12780 2) USD_JPY
                                    {| sp_index := 3; sp_time := "t3";
                                       sp_price := dec 12760 2;
                                       sp_type := LOW |})) = true).
  { vm_compute. reflexivity. }
  split; [exact Hlt |].
  exact (proj1 (proj2 (proj2 (proj2
           (calculateTradeSetup_ordering BUY (dec 12780 2) yenCandles
              USD_JPY _ Hd eq_refl Hcalc)))) Hlt).
Defined.

(** ** Signal manager *)

(** C6 does not hold of the in-memory manager.  [processNewCandle]
    deletes a setup from [activeSetups] when it is TRIGGERED and when it
    is EXPIRED, and [hasExistingSetup] looks at [activeSetups] only: once
    the setup of a signal candle is closed, the same (pair,
    signalCandleTime) is no longer seen as a duplicate, and [addSetup]
    stores a second setup for it. *)
Theorem hasExistingSetup_forgets_closed_setups :
  let m0 := addSetup newSignalManager (waitingSetup "setup-1" 0) in
  let '(triggered, m1, _) :=
    processNewCandle exampleIds exampleClock m0 0 USD_JPY M15
      retracingCandle in
  let m0' := addSetup newSignalManager (waitingSetup "setup-1" 9) in
  let '(expired, m1', _) :=
    processNewCandle exampleIds exampleClock m0' 0 USD_JPY M15
      driftingCandle in
  hasExistingSetup m0 USD_JPY signalTime = true
  /\ length (pr_triggered triggered) = 1
  /\ getActiveSetups m1 = []
  /\ hasExistingSetup m1 USD_JPY signalTime = false
  /\ getActiveSetups (addSetup m1 (waitingSetup "setup-2" 0))
     = [waitingSetup "setup-2" 0]
  /\ pr_expired expired = [advanced EXPIRED (waitingSetup "setup-1" 9)]
  /\ expiredSetups m1' = [advanced EXPIRED (waitingSetup "setup-1" 9)]
  /\ hasExistingSetup m1' USD_JPY signalTime = false.
Proof. vm_compute. repeat split. Qed.

Lemma Timeframe_beq_refl : forall t : Timeframe, Timeframe_beq t t = true.
Proof. intros []; reflexivity. Qed.

(** The same for any setup and any candle that closes it: a manager that
    holds one WAITING setup holds none after the candle, whatever the
    identifiers and the clock, so the signal candle of the closed setup
    is not recognised any more. *)
Lemma processNewCandle_drops_closed_setup :
  forall (generateId nowISOString : nat -> string) (tick : nat)
         (pair : Pair) (s : ActiveSetup) (c : Candle),
    as_pair s = pairName pair ->
    as_status s = WAITING ->
    nextStatus c s <> WAITING ->
    let '(_, m1, _) :=
      processNewCandle generateId nowISOString
        (addSetup newSignalManager s) tick pair (as_timeframe s) c in
    getActiveSetups m1 = []
    /\ hasExistingSetup m1 pair (as_signalCandleTime s) = false.
Proof.
  intros generateId nowISOString tick pair s c Hp Hw Hnext.
  unfold processNewCandle.
  assert (Hrel :
    filter (fun s0 => String.eqb (as_pair s0) (pairName pair)
                      && Timeframe_beq (as_timeframe s0) (as_timeframe s)
                      && SetupStatus_beq (as_status s0) WAITING)
      (getActiveSetups (addSetup newSignalManager s)) = [s]).
  { cbn. rewrite Hp, String.eqb_refl, Timeframe_beq_refl, Hw. reflexivity. }
  rewrite Hrel, monitorSetups_movedTo. unfold movedTo.
  cbn [filter mr_triggered mr_expired mr_stillActive].
  unfold isWaiting. rewrite Hw. cbn [SetupStatus_beq filter].
  destruct (nextStatus c s); try congruence;
    cbn; rewrite !String.eqb_refl; cbn; rewrite ?String.eqb_refl; cbn;
    split; reflexivity.
Qed.

(* ===================================================================== *)
(** * Further properties *)
(* ===================================================================== *)

(** ** Retracement helpers *)

Lemma three_way_split :
  forall (A : Type) (f : A -> SetupStatus) (l : list A),
    length (filter (fun x => SetupStatus_beq (f x) TRIGGERED) l)
    + length (filter (fun x => SetupStatus_beq (f x) EXPIRED) l)
    + length (filter (fun x => SetupStatus_beq (f x) WAITING) l)
    = length l.
Proof.
  intros A f l. induction l as [| x l IH]; [reflexivity |].
  simpl. destruct (f x); simpl; lia.
Qed.

Lemma movedTo_inv :
  forall st c setups x,
    In x (movedTo st c setups) ->
    exists s, In s setups /\ as_status s = WAITING
              /\ nextStatus c s = st /\ x = advanced st s.
Proof.
  intros st c setups x H. unfold movedTo in H.
  apply in_map_iff in H. destruct H as (s & <- & H).
  apply filter_In in H. destruct H as [H Hst].
  apply filter_In in H. destruct H as [Hin Hw].
  exists s. unfold isWaiting in Hw.
  repeat split; try assumption.
  - destruct (as_status s); try discriminate; reflexivity.
  - destruct (nextStatus c s), st; try discriminate; reflexivity.
Qed.

(** X1. [monitorSetups] neither loses nor duplicates a setup: the three
    lists it returns have together as many entries as there are WAITING
    setups in its input; what it returns as still active is WAITING with
    fewer than 10 candles elapsed (valid for [isSetupValid]), what it
    returns as triggered or expired is not valid any more, and an expired
    setup has at least 10 candles elapsed. *)
Theorem monitorSetups_partition :
  forall (setups : list ActiveSetup) (c : Candle),
    let r := monitorSetups setups c in
    length (mr_triggered r) + length (mr_expired r)
      + length (mr_stillActive r)
    = length (filter isWaiting setups)
    /\ Forall (fun s => isSetupValid s = true) (mr_stillActive r)
    /\ Forall (fun s => as_status s = TRIGGERED /\ isSetupValid s = false)
         (mr_triggered r)
    /\ Forall (fun s => as_status s = EXPIRED
                        /\ MAX_CANDLES_FOR_ENTRY <= as_candlesElapsed s
                        /\ isSetupValid s = false)
         (mr_expired r).
Proof.
  intros setups c r. unfold r. rewrite monitorSetups_movedTo. simpl.
  split.
  { unfold movedTo. rewrite !length_map. apply three_way_split. }
  assert (Hcases : forall st x,
            In x (movedTo st c setups) ->
            exists s, x = advanced st s
                      /\ (st = WAITING ->
                            (MAX_CANDLES_FOR_ENTRY <=? as_candlesElapsed s + 1)
                            = false)
                      /\ (st = EXPIRED ->
                            MAX_CANDLES_FOR_ENTRY <= as_candlesElapsed s + 1)).
  { intros st x Hx. apply movedTo_inv in Hx.
    destruct Hx as (s & _ & _ & Hn & ->). exists s.
    split; [reflexivity |]. unfold nextStatus in Hn.
    destruct (setupTriggers c s);
      [split; intros ->; discriminate |].
    destruct (MAX_CANDLES_FOR_ENTRY <=? as_candlesElapsed s + 1) eqn:E.
    - apply Nat.leb_le in E. split; intros ->; [discriminate | exact E].
    - split; intros ->; [reflexivity | discriminate]. }
  split; [| split]; apply Forall_forall; intros x Hx;
    destruct (Hcases _ _ Hx) as (s & -> & Hw & He);
    unfold isSetupValid, advanced, isSetupExpired;
    cbn [as_status as_candlesElapsed withProgress SetupStatus_beq andb].
  - rewrite (Hw eq_refl). reflexivity.
  - split; reflexivity.
  - repeat split. exact (He eq_refl).
Qed.

Lemma getRemainingCandles_sub :
  forall ce, getRemainingCandles ce = MAX_CANDLES_FOR_ENTRY - ce.
Proof. intros ce. unfold getRemainingCandles. lia. Qed.

Lemma formatCountdown_before_expiry :
  forall ce, ce < MAX_CANDLES_FOR_ENTRY ->
             formatCountdown ce <> "EXPIRED"%string.
Proof.
  intros ce H. unfold MAX_CANDLES_FOR_ENTRY in H.
  do 10 (destruct ce as [| ce]; [vm_compute; discriminate |]).
  lia.
Qed.

(** X2. The countdown helpers agree with [isSetupExpired]: no candle
    remains iff the setup is expired, before that the remaining and the
    elapsed candles add up to 10, and the countdown text is "EXPIRED" iff
    the setup is expired.  In candles elapsed the urgency is LOW up to 3,
    MEDIUM from 4 to 6, HIGH at 7 and 8, CRITICAL from 9 on, so that an
    expired setup is always CRITICAL. *)
Theorem countdown_agrees_with_expiry :
  forall ce : nat,
    (getRemainingCandles ce = 0 <-> isSetupExpired ce = true)
    /\ (isSetupExpired ce = false ->
          getRemainingCandles ce + ce = MAX_CANDLES_FOR_ENTRY)
    /\ (formatCountdown ce = "EXPIRED"%string <-> isSetupExpired ce = true)
    /\ (getUrgencyLevel ce = URGENCY_LOW <-> ce <= 3)
    /\ (getUrgencyLevel ce = URGENCY_MEDIUM <-> 4 <= ce <= 6)
    /\ (getUrgencyLevel ce = URGENCY_HIGH <-> 7 <= ce <= 8)
    /\ (getUrgencyLevel ce = URGENCY_CRITICAL <-> 9 <= ce)
    /\ (isSetupExpired ce = true -> getUrgencyLevel ce = URGENCY_CRITICAL).
Proof.
  intros ce.
  pose proof (getRemainingCandles_sub ce) as Hr.
  unfold isSetupExpired.
  destruct (MAX_CANDLES_FOR_ENTRY <=? ce) eqn:E;
    [apply Nat.leb_le in E | apply Nat.leb_gt in E];
    unfold MAX_CANDLES_FOR_ENTRY in *.
  - assert (H0 : getRemainingCandles ce = 0) by lia.
    unfold getUrgencyLevel, formatCountdown. rewrite H0. simpl.
    repeat split; intros; try reflexivity; try discriminate; try lia.
  - split; [split; intros; [lia | discriminate] |].
    split; [intros _; lia |].
    split.
    { split; [| discriminate]. intros H.
      exfalso. exact (formatCountdown_before_expiry ce E H). }
    unfold getUrgencyLevel. rewrite Hr.
    destruct (7 <=? 10 - ce) eqn:E7;
      [apply Nat.leb_le in E7 | apply Nat.leb_gt in E7];
      [repeat split; intros; try reflexivity; try discriminate; lia |].
    destruct (4 <=? 10 - ce) eqn:E4;
      [apply Nat.leb_le in E4 | apply Nat.leb_gt in E4];
      [repeat split; intros; try reflexivity; try discriminate; lia |].
    destruct (2 <=? 10 - ce) eqn:E2;
      [apply Nat.leb_le in E2 | apply Nat.leb_gt in E2];
      repeat split; intros; try reflexivity; try discriminate; lia.
Qed.

Lemma findTrigger_cases :
  forall d e cs i,
    (findTrigger d e cs i = None
     /\ forall c, In c cs -> fills d e c = false)
    \/ (exists k c,
          nth_error cs k = Some c
          /\ fills d e c = true
          /\ (forall j c', j < k -> nth_error cs j = Some c' ->
                           fills d e c' = false)
          /\ findTrigger d e cs i =
             Some {| rc_triggered := true; rc_entryPrice := Some e;
                     rc_triggerCandle := Some c;
                     rc_candlesElapsed := i + k + 1 |}).
Proof.
  intros d e cs i.
  assert (Hdec : (forall c, In c cs -> fills d e c = false)
                 \/ exists k c, nth_error cs k = Some c
                                /\ fills d e c = true
                                /\ forall j c', j < k ->
                                     nth_error cs j = Some c' ->
                                     fills d e c' = false).
  { clear i. induction cs as [| c0 rest IH].
    - left. intros c [].
    - destruct (fills d e c0) eqn:E0.
      + right. exists 0, c0. repeat split; try assumption. intros j c' Hj. lia.
      + destruct IH as [Hall | (k & c & Hk & Hf & Hb)].
        * left. intros c [<- | Hin]; [exact E0 | exact (Hall c Hin)].
        * right. exists (S k), c. repeat split; try assumption.
          intros [| j] c' Hj Hn; simpl in Hn.
          -- injection Hn as <-. exact E0.
          -- apply (Hb j c'); [lia | exact Hn]. }
  destruct Hdec as [Hall | (k & c & Hk & Hf & Hb)].
  - left. split; [apply findTrigger_none; exact Hall | exact Hall].
  - right. exists k, c. repeat split; try assumption.
    apply findTrigger_first; assumption.
Qed.

(** X3. [simulateRetracement] reports an entry iff one of the first ten
    subsequent candles is complete and reaches the entry zone; the entry
    candle is then the first such candle and [candlesToEntry] its
    one-based position.  It reports an expiry iff there is no such candle
    and at least ten candles follow the signal; never both, and
    [candlesToEntry] never exceeds 10.  The signal candle itself plays no
    part. *)
Theorem simulateRetracement_outcomes :
  forall (signalCandle : Candle) (direction : Direction)
         (entryZone : number) (subsequentCandles : list Candle),
    let sim :=
      simulateRetracement signalCandle direction entryZone
        subsequentCandles in
    (entryTriggered sim = true <->
       exists c, In c (firstn 10 subsequentCandles)
                 /\ fills direction entryZone c = true)
    /\ (entryTriggered sim = true ->
          exists c,
            entryCandle sim = Some c
            /\ fills direction entryZone c = true
            /\ 1 <= candlesToEntry sim
            /\ nth_error subsequentCandles (candlesToEntry sim - 1) = Some c
            /\ forall j c', j < candlesToEntry sim - 1 ->
                 nth_error subsequentCandles j = Some c' ->
                 fills direction entryZone c' = false)
    /\ (sim_expired sim = true <->
          entryTriggered sim = false /\ 10 <= length subsequentCandles)
    /\ (entryTriggered sim = true -> sim_expired sim = false)
    /\ candlesToEntry sim <= 10
    /\ (forall otherSignalCandle,
          simulateRetracement otherSignalCandle direction entryZone
            subsequentCandles = sim).
Proof.
  intros signalCandle direction entryZone subsequentCandles sim.
  unfold sim, simulateRetracement, checkRetracement.
  change (firstn 10 subsequentCandles)
    with (firstn MAX_CANDLES_FOR_ENTRY subsequentCandles).
  remember (firstn MAX_CANDLES_FOR_ENTRY subsequentCandles) as window eqn:Hw.
  assert (Hmax : MAX_CANDLES_FOR_ENTRY = 10) by reflexivity.
  assert (Hlen : length window = Nat.min 10 (length subsequentCandles))
    by (rewrite Hw; apply length_firstn).
  assert (Hnth : forall j c, nth_error window j = Some c ->
                             nth_error subsequentCandles j = Some c).
  { intros j c H.
    assert (Hj : j < 10).
    { assert (j < length window) by (apply nth_error_Some; congruence).
      lia. }
    rewrite Hw, nth_error_firstn in H.
    destruct (j <? MAX_CANDLES_FOR_ENTRY) eqn:E;
      [exact H | apply Nat.ltb_ge in E; lia]. }
  destruct (findTrigger_cases direction entryZone window 0)
    as [[Hnone Hall] | (k & c & Hk & Hf & Hb & Hsome)].
  - rewrite Hnone.
    cbn [entryTriggered entryCandle candlesToEntry sim_expired rc_triggered
         rc_triggerCandle rc_candlesElapsed negb andb].
    split.
    { split; [discriminate |]. intros (c & Hin & Hc).
      rewrite (Hall c Hin) in Hc. discriminate. }
    split; [discriminate |].
    split.
    { rewrite Hlen. split.
      - intros H. apply Nat.leb_le in H. split; [reflexivity | lia].
      - intros [_ H]. apply Nat.leb_le. lia. }
    split; [discriminate |].
    split; [lia | reflexivity].
  - rewrite Hsome.
    cbn [entryTriggered entryCandle candlesToEntry sim_expired rc_triggered
         rc_triggerCandle rc_candlesElapsed negb andb Nat.add].
    assert (Hk10 : k < 10).
    { assert (k < length window) by (apply nth_error_Some; congruence). lia. }
    split.
    { split; [| reflexivity]. intros _. exists c.
      split; [exact (nth_error_In _ _ Hk) | exact Hf]. }
    split.
    { intros _. exists c. replace (k + 1 - 1) with k by lia.
      repeat split; try assumption; try lia.
      - apply Hnth. exact Hk.
      - intros j c' Hj Hn. apply (Hb j c' Hj).
        rewrite Hw, nth_error_firstn.
        replace (j <? MAX_CANDLES_FOR_ENTRY) with true
          by (symmetry; apply Nat.ltb_lt; lia).
        exact Hn. }
    split.
    { split; [discriminate | intros [H _]; discriminate]. }
    split; [reflexivity |].
    split; [lia | reflexivity].
Qed.

(** ** The monitor, candle by candle, against the check over a window *)

Lemma monitorSetups_single :
  forall s c,
    as_status s = WAITING ->
    monitorSetups [s] c =
    match nextStatus c s with
    | TRIGGERED => {| mr_triggered := [advanced TRIGGERED s];
                      mr_expired := []; mr_stillActive := [] |}
    | EXPIRED => {| mr_triggered := [];
                    mr_expired := [advanced EXPIRED s];
                    mr_stillActive := [] |}
    | WAITING => {| mr_triggered := []; mr_expired := [];
                    mr_stillActive := [advanced WAITING s] |}
    end.
Proof.
  intros s c Hw. rewrite monitorSetups_movedTo. unfold movedTo.
  cbn [filter]. unfold isWaiting. rewrite Hw. cbn [SetupStatus_beq filter].
  destruct (nextStatus c s); reflexivity.
Qed.

Lemma monitorThrough_findTrigger :
  forall cs s k,
    as_status s = WAITING ->
    as_candlesElapsed s = k ->
    k < MAX_CANDLES_FOR_ENTRY ->
    Forall (fun c => c_complete c = true) cs ->
    match findTrigger (as_direction s) (as_entryZone s)
            (firstn (MAX_CANDLES_FOR_ENTRY - k) cs) k with
    | Some r =>
        as_status (monitorThrough s cs) = TRIGGERED
        /\ as_candlesElapsed (monitorThrough s cs) = rc_candlesElapsed r
    | None =>
        as_candlesElapsed (monitorThrough s cs)
        = k + length (firstn (MAX_CANDLES_FOR_ENTRY - k) cs)
        /\ as_status (monitorThrough s cs)
           = if MAX_CANDLES_FOR_ENTRY <=? k + length cs
             then EXPIRED else WAITING
    end.
Proof.
  induction cs as [| c rest IH]; intros s k Hw Hk Hlt Hall.
  - rewrite firstn_nil. cbn [findTrigger monitorThrough length].
    rewrite Nat.add_0_r.
    replace (MAX_CANDLES_FOR_ENTRY <=? k) with false
      by (symmetry; apply Nat.leb_gt; exact Hlt).
    split; assumption.
  - inversion Hall as [| ? ? Hc Hrest]; subst.
    destruct (MAX_CANDLES_FOR_ENTRY - as_candlesElapsed s) as [| n] eqn:En;
      [lia |].
    cbn [firstn findTrigger monitorThrough]. rewrite Hc. cbn [negb].
    rewrite (monitorSetups_single s c Hw).
    unfold nextStatus, setupTriggers, entryReached.
    destruct (match as_direction s with
              | BUY => le (c_low c) (as_entryZone s)
              | SELL => ge (c_high c) (as_entryZone s)
              end) eqn:Hhit.
    + cbn. split; [reflexivity | lia].
    + destruct (MAX_CANDLES_FOR_ENTRY <=? as_candlesElapsed s + 1) eqn:E.
      * apply Nat.leb_le in E.
        assert (n = 0) by lia. subst n.
        cbn [firstn findTrigger mr_stillActive mr_triggered mr_expired
             length].
        unfold advanced.
        cbn [as_candlesElapsed as_status withProgress].
        replace (MAX_CANDLES_FOR_ENTRY
                 <=? as_candlesElapsed s + S (length rest)) with true
          by (symmetry; apply Nat.leb_le; lia).
        split; [lia | reflexivity].
      * apply Nat.leb_gt in E.
        cbn [mr_stillActive mr_triggered mr_expired].
        specialize (IH (advanced WAITING s) (as_candlesElapsed s + 1)
                      eq_refl eq_refl E Hrest).
        cbn [advanced as_direction as_entryZone withProgress] in IH.
        replace (MAX_CANDLES_FOR_ENTRY - (as_candlesElapsed s + 1))
          with n in IH by lia.
        replace (S (as_candlesElapsed s)) with (as_candlesElapsed s + 1)
          by lia.
        destruct (findTrigger (as_direction s) (as_entryZone s)
                    (firstn n rest) (as_candlesElapsed s + 1)) as [r |].
        -- exact IH.
        -- destruct IH as [IH1 IH2]. cbn [length].
           replace (as_candlesElapsed s + S (length rest))
             with (as_candlesElapsed s + 1 + length rest) by lia.
           split; [rewrite IH1; lia | exact IH2].
Qed.

(** X4. On complete candles the incremental monitor and the check over a
    window agree.  A WAITING setup with no candle elapsed, followed with
    [monitorSetups] through a list of complete candles until it is closed,
    ends TRIGGERED iff [checkRetracement] on that list reports a trigger,
    ends EXPIRED iff it does not and the list has at least 10 candles,
    and in every case holds the [candlesElapsed] that [checkRetracement]
    returns. *)
Theorem monitorThrough_agrees_with_checkRetracement :
  forall (s : ActiveSetup) (candles : list Candle),
    as_status s = WAITING ->
    as_candlesElapsed s = 0 ->
    Forall (fun c => c_complete c = true) candles ->
    let final := monitorThrough s candles in
    let check := checkRetracement (as_direction s) (as_entryZone s) candles in
    as_candlesElapsed final = rc_candlesElapsed check
    /\ (as_status final = TRIGGERED <-> rc_triggered check = true)
    /\ (as_status final = EXPIRED <->
          rc_triggered check = false /\ 10 <= length candles)
    /\ (as_status final = WAITING <->
          rc_triggered check = false /\ length candles < 10).
Proof.
  intros s candles Hw H0 Hall final check.
  assert (Hlt : 0 < MAX_CANDLES_FOR_ENTRY) by (unfold MAX_CANDLES_FOR_ENTRY; lia).
  pose proof (monitorThrough_findTrigger candles s 0 Hw H0 Hlt Hall) as H.
  rewrite Nat.sub_0_r in H.
  unfold check, checkRetracement. fold final in H.
  destruct (findTrigger_cases (as_direction s) (as_entryZone s)
              (firstn MAX_CANDLES_FOR_ENTRY candles) 0)
    as [[Hnone _] | (k & c & _ & _ & _ & Hsome)].
  - rewrite Hnone in *. destruct H as [H1 H2].
    cbn [rc_triggered rc_candlesElapsed]. rewrite H1, H2.
    split; [reflexivity |].
    change MAX_CANDLES_FOR_ENTRY with 10.
    destruct (10 <=? 0 + length candles) eqn:E;
      [apply Nat.leb_le in E | apply Nat.leb_gt in E];
      repeat split; intros; try discriminate; try reflexivity; try lia;
      match goal with
      | Hc : _ /\ _ |- _ => destruct Hc; try discriminate; lia
      end.
  - rewrite Hsome in *. destruct H as [H1 H2].
    cbn [rc_triggered rc_candlesElapsed] in *. rewrite H1, H2.
    repeat split; intros; try discriminate; try reflexivity;
      match goal with
      | Hc : _ /\ _ |- _ => destruct Hc; discriminate
      end.
Qed.

(** X4 on scenario C of the specification: the third candle, with a low
    of 1.0998, triggers the setup with three candles elapsed. *)
Lemma monitorThrough_agrees_with_checkRetracement_witness :
  as_status scenarioSetup = WAITING
  /\ as_candlesElapsed scenarioSetup = 0
  /\ Forall (fun c => c_complete c = true) scenarioCandles
  /\ as_candlesElapsed (monitorThrough scenarioSetup scenarioCandles)
     = rc_candlesElapsed
         (checkRetracement (as_direction scenarioSetup)
            (as_entryZone scenarioSetup) scenarioCandles)
  /\ as_candlesElapsed (monitorThrough scenarioSetup scenarioCandles) = 3
  /\ as_status (monitorThrough scenarioSetup scenarioCandles) = TRIGGERED.
Proof.
  assert (Hall : Forall (fun c => c_complete c = true) scenarioCandles).
  { repeat constructor. }
  split; [reflexivity |]. split; [reflexivity |]. split; [exact Hall |].
  destruct (monitorThrough_agrees_with_checkRetracement
              scenarioSetup scenarioCandles eq_refl eq_refl Hall)
    as [H _].
  split; [exact H |]. split; vm_compute; reflexivity.
Defined.

(** The hypothesis on the candles matters: [monitorSetups] does not look
    at [complete], where [checkRetracement] skips an incomplete candle. *)
Lemma monitorSetups_ignores_complete :
  let forming :=
    {| c_time := "t1"; c_open := dec 11005 4; c_high := dec 11010 4;
       c_low := dec 10998 4; c_close := dec 11000 4; c_complete := false |} in
  as_status (monitorThrough scenarioSetup [forming]) = TRIGGERED
  /\ rc_triggered
       (checkRetracement (as_direction scenarioSetup)
          (as_entryZone scenarioSetup) [forming]) = false.
Proof. vm_compute. split; reflexivity. Qed.

(** ** Swing point helpers *)

(** X5. [getLastNSwings] never throws and returns a suffix of the swings
    of the requested type: the last [count] of them when [count] is
    positive (all of them if there are fewer), and, because [slice(-0)] is
    [slice(0)], all of them when [count] is 0. *)
Theorem getLastNSwings_suffix :
  forall (candles : list Candle) (type : SwingType) (count lookback : nat),
    exists all last,
      findSwingPoints candles lookback = Ok all
      /\ getLastNSwings candles type count lookback = Ok last
      /\ (exists older, filter (isType type) all = older ++ last)
      /\ (count = 0 -> last = filter (isType type) all)
      /\ (0 < count ->
            length last
            = Nat.min count (length (filter (isType type) all))).
Proof.
  intros candles type count lookback.
  exists (swingPointsOf candles lookback).
  unfold getLastNSwings. rewrite findSwingPoints_swingPointsOf. cbn [bind].
  set (ofType := filter (isType type) (swingPointsOf candles lookback)).
  eexists. split; [reflexivity |]. split; [reflexivity |].
  unfold sliceLast. destruct (count =? 0) eqn:E;
    [apply Nat.eqb_eq in E | apply Nat.eqb_neq in E].
  - split; [exists []; reflexivity |]. split; [reflexivity | lia].
  - split.
    { exists (firstn (length ofType - count) ofType).
      symmetry. apply firstn_skipn. }
    split; [lia |]. intros _. rewrite length_skipn. lia.
Qed.

Lemma StronglySorted_app_last :
  forall (A : Type) (R : A -> A -> Prop) (pre : list A) (a : A),
    StronglySorted R (pre ++ [a]) -> Forall (fun x => R x a) pre.
Proof.
  intros A R pre a. induction pre as [| x pre IH]; intros H.
  - constructor.
  - simpl in H. inversion H as [| ? ? Hs Hf]; subst.
    constructor; [| apply IH; exact Hs].
    rewrite Forall_forall in Hf. apply Hf. apply in_or_app. right. now left.
Qed.

(** The swings of one kind stand at strictly increasing indices: a candle
    gives at most one swing of each kind. *)
Lemma swings_of_kind_strictly_sorted :
  forall candles lookback kind n i,
    StronglySorted strictlyByIndex
      (filter (isType kind)
         (flat_map (swingsAt candles lookback) (seq i n))).
Proof.
  intros candles lookback kind n.
  induction n as [| n IH]; intros i; simpl; [constructor |].
  rewrite filter_app.
  apply StronglySorted_app; [| apply IH |].
  - unfold swingsAt. destruct (nth_error candles i) as [current |];
      [| constructor].
    destruct (forallb (highClears candles current i) (seq 1 lookback));
      destruct (forallb (lowClears candles current i) (seq 1 lookback));
      destruct kind; simpl; repeat constructor.
  - intros x y Hx Hy. unfold strictlyByIndex.
    apply filter_In in Hx. destruct Hx as [Hx _].
    apply filter_In in Hy. destruct Hy as [Hy _].
    apply swingsAt_index in Hx.
    apply in_flat_map in Hy. destruct Hy as (k & Hk & Hy).
    apply swingsAt_index in Hy. apply in_seq in Hk. lia.
Qed.

Lemma lastOrNull_of_kind :
  forall candles lookback kind,
    let ofKind := filter (isType kind) (swingPointsOf candles lookback) in
    (lastOrNull ofKind = None <-> ofKind = [])
    /\ forall s, lastOrNull ofKind = Some s ->
         In s ofKind /\ sp_type s = kind
         /\ forall s', In s' ofKind -> s' = s \/ sp_index s' < sp_index s.
Proof.
  intros candles lookback kind ofKind.
  pose proof (swings_of_kind_strictly_sorted candles lookback kind
                (length candles - lookback - lookback) lookback) as Hs.
  fold (swingPointsOf candles lookback) in Hs. fold ofKind in Hs.
  destruct (lastOrNull_cases _ ofKind)
    as [[Hnil Hnone] | (pre & a & Happ & Hsome)].
  - rewrite Hnone. split; [tauto |]. intros s H. discriminate.
  - rewrite Hsome. split.
    + split; [discriminate |]. intros H. rewrite H in Happ.
      destruct pre; discriminate.
    + intros s H. injection H as <-.
      assert (Hin : In a ofKind)
        by (rewrite Happ; apply in_or_app; right; now left).
      split; [exact Hin |]. split.
      * apply filter_In in Hin. destruct Hin as [_ Ht].
        unfold isType in Ht. destruct (sp_type a), kind;
          try discriminate; reflexivity.
      * intros s' Hs'. rewrite Happ in Hs', Hs.
        apply StronglySorted_app_last in Hs.
        apply in_app_or in Hs'. destruct Hs' as [Hp | [<- | []]].
        -- right. rewrite Forall_forall in Hs. exact (Hs s' Hp).
        -- left. reflexivity.
Qed.

(** X6. [getMostRecentSwingHigh] and [getMostRecentSwingLow] never throw;
    each returns null iff the list has no swing of its kind, and
    otherwise the swing of its kind at the greatest index, every other
    one standing at a strictly smaller index. *)
Theorem mostRecentSwing_is_latest :
  forall (candles : list Candle) (lookback : nat),
    (exists highs recent,
       findSwingHighs candles lookback = Ok highs
       /\ getMostRecentSwingHigh candles lookback = Ok recent
       /\ (recent = None <-> highs = [])
       /\ forall h, recent = Some h ->
            In h highs /\ sp_type h = HIGH
            /\ forall h', In h' highs ->
                 h' = h \/ sp_index h' < sp_index h)
    /\ (exists lows recent,
          findSwingLows candles lookback = Ok lows
          /\ getMostRecentSwingLow candles lookback = Ok recent
          /\ (recent = None <-> lows = [])
          /\ forall l, recent = Some l ->
               In l lows /\ sp_type l = LOW
               /\ forall l', In l' lows ->
                    l' = l \/ sp_index l' < sp_index l).
Proof.
  intros candles lookback.
  unfold getMostRecentSwingHigh, getMostRecentSwingLow, findSwingHighs,
    findSwingLows.
  rewrite findSwingPoints_swingPointsOf. cbn [bind].
  split; eexists; eexists; (split; [reflexivity |]);
    (split; [reflexivity |]).
  - exact (lastOrNull_of_kind candles lookback HIGH).
  - exact (lastOrNull_of_kind candles lookback LOW).
Qed.

(** X7. Two swings of the same kind never stand within [lookback]
    candles of each other: each would have to be strictly beyond the
    other.  (For candles whose highs and lows are numbers.) *)
Theorem swings_of_a_kind_are_apart :
  forall (candles : list Candle) (lookback : nat)
         (swings : list SwingPoint) (a b : SwingPoint),
    Forall numericCandle candles ->
    findSwingPoints candles lookback = Ok swings ->
    In a swings -> In b swings ->
    sp_type a = sp_type b ->
    sp_index a < sp_index b ->
    lookback < sp_index b - sp_index a.
Proof.
  intros candles lookback swings a b Hnum Hfind Ha Hb Hty Hlt.
  rewrite findSwingPoints_swingPointsOf in Hfind. injection Hfind as <-.
  unfold swingPointsOf in Ha, Hb.
  apply in_flat_map in Ha. destruct Ha as (ia & _ & Ha).
  apply in_flat_map in Hb. destruct Hb as (ib & _ & Hb).
  destruct (swingsAt_inv _ _ _ _ Ha) as (ca & Hca & Hia & _ & Hta).
  destruct (swingsAt_inv _ _ _ _ Hb) as (cb & Hcb & Hib & _ & Htb).
  rewrite Hia, Hib in *.
  destruct (Nat.lt_ge_cases lookback (ib - ia)) as [Hok | Hclose];
    [exact Hok | exfalso].
  set (d := ib - ia).
  assert (Hd : In d (seq 1 lookback)) by (apply in_seq; unfold d; lia).
  assert (Hr : ia + d = ib) by (unfold d; lia).
  assert (Hl : ib - d = ia) by (unfold d; lia).
  rewrite <- Hty in Htb.
  destruct (sp_type a); destruct Hta as [_ Halla]; destruct Htb as [_ Hallb];
    rewrite forallb_forall in Halla, Hallb;
    specialize (Halla d Hd); specialize (Hallb d Hd).
  - destruct (highClears_strict _ _ _ _ Hnum Hca Halla)
      as (l1 & r1 & _ & Hr1 & _ & G1).
    destruct (highClears_strict _ _ _ _ Hnum Hcb Hallb)
      as (l2 & r2 & Hl2 & _ & G2 & _).
    rewrite Hr, Hcb in Hr1. injection Hr1 as <-.
    rewrite Hl, Hca in Hl2. injection Hl2 as <-.
    unfold gt in G1, G2.
    pose proof (lt_gt_exclusive _ _ G1) as X. unfold gt in X.
    rewrite G2 in X. discriminate.
  - destruct (lowClears_strict _ _ _ _ Hnum Hca Halla)
      as (l1 & r1 & _ & Hr1 & _ & G1).
    destruct (lowClears_strict _ _ _ _ Hnum Hcb Hallb)
      as (l2 & r2 & Hl2 & _ & G2 & _).
    rewrite Hr, Hcb in Hr1. injection Hr1 as <-.
    rewrite Hl, Hca in Hl2. injection Hl2 as <-.
    pose proof (lt_gt_exclusive _ _ G1) as X. unfold gt in X.
    unfold lt in G2. rewrite G2 in X. discriminate.
Qed.

(** X7 on the two peaks of [twoPeaks], at indices 1 and 3 with a lookback
    of 1. *)
Lemma swings_of_a_kind_are_apart_witness :
  exists swings a b,
    Forall numericCandle twoPeaks
    /\ findSwingPoints twoPeaks 1 = Ok swings
    /\ In a swings /\ In b swings
    /\ sp_type a = sp_type b
    /\ sp_index a < sp_index b
    /\ 1 < sp_index b - sp_index a.
Proof.
  assert (Hnum : Forall numericCandle twoPeaks) by (repeat constructor).
  exists (swingPointsOf twoPeaks 1).
  exists {| sp_index := 1; sp_time := "t1"; sp_price := ofZ 7;
            sp_type := HIGH |}.
  exists {| sp_index := 3; sp_time := "t3"; sp_price := ofZ 8;
            sp_type := HIGH |}.
  assert (Hfind : findSwingPoints twoPeaks 1 = Ok (swingPointsOf twoPeaks 1))
    by apply findSwingPoints_swingPointsOf.
  assert (Ha : In {| sp_index := 1; sp_time := "t1"; sp_price := ofZ 7;
                     sp_type := HIGH |} (swingPointsOf twoPeaks 1))
    by (vm_compute; tauto).
  assert (Hb : In {| sp_index := 3; sp_time := "t3"; sp_price := ofZ 8;
                     sp_type := HIGH |} (swingPointsOf twoPeaks 1))
    by (vm_compute; tauto).
  assert (Hlt : 1 < 3) by lia.
  repeat split; try assumption; try reflexivity.
  exact (swings_of_a_kind_are_apart twoPeaks 1 _ _ _ Hnum Hfind Ha Hb
           eq_refl Hlt).
Defined.

(** ** Trend helpers *)

Lemma getSwingRelationships_of_swings :
  forall candles lookback,
    getSwingRelationships candles lookback =
    let swings := swingPointsOf candles lookback in
    let highs := filter (isType HIGH) swings in
    let lows := filter (isType LOW) swings in
    let compared xs :=
      match lastTwo xs with
      | Some (previous, latest) =>
          (Some (gt (sp_price latest) (sp_price previous)),
           Some (lt (sp_price latest) (sp_price previous)))
      | None => (None, None)
      end in
    Ok {| sr_highs := sliceLast2 highs; sr_lows := sliceLast2 lows;
          hasHigherHigh := fst (compared highs);
          hasHigherLow := fst (compared lows);
          hasLowerHigh := snd (compared highs);
          hasLowerLow := snd (compared lows) |}.
Proof.
  intros candles lookback. unfold getSwingRelationships.
  rewrite findSwingPoints_swingPointsOf. cbn [bind]. cbv zeta.
  rewrite (compareLastTwo_highs _ (filter_isType HIGH _)).
  rewrite (compareLastTwo_lows _ (filter_isType LOW _)).
  destruct (lastTwo (filter (isType HIGH) (swingPointsOf candles lookback)))
    as [[ph lh] |];
    destruct (lastTwo (filter (isType LOW) (swingPointsOf candles lookback)))
      as [[pl ll] |]; reflexivity.
Qed.

(** X8. [detectTrendChangeWarning] never throws.  Given RANGING it is
    silent; given UP it warns exactly when the latest swing high or the
    latest swing low is strictly below the previous one; given DOWN,
    exactly when the latest swing low or swing high is strictly above the
    previous one.  Every warning it returns has [warning = true]. *)
Theorem detectTrendChangeWarning_fires_iff :
  forall (candles : list Candle) (currentTrend : Trend) (lookback : nat),
    exists swings r,
      findSwingPoints candles lookback = Ok swings
      /\ detectTrendChangeWarning candles currentTrend lookback = Ok r
      /\ (forall w, r = Some w -> warning w = true)
      /\ (r <> None <->
          match currentTrend with
          | UP => fallingSwings HIGH swings \/ fallingSwings LOW swings
          | DOWN => risingSwings LOW swings \/ risingSwings HIGH swings
          | RANGING => False
          end).
Proof.
  intros candles currentTrend lookback.
  exists (swingPointsOf candles lookback).
  unfold detectTrendChangeWarning.
  rewrite getSwingRelationships_of_swings. cbv zeta.
  set (swings := swingPointsOf candles lookback).
  destruct currentTrend.
  3: { eexists. split; [apply findSwingPoints_swingPointsOf |].
       split; [reflexivity |]. split; [discriminate | tauto]. }
  all: cbn [bind hasHigherHigh hasHigherLow hasLowerHigh hasLowerLow].
  all: destruct (lastTwo (filter (isType HIGH) swings)) as [[ph lh] |] eqn:Hh;
    destruct (lastTwo (filter (isType LOW) swings)) as [[pl ll] |] eqn:Hl;
    cbn [fst snd isTrue].
  all: try pose proof (risingSwings_iff HIGH swings ph lh Hh) as RH.
  all: try pose proof (risingSwings_iff LOW swings pl ll Hl) as RL.
  all: try pose proof (fallingSwings_iff HIGH swings ph lh Hh) as FH.
  all: try pose proof (fallingSwings_iff LOW swings pl ll Hl) as FL.
  all: try (destruct (no_pair_no_trend HIGH swings Hh) as [NRH NFH]).
  all: try (destruct (no_pair_no_trend LOW swings Hl) as [NRL NFL]).
  all: try destruct (gt (sp_price lh) (sp_price ph));
    try destruct (lt (sp_price lh) (sp_price ph));
    try destruct (gt (sp_price ll) (sp_price pl));
    try destruct (lt (sp_price ll) (sp_price pl)).
  all: eexists; (split; [apply findSwingPoints_swingPointsOf |]);
    (split; [reflexivity |]);
    (split; [intros w Hw; try discriminate; injection Hw as <-; reflexivity |]).
  all: split; [intros Hr | intros Hr D]; try discriminate;
    try (exfalso; apply Hr; reflexivity); intuition discriminate.
Qed.

(** X9. A warning needs a stale trend: when [currentTrend] is what
    [classifyTrend] returns for the same candles and lookback,
    [detectTrendChangeWarning] returns null. *)
Theorem detectTrendChangeWarning_silent_on_current_trend :
  forall (candles : list Candle) (lookback : nat),
    exists trend,
      classifyTrend candles lookback = Ok trend
      /\ detectTrendChangeWarning candles trend lookback = Ok None.
Proof.
  intros candles lookback.
  rewrite classifyTrend_of_swings. cbv zeta.
  eexists. split; [reflexivity |].
  unfold detectTrendChangeWarning.
  rewrite getSwingRelationships_of_swings. cbv zeta.
  set (swings := swingPointsOf candles lookback).
  destruct (negb (MIN_SWING_POINTS <=? length swings)); [reflexivity |].
  destruct (lastTwo (filter (isType HIGH) swings)) as [[ph lh] |];
    [| reflexivity].
  destruct (lastTwo (filter (isType LOW) swings)) as [[pl ll] |];
    [| reflexivity].
  pose proof (lt_gt_exclusive (sp_price lh) (sp_price ph)) as XH.
  pose proof (lt_gt_exclusive (sp_price ll) (sp_price pl)) as XL.
  destruct (gt (sp_price lh) (sp_price ph));
    destruct (gt (sp_price ll) (sp_price pl));
    destruct (lt (sp_price lh) (sp_price ph));
    destruct (lt (sp_price ll) (sp_price pl));
    try (specialize (XH eq_refl); discriminate);
    try (specialize (XL eq_refl); discriminate);
    reflexivity.
Qed.

Lemma labelLatest_sliceLast2 :
  forall xs,
    labelLatest (sliceLast2 xs) =
    match lastTwo xs with
    | Some (previous, latest) =>
        if gt (sp_price latest) (sp_price previous)
        then (Some latest, None)
        else if lt (sp_price latest) (sp_price previous)
        then (None, Some latest)
        else (None, None)
    | None => (None, None)
    end.
Proof.
  intros xs.
  destruct (last_two_cases _ xs) as [Hshort | (pre & p & l & ->)].
  - rewrite sliceLast2_short, lastTwo_short by exact Hshort.
    unfold labelLatest.
    replace (2 <=? length xs) with false
      by (symmetry; apply Nat.leb_gt; exact Hshort).
    reflexivity.
  - rewrite sliceLast2_app, lastTwo_app. reflexivity.
Qed.

Lemma lastTwo_lastOrNull :
  forall xs p l, lastTwo xs = Some (p, l) -> lastOrNull xs = Some l.
Proof.
  intros xs p l H.
  destruct (last_two_cases _ xs) as [Hshort | (pre & p' & l' & ->)].
  - rewrite lastTwo_short in H by exact Hshort. discriminate.
  - rewrite lastTwo_app in H. injection H as -> ->.
    replace (pre ++ [p; l]) with ((pre ++ [p]) ++ [l])
      by (rewrite <- app_assoc; reflexivity).
    apply lastOrNull_app.
Qed.

(** X10. [analyzeTrend] never throws; its trend is [classifyTrend]'s and
    its lists are all swing highs and all swing lows.  The latest swing
    high is labelled HH or LH but never both, and so the latest swing low
    with HL and LL; a labelled swing is the most recent swing of its kind.
    In an uptrend both [latestHH] and [latestHL] are set, in a downtrend
    both [latestLH] and [latestLL]. *)
Theorem analyzeTrend_markers :
  forall (candles : list Candle) (lookback : nat),
    exists swings a,
      findSwingPoints candles lookback = Ok swings
      /\ analyzeTrend candles lookback = Ok a
      /\ classifyTrend candles lookback = Ok (ta_trend a)
      /\ swingHighs a = filter (isType HIGH) swings
      /\ swingLows a = filter (isType LOW) swings
      /\ (latestHH a = None \/ latestLH a = None)
      /\ (latestHL a = None \/ latestLL a = None)
      /\ (forall s, latestHH a = Some s \/ latestLH a = Some s ->
            getMostRecentSwingHigh candles lookback = Ok (Some s))
      /\ (forall s, latestHL a = Some s \/ latestLL a = Some s ->
            getMostRecentSwingLow candles lookback = Ok (Some s))
      /\ (ta_trend a = UP -> latestHH a <> None /\ latestHL a <> None)
      /\ (ta_trend a = DOWN -> latestLH a <> None /\ latestLL a <> None).
Proof.
  intros candles lookback.
  exists (swingPointsOf candles lookback).
  unfold analyzeTrend, getMostRecentSwingHigh, getMostRecentSwingLow,
    findSwingHighs, findSwingLows.
  rewrite classifyTrend_of_swings, findSwingPoints_swingPointsOf.
  cbn [bind]. cbv zeta.
  rewrite !labelLatest_sliceLast2.
  set (swings := swingPointsOf candles lookback).
  pose proof (lastTwo_lastOrNull (filter (isType HIGH) swings)) as LH.
  pose proof (lastTwo_lastOrNull (filter (isType LOW) swings)) as LL.
  destruct (lastTwo (filter (isType HIGH) swings)) as [[ph lh] |];
    destruct (lastTwo (filter (isType LOW) swings)) as [[pl ll] |];
    try specialize (LH _ _ eq_refl); try specialize (LL _ _ eq_refl);
    try rewrite LH; try rewrite LL.
  all: try pose proof (lt_gt_exclusive (sp_price lh) (sp_price ph)) as XH.
  all: try pose proof (lt_gt_exclusive (sp_price ll) (sp_price pl)) as XL.
  all: destruct (negb (MIN_SWING_POINTS <=? length swings)).
  all: try destruct (gt (sp_price lh) (sp_price ph));
    try destruct (lt (sp_price lh) (sp_price ph));
    try destruct (gt (sp_price ll) (sp_price pl));
    try destruct (lt (sp_price ll) (sp_price pl)).
  all: try (specialize (XH eq_refl); discriminate).
  all: try (specialize (XL eq_refl); discriminate).
  all: eexists; (split; [reflexivity |]); (split; [reflexivity |]);
    cbn [ta_trend swingHighs swingLows latestHH latestHL latestLH latestLL
         andb];
    repeat split; try reflexivity; try (left; reflexivity);
    try (right; reflexivity); try discriminate;
    try (intros s [Hs | Hs]; try discriminate; injection Hs as <-;
         reflexivity).
Qed.

(** ** Signal candle helpers *)

(** X11. The two readings of "with the trend" agree, and the detector
    obeys them: a direction is aligned with a trend iff it is the allowed
    direction of that trend, and a valid detection always carries the
    allowed direction of the trend it was given, which is then not
    RANGING. *)
Theorem detectWickless_direction_allowed :
  forall (candle : Candle) (pair : Pair) (trend : Trend),
    (forall d, isTrendAligned trend d = true
               <-> getAllowedDirection trend = Some d)
    /\ (wr_isValid (detectWickless candle pair trend) = true ->
          trend <> RANGING
          /\ wr_direction (detectWickless candle pair trend)
             = getAllowedDirection trend
          /\ exists d,
               wr_direction (detectWickless candle pair trend) = Some d
               /\ isTrendAligned trend d = true).
Proof.
  intros candle pair trend. split.
  - intros d. destruct trend, d; simpl; split; intros H;
      try reflexivity; discriminate.
  - unfold detectWickless.
    destruct trend; [| | simpl; discriminate];
      destruct (lt (abs (sub (c_close candle) (c_open candle)))
                  (getTolerance pair)); try (simpl; discriminate);
      match goal with
      | |- context [if ?b && ?c then _ else _] => destruct b, c
      end; cbn [andb wr_isValid wr_direction noSignal]; intros H;
      try discriminate;
      (split; [discriminate |]); (split; [reflexivity |]);
      eexists; split; reflexivity.
Qed.

Lemma ge_zero_tolerance :
  forall pair s, ge (abs (S754_zero s)) (getTolerance pair) = false.
Proof. intros [] []; vm_compute; reflexivity. Qed.

Lemma ge_nan_tolerance :
  forall pair, ge (abs S754_nan) (getTolerance pair) = false.
Proof. intros []; vm_compute; reflexivity. Qed.

(** Two prices neither of which is strictly below the other are equal or
    not comparable; their difference is then zero or NaN, and the body it
    measures is below every pair's tolerance. *)
Lemma body_of_unordered_prices :
  forall (a b : number) (pair : Pair),
    lt a b = false -> lt b a = false ->
    ge (abs (sub a b)) (getTolerance pair) = false.
Proof.
  intros a b pair H1 H2. unfold lt, SFltb in H1, H2.
  rewrite (SFcompare_swap a b) in H2.
  destruct (SFcompare a b) as [[| |] |] eqn:E; try discriminate;
    clear H1 H2.
  - destruct a as [sa | sa | | sa ma ea], b as [sb | sb | | sb mb eb];
      simpl in E; try discriminate;
      try (destruct sa, sb; try discriminate;
           first [apply ge_zero_tolerance | apply ge_nan_tolerance]);
      try (destruct sa; discriminate);
      try (destruct sb; discriminate).
    assert (Hs : sa = sb /\ ea = eb /\ ma = mb).
    { destruct sa, sb; try discriminate;
        destruct (ea ?= eb)%Z eqn:He; try discriminate;
        apply Z.compare_eq in He;
        destruct (Pos.compare_cont Eq ma mb) eqn:Hm; try discriminate;
        apply Pos.compare_eq in Hm; auto. }
    destruct Hs as (-> & -> & ->).
    unfold sub, SFsub. rewrite Z.sub_diag.
    apply (ge_zero_tolerance pair false).
  - destruct a as [sa | sa | | sa ma ea], b as [sb | sb | | sb mb eb];
      simpl in E; try discriminate;
      try apply ge_nan_tolerance;
      try (destruct sa, sb; discriminate);
      try (destruct sa; discriminate);
      try (destruct sb; discriminate).
Qed.

(** X12. [validateWicklessCandle] and [detectWickless] agree, although
    one tests a bearish candle as "not bullish" and the doji as "not
    body >= e" where the other tests "close < open" and "body < e": a
    candle validates iff it is complete and the detector gives a valid
    signal for it.  The reason reads "Valid wickless signal candle"
    exactly when the candle validates. *)
Theorem validateWicklessCandle_agrees_with_detectWickless :
  forall (candle : Candle) (pair : Pair) (trend : Trend),
    wv_isValid (validateWicklessCandle candle pair trend)
    = c_complete candle && wr_isValid (detectWickless candle pair trend)
    /\ (wv_isValid (validateWicklessCandle candle pair trend) = true
        <-> wv_reason (validateWicklessCandle candle pair trend)
            = "Valid wickless signal candle"%string).
Proof.
  intros candle pair trend. split.
  - unfold validateWicklessCandle, detectWickless. cbv zeta.
    cbn [wv_isValid trendAligned correctDirection wickRequirementMet
         isComplete notDoji].
    pose proof (doji_test_total (c_open candle) (c_close candle) pair) as Hd.
    pose proof (body_of_unordered_prices (c_close candle) (c_open candle)
                  pair) as Hu.
    pose proof (lt_gt_exclusive (c_close candle) (c_open candle)) as Hx.
    change (gt (c_close candle) (c_open candle))
      with (lt (c_open candle) (c_close candle)) in *.
    destruct trend; cbn [isUp isDown negb andb orb];
      [| | destruct (c_complete candle); reflexivity].
    + destruct (lt (c_open candle) (c_close candle)) eqn:G.
      * rewrite (Hd (or_introl eq_refl)).
        destruct (ge (abs (sub (c_close candle) (c_open candle)))
                    (getTolerance pair)),
          (ge (c_low candle) (sub (c_open candle) (getTolerance pair))),
          (c_complete candle); reflexivity.
      * destruct (lt (abs (sub (c_close candle) (c_open candle)))
                    (getTolerance pair)),
          (c_complete candle); reflexivity.
    + destruct (lt (c_open candle) (c_close candle)) eqn:G;
        destruct (lt (c_close candle) (c_open candle)) eqn:L.
      * specialize (Hx eq_refl). discriminate.
      * destruct (lt (abs (sub (c_close candle) (c_open candle)))
                    (getTolerance pair)),
          (c_complete candle); reflexivity.
      * rewrite (Hd (or_intror eq_refl)).
        destruct (ge (abs (sub (c_close candle) (c_open candle)))
                    (getTolerance pair)),
          (le (c_high candle) (add (c_open candle) (getTolerance pair))),
          (c_complete candle); reflexivity.
      * rewrite (Hu eq_refl eq_refl).
        destruct (lt (abs (sub (c_close candle) (c_open candle)))
                    (getTolerance pair)),
          (le (c_high candle) (add (c_open candle) (getTolerance pair))),
          (c_complete candle); reflexivity.
  - unfold validateWicklessCandle. cbv zeta.
    cbn [wv_isValid wv_reason trendAligned correctDirection
         wickRequirementMet isComplete notDoji].
    destruct trend; cbn [isUp isDown negb andb orb trendLowerCase];
      destruct (gt (c_close candle) (c_open candle));
      destruct (ge (abs (sub (c_close candle) (c_open candle)))
                  (getTolerance pair));
      destruct (c_complete candle);
      destruct (ge (c_low candle) (sub (c_open candle) (getTolerance pair)));
      destruct (le (c_high candle) (add (c_open candle) (getTolerance pair)));
      cbn; split; intros H; try reflexivity; discriminate.
Qed.

Lemma getLatestCompleteCandle_app :
  forall pre x,
    getLatestCompleteCandle (pre ++ [x])
    = if c_complete x then Some x else getLatestCompleteCandle pre.
Proof.
  intros pre x. unfold getLatestCompleteCandle.
  rewrite rev_app_distr. reflexivity.
Qed.

Lemma getMostRecentWickless_app :
  forall pre x pair trend,
    getMostRecentWickless (pre ++ [x]) pair trend
    = if negb (c_complete x) then getMostRecentWickless pre pair trend
      else if wr_isValid (detectWickless x pair trend)
           then Some (length pre, detectWickless x pair trend)
           else None.
Proof.
  intros pre x pair trend. unfold getMostRecentWickless.
  rewrite rev_app_distr, length_app. cbn [rev app length newestCompleteWickless].
  replace (length pre + 1 - 1) with (length pre) by lia.
  reflexivity.
Qed.

(** X13. [getMostRecentWickless] looks at one candle only, the latest
    complete one: it returns that candle's detection, with the candle's
    index, when the detection is valid, and null when it is not or when no
    candle is complete.  Older candles are never examined, and every
    candle after the returned index is incomplete. *)
Theorem getMostRecentWickless_latest_complete_only :
  forall (candles : list Candle) (pair : Pair) (trend : Trend),
    match getLatestCompleteCandle candles with
    | None => getMostRecentWickless candles pair trend = None
    | Some c =>
        if wr_isValid (detectWickless c pair trend) then
          exists i,
            getMostRecentWickless candles pair trend
            = Some (i, detectWickless c pair trend)
            /\ nth_error candles i = Some c
            /\ forall j c', i < j -> nth_error candles j = Some c' ->
                 c_complete c' = false
        else getMostRecentWickless candles pair trend = None
    end.
Proof.
  intros candles pair trend.
  induction candles as [| x pre IH] using rev_ind; [reflexivity |].
  rewrite getLatestCompleteCandle_app, getMostRecentWickless_app.
  destruct (c_complete x) eqn:Hx; cbn [negb].
  - destruct (wr_isValid (detectWickless x pair trend)); [| reflexivity].
    exists (length pre). split; [reflexivity |]. split.
    + rewrite nth_error_app2 by lia. rewrite Nat.sub_diag. reflexivity.
    + intros j c' Hj Hc'.
      assert (Hlen : j < length (pre ++ [x]))
        by (apply nth_error_Some; rewrite Hc'; discriminate).
      rewrite length_app in Hlen. simpl in Hlen. lia.
  - destruct (getLatestCompleteCandle pre) as [c |]; [| exact IH].
    destruct (wr_isValid (detectWickless c pair trend)); [| exact IH].
    destruct IH as (i & Hi & Hn & Hlater).
    assert (Hlt : i < length pre)
      by (apply nth_error_Some; rewrite Hn; discriminate).
    exists i. split; [exact Hi |]. split.
    + rewrite nth_error_app1 by exact Hlt. exact Hn.
    + intros j c' Hj Hc'.
      destruct (Nat.lt_ge_cases j (length pre)) as [Hin | Hout].
      * rewrite nth_error_app1 in Hc' by exact Hin.
        exact (Hlater j c' Hj Hc').
      * rewrite nth_error_app2 in Hc' by exact Hout.
        destruct (j - length pre) as [| k] eqn:Hk; simpl in Hc'.
        -- injection Hc' as <-. exact Hx.
        -- destruct k; discriminate.
Qed.

Lemma collectWickless_In :
  forall rest i pair trend k r,
    In (k, r) (collectWickless rest i pair trend) <->
    i <= k
    /\ exists c,
         nth_error rest (k - i) = Some c
         /\ c_complete c = true
         /\ r = detectWickless c pair trend
         /\ wr_isValid r = true.
Proof.
  induction rest as [| candle rest IH]; intros i pair trend k r.
  - simpl. split; [tauto |]. intros (_ & c & H & _).
    destruct (k - i); discriminate.
  - assert (Htail :
      In (k, r) (collectWickless rest (S i) pair trend) <->
      i < k
      /\ exists c,
           nth_error (candle :: rest) (k - i) = Some c
           /\ c_complete c = true
           /\ r = detectWickless c pair trend
           /\ wr_isValid r = true).
    { rewrite IH. split.
      - intros (Hk & c & Hn & Hrest). split; [lia |]. exists c.
        replace (k - i) with (S (k - S i)) by lia. split; assumption.
      - intros (Hk & c & Hn & Hrest). split; [lia |]. exists c.
        replace (k - i) with (S (k - S i)) in Hn by lia.
        split; assumption. }
    cbn [collectWickless].
    destruct (c_complete candle) eqn:Hc; cbn [negb].
    + destruct (wr_isValid (detectWickless candle pair trend)) eqn:Hv.
      * cbn [In]. rewrite Htail. split.
        -- intros [H | (Hk & H)].
           ++ injection H as <- <-. split; [lia |]. exists candle.
              rewrite Nat.sub_diag. repeat split; assumption.
           ++ split; [lia | exact H].
        -- intros (Hk & c & Hn & Hcc & Hr & Hrv).
           destruct (Nat.eq_dec i k) as [<- | Hne].
           ++ left. rewrite Nat.sub_diag in Hn. injection Hn as <-.
              rewrite Hr. reflexivity.
           ++ right. split; [lia |]. exists c. repeat split; assumption.
      * rewrite Htail. split.
        -- intros (Hk & H). split; [lia | exact H].
        -- intros (Hk & c & Hn & Hcc & Hr & Hrv).
           destruct (Nat.eq_dec i k) as [<- | Hne].
           ++ rewrite Nat.sub_diag in Hn. injection Hn as <-.
              rewrite Hr, Hv in Hrv. discriminate.
           ++ split; [lia |]. exists c. repeat split; assumption.
    + rewrite Htail. split.
      * intros (Hk & H). split; [lia | exact H].
      * intros (Hk & c & Hn & Hcc & Hr & Hrv).
        destruct (Nat.eq_dec i k) as [<- | Hne].
        -- rewrite Nat.sub_diag in Hn. injection Hn as <-.
           rewrite Hc in Hcc. discriminate.
        -- split; [lia |]. exists c. repeat split; assumption.
Qed.

Lemma collectWickless_sorted :
  forall rest i pair trend,
    StronglySorted (fun a b : nat * WicklessResult => fst a < fst b)
      (collectWickless rest i pair trend).
Proof.
  induction rest as [| candle rest IH]; intros i pair trend;
    cbn [collectWickless]; [constructor |].
  destruct (negb (c_complete candle)); [apply IH |].
  destruct (wr_isValid (detectWickless candle pair trend)); [| apply IH].
  constructor; [apply IH |].
  apply Forall_forall. intros [k r] H.
  apply collectWickless_In in H. simpl. lia.
Qed.

(** X14. [scanForWicklessCandles] returns, in ascending order of index,
    exactly the valid detections of the complete candles among the last
    [maxCandles] candles of the list, each with the index of its candle
    in the whole list.  It returns nothing for a RANGING trend or for
    [maxCandles = 0]. *)
Theorem scanForWicklessCandles_finds :
  forall (candles : list Candle) (pair : Pair) (trend : Trend)
         (maxCandles : nat),
    (forall i r,
       In (i, r) (scanForWicklessCandles candles pair trend maxCandles) <->
       length candles - maxCandles <= i
       /\ exists c,
            nth_error candles i = Some c
            /\ c_complete c = true
            /\ r = detectWickless c pair trend
            /\ wr_isValid r = true)
    /\ StronglySorted (fun a b : nat * WicklessResult => fst a < fst b)
         (scanForWicklessCandles candles pair trend maxCandles)
    /\ (trend = RANGING ->
          scanForWicklessCandles candles pair trend maxCandles = [])
    /\ (maxCandles = 0 ->
          scanForWicklessCandles candles pair trend maxCandles = []).
Proof.
  intros candles pair trend maxCandles.
  assert (Hin : forall i r,
    In (i, r) (scanForWicklessCandles candles pair trend maxCandles) <->
    length candles - maxCandles <= i
    /\ exists c,
         nth_error candles i = Some c
         /\ c_complete c = true
         /\ r = detectWickless c pair trend
         /\ wr_isValid r = true).
  { intros i r. unfold scanForWicklessCandles. cbv zeta.
    rewrite collectWickless_In. split.
    - intros (Hk & c & Hn & Hrest). split; [exact Hk |]. exists c.
      rewrite nth_error_skipn in Hn.
      replace (length candles - maxCandles
               + (i - (length candles - maxCandles))) with i in Hn by lia.
      split; assumption.
    - intros (Hk & c & Hn & Hrest). split; [exact Hk |]. exists c.
      rewrite nth_error_skipn.
      replace (length candles - maxCandles
               + (i - (length candles - maxCandles))) with i by lia.
      split; assumption. }
  split; [exact Hin |].
  split; [apply collectWickless_sorted |].
  split.
  - intros ->.
    destruct (scanForWicklessCandles candles pair RANGING maxCandles)
      as [| [i r] rest] eqn:E; [reflexivity | exfalso].
    assert (H : In (i, r) ((i, r) :: rest)) by now left.
    apply Hin in H. destruct H as (_ & c & _ & _ & Hr & Hv).
    rewrite Hr in Hv. discriminate.
  - intros ->. unfold scanForWicklessCandles. cbv zeta.
    rewrite Nat.sub_0_r, skipn_all. reflexivity.
Qed.

(** ** Candle helpers *)

Lemma getLatestCompleteCandle_lastOrNull :
  forall candles,
    getLatestCompleteCandle candles = lastOrNull (getCompleteCandles candles).
Proof.
  induction candles as [| x pre IH] using rev_ind; [reflexivity |].
  rewrite getLatestCompleteCandle_app. unfold getCompleteCandles in *.
  rewrite filter_app. cbn [filter].
  destruct (c_complete x).
  - rewrite lastOrNull_app. reflexivity.
  - rewrite app_nil_r. exact IH.
Qed.

(** X15. The backward loop of [getLatestCompleteCandle] returns the last
    element of [getCompleteCandles], null when there is none.
    [getCandleFromEnd] returns that same candle for index -1 and, for
    [-n <= index < 0] with [n] complete candles, a complete candle of the
    list; for an index below [-n] it returns null; for an index of 0 or
    more it reads past the end of the array and returns undefined, not
    null. *)
Theorem getCandleFromEnd_range :
  forall candles : list Candle,
    let complete := getCompleteCandles candles in
    let n := Z.of_nat (length complete) in
    getLatestCompleteCandle candles = lastOrNull complete
    /\ getCandleFromEnd candles (-1) =
         match getLatestCompleteCandle candles with
         | Some c => Value c
         | None => Null
         end
    /\ (forall index, (0 <= index)%Z ->
          getCandleFromEnd candles index = Undefined)
    /\ (forall index, (index < - n)%Z ->
          getCandleFromEnd candles index = Null)
    /\ (forall index, (- n <= index < 0)%Z ->
          exists c,
            getCandleFromEnd candles index = Value c
            /\ nth_error complete (Z.to_nat (n + index)) = Some c
            /\ In c candles /\ c_complete c = true).
Proof.
  intros candles complete n.
  split; [apply getLatestCompleteCandle_lastOrNull |].
  split.
  { rewrite getLatestCompleteCandle_lastOrNull. fold complete.
    unfold getCandleFromEnd, lastOrNull. fold complete. cbv zeta.
    destruct (length complete) as [| k] eqn:Hlen; [reflexivity |].
    replace (0 <=? Z.of_nat (S k) + -1)%Z with true
      by (symmetry; apply Z.leb_le; lia).
    replace (Z.to_nat (Z.of_nat (S k) + -1)) with k by lia.
    cbn [Nat.ltb Nat.leb]. replace (S k - 1) with k by lia.
    destruct (nth_error complete k) eqn:Hk; [reflexivity |].
    apply nth_error_None in Hk. lia. }
  split.
  { intros index Hi. unfold getCandleFromEnd. fold complete. cbv zeta.
    replace (0 <=? Z.of_nat (length complete) + index)%Z with true
      by (symmetry; apply Z.leb_le; lia).
    destruct (nth_error complete
                (Z.to_nat (Z.of_nat (length complete) + index))) eqn:Hk;
      [| reflexivity].
    assert (Hlt : Z.to_nat (Z.of_nat (length complete) + index)
                  < length complete)
      by (apply nth_error_Some; rewrite Hk; discriminate).
    lia. }
  split.
  { intros index Hi. unfold getCandleFromEnd. fold complete. cbv zeta.
    replace (0 <=? Z.of_nat (length complete) + index)%Z with false
      by (symmetry; apply Z.leb_gt; unfold n in Hi; lia).
    reflexivity. }
  intros index Hi. unfold getCandleFromEnd. fold complete. cbv zeta.
  fold n.
  replace (0 <=? n + index)%Z with true by (symmetry; apply Z.leb_le; lia).
  destruct (nth_error complete (Z.to_nat (n + index))) as [c |] eqn:Hk.
  - exists c. split; [reflexivity |]. split; [reflexivity |].
    apply nth_error_In in Hk. unfold complete, getCompleteCandles in Hk.
    apply filter_In in Hk. exact Hk.
  - apply nth_error_None in Hk. unfold n in *. lia.
Qed.

(** X16. With the minutes, seconds and milliseconds a clock can show,
    [getTimeUntilNextClose] returns the length of the interval minus the
    time elapsed since the last multiple of the interval within the
    hour, plus one second: the seconds and the milliseconds are each
    rounded up.  The result is never under 1001 ms; it reaches the
    interval plus one second at the top of a period; and for H4, whose
    240 minutes no reading of [getMinutes] can reach, it is always more
    than three hours. *)
Theorem getTimeUntilNextClose_overshoots :
  forall (timeframe : Timeframe) (minutes seconds ms : Z),
    (0 <= minutes < 60)%Z ->
    (0 <= seconds < 60)%Z ->
    (0 <= ms < 1000)%Z ->
    let interval := (intervalMinutes timeframe * 60000)%Z in
    let elapsed :=
      ((minutes mod intervalMinutes timeframe) * 60000
       + seconds * 1000 + ms)%Z in
    let remaining := getTimeUntilNextClose timeframe minutes seconds ms in
    (remaining = interval - elapsed + 1000
     /\ 1000 < remaining <= interval + 1000
     /\ (elapsed = 0 -> remaining = interval + 1000)
     /\ (timeframe = H4 -> 180 * 60000 + 1000 < remaining))%Z.
Proof.
  intros timeframe minutes seconds ms Hm Hs Hms interval elapsed remaining.
  assert (Hpos : (0 < intervalMinutes timeframe)%Z)
    by (destruct timeframe; simpl; lia).
  pose proof (Z.mod_pos_bound minutes (intervalMinutes timeframe) Hpos)
    as Hmod.
  assert (Heq : (remaining = interval - elapsed + 1000)%Z).
  { unfold remaining, getTimeUntilNextClose, interval, elapsed.
    cbv zeta. lia. }
  split; [exact Heq |]. split; [| split].
  - unfold interval, elapsed in *. lia.
  - intros H0. rewrite Heq, H0. lia.
  - intros ->. rewrite Heq. unfold interval, elapsed.
    cbn [intervalMinutes] in *.
    rewrite (Z.mod_small minutes 240) by lia. lia.
Qed.

(** X16 one millisecond before a quarter-hour close: 14 min 59 s 999 ms
    gives 1001 ms. *)
Lemma getTimeUntilNextClose_overshoots_witness :
  (getTimeUntilNextClose M15 14 59 999
   = intervalMinutes M15 * 60000
     - ((14 mod intervalMinutes M15) * 60000 + 59 * 1000 + 999) + 1000
   /\ getTimeUntilNextClose M15 14 59 999 = 1001)%Z.
Proof.
  split; [| reflexivity].
  apply (getTimeUntilNextClose_overshoots M15 14 59 999); lia.
Defined.

(** ** Signal manager: maps updated in place *)

Lemma updateAll_cons :
  forall (V : Type) (f : string -> V -> option V) k v (m : JsMap.t V),
    updateAll f ((k, v) :: m)
    = match f k v with Some v' => [(k, v')] | None => [] end
      ++ updateAll f m.
Proof. reflexivity. Qed.

Lemma updateAll_In_inv :
  forall (V : Type) (f : string -> V -> option V) (m : JsMap.t V) k v',
    In (k, v') (updateAll f m) ->
    exists v, In (k, v) m /\ f k v = Some v'.
Proof.
  intros V f m k v' H. unfold updateAll in H.
  apply in_flat_map in H. destruct H as ([k0 v0] & Hin & H).
  simpl in H. destruct (f k0 v0) as [v1 |] eqn:E; [| destruct H].
  destruct H as [H | []]. injection H as <- <-.
  exists v0. split; assumption.
Qed.

Lemma updateAll_In :
  forall (V : Type) (f : string -> V -> option V) (m : JsMap.t V) k v v',
    In (k, v) m -> f k v = Some v' -> In (k, v') (updateAll f m).
Proof.
  intros V f m k v v' Hin Hf. unfold updateAll.
  apply in_flat_map. exists (k, v). split; [exact Hin |].
  simpl. rewrite Hf. now left.
Qed.

Lemma updateAll_keys_In :
  forall (V : Type) (f : string -> V -> option V) (m : JsMap.t V) k,
    In k (map fst (updateAll f m)) -> In k (map fst m).
Proof.
  intros V f m k H. apply in_map_iff in H.
  destruct H as ([k0 v'] & <- & H).
  apply updateAll_In_inv in H. destruct H as (v & H & _).
  apply in_map_iff. exists (k0, v). split; [reflexivity | exact H].
Qed.

Lemma updateAll_NoDup :
  forall (V : Type) (f : string -> V -> option V) (m : JsMap.t V),
    NoDup (map fst m) -> NoDup (map fst (updateAll f m)).
Proof.
  intros V f m. induction m as [| [k v] m IH]; intros H; [constructor |].
  simpl in H. inversion H as [| ? ? Hk Hm]; subst.
  rewrite updateAll_cons. destruct (f k v); simpl.
  - constructor; [| apply IH, Hm].
    intros Hin. apply Hk. exact (updateAll_keys_In _ _ _ _ Hin).
  - apply IH, Hm.
Qed.

Lemma updateAll_compose :
  forall (V : Type) (f g : string -> V -> option V) (m : JsMap.t V),
    updateAll g (updateAll f m)
    = updateAll (fun k v => match f k v with
                            | Some v' => g k v'
                            | None => None
                            end) m.
Proof.
  intros V f g m. induction m as [| [k v] m IH]; [reflexivity |].
  rewrite !updateAll_cons. unfold updateAll at 1. rewrite flat_map_app.
  fold (updateAll g (updateAll f m)). rewrite IH.
  destruct (f k v) as [v' |]; simpl; [| reflexivity].
  rewrite app_nil_r. reflexivity.
Qed.

Lemma updateAll_ext_in :
  forall (V : Type) (f g : string -> V -> option V) (m : JsMap.t V),
    (forall k v, In (k, v) m -> f k v = g k v) ->
    updateAll f m = updateAll g m.
Proof.
  intros V f g m. induction m as [| [k v] m IH]; intros H; [reflexivity |].
  rewrite !updateAll_cons. rewrite (H k v) by now left.
  rewrite IH; [reflexivity |]. intros k' v' Hin. apply H. now right.
Qed.

Lemma updateAll_unchanged :
  forall (V : Type) (f : string -> V -> option V) (m : JsMap.t V),
    (forall k v, In (k, v) m -> f k v = Some v) -> updateAll f m = m.
Proof.
  intros V f m. induction m as [| [k v] m IH]; intros H; [reflexivity |].
  rewrite updateAll_cons. rewrite (H k v) by now left.
  simpl. rewrite IH; [reflexivity |]. intros k' v' Hin. apply H. now right.
Qed.

Lemma updateAll_Some_keys :
  forall (V : Type) (g : string -> V -> V) (m : JsMap.t V),
    map fst (updateAll (fun k v => Some (g k v)) m) = map fst m.
Proof.
  intros V g m. induction m as [| [k v] m IH]; [reflexivity |].
  rewrite updateAll_cons. simpl. rewrite IH. reflexivity.
Qed.

Lemma values_updateAll :
  forall (V : Type) (f : string -> V -> option V) (g : V -> list V)
         (m : JsMap.t V),
    (forall k v, In (k, v) m ->
       g v = match f k v with Some v' => [v'] | None => [] end) ->
    JsMap.values (updateAll f m) = flat_map g (JsMap.values m).
Proof.
  intros V f g m. unfold JsMap.values.
  induction m as [| [k v] m IH]; intros H; [reflexivity |].
  rewrite updateAll_cons, map_app. simpl.
  rewrite (H k v) by now left.
  rewrite IH by (intros k' v' Hin; apply H; now right).
  destruct (f k v); reflexivity.
Qed.

Lemma key_not_in :
  forall (V : Type) (m : JsMap.t V) k k' (v : V),
    ~ In k (map fst m) -> In (k', v) m -> String.eqb k' k = false.
Proof.
  intros V m k k' v Hk Hin. apply String.eqb_neq. intros ->.
  apply Hk. apply in_map_iff. exists (k, v). split; [reflexivity | exact Hin].
Qed.

Lemma delete_updateAll :
  forall (V : Type) (m : JsMap.t V) k,
    NoDup (map fst m) ->
    JsMap.delete k m
    = updateAll (fun k' v => if String.eqb k' k then None else Some v) m.
Proof.
  intros V m k. induction m as [| [k' v'] m IH]; intros H; [reflexivity |].
  simpl in H. inversion H as [| ? ? Hk Hm]; subst.
  rewrite updateAll_cons. cbn [JsMap.delete].
  destruct (String.eqb k' k) eqn:E.
  - apply String.eqb_eq in E. subst k'. simpl. symmetry.
    apply updateAll_unchanged. intros k0 v0 Hin.
    rewrite (key_not_in _ _ _ _ _ Hk Hin). reflexivity.
  - simpl. rewrite IH by exact Hm. reflexivity.
Qed.

Lemma set_updateAll :
  forall (V : Type) (m : JsMap.t V) k v,
    NoDup (map fst m) ->
    In k (map fst m) ->
    JsMap.set k v m
    = updateAll (fun k' v' => Some (if String.eqb k' k then v else v')) m.
Proof.
  intros V m k v. induction m as [| [k' v'] m IH]; intros H Hin;
    [destruct Hin |].
  simpl in H. inversion H as [| ? ? Hk Hm]; subst.
  rewrite updateAll_cons. cbn [JsMap.set].
  destruct (String.eqb k' k) eqn:E.
  - apply String.eqb_eq in E. subst k'. simpl. f_equal. symmetry.
    apply updateAll_unchanged. intros k0 v0 Hin0.
    rewrite (key_not_in _ _ _ _ _ Hk Hin0). reflexivity.
  - simpl. f_equal. apply IH; [exact Hm |].
    destruct Hin as [Heq | Hin]; [| exact Hin].
    simpl in Heq. subst k'. rewrite String.eqb_refl in E. discriminate.
Qed.

Lemma set_absent :
  forall (V : Type) (m : JsMap.t V) k v,
    ~ In k (map fst m) -> JsMap.set k v m = m ++ [(k, v)].
Proof.
  intros V m k v. induction m as [| [k' v'] m IH]; intros H; [reflexivity |].
  cbn [JsMap.set]. simpl in H.
  destruct (String.eqb k' k) eqn:E.
  - apply String.eqb_eq in E. tauto.
  - simpl. f_equal. apply IH. tauto.
Qed.

Lemma delete_set_same :
  forall (V : Type) (m : JsMap.t V) k v,
    JsMap.delete k (JsMap.set k v m) = JsMap.delete k m.
Proof.
  intros V m k v. induction m as [| [k' v'] m IH].
  - simpl. rewrite String.eqb_refl. reflexivity.
  - cbn [JsMap.set JsMap.delete]. destruct (String.eqb k' k) eqn:E.
    + cbn [JsMap.delete]. rewrite String.eqb_refl. reflexivity.
    + cbn [JsMap.delete]. rewrite E, IH. reflexivity.
Qed.

Lemma fold_delete_updateAll :
  forall (V : Type) (ks : list string) (m : JsMap.t V),
    NoDup (map fst m) ->
    fold_left (fun a k => JsMap.delete k a) ks m
    = updateAll (fun k' v => if existsb (String.eqb k') ks then None
                             else Some v) m.
Proof.
  intros V ks. induction ks as [| k ks IH]; intros m H.
  - simpl. symmetry. apply updateAll_unchanged. reflexivity.
  - cbn [fold_left]. rewrite delete_updateAll by exact H.
    rewrite IH by (apply updateAll_NoDup; exact H).
    rewrite updateAll_compose. apply updateAll_ext_in.
    intros k' v _. cbn [existsb]. destruct (String.eqb k' k); reflexivity.
Qed.

Lemma fold_set_updateAll :
  forall (V : Type) (key : V -> string) (ws : list V) (m : JsMap.t V),
    NoDup (map fst m) ->
    (forall w, In w ws -> In (key w) (map fst m)) ->
    fold_left (fun a w => JsMap.set (key w) w a) ws m
    = updateAll (fun k v => Some (setAll key ws k v)) m.
Proof.
  intros V key ws. induction ws as [| w ws IH]; intros m H Hin.
  - simpl. symmetry. apply updateAll_unchanged. reflexivity.
  - cbn [fold_left].
    rewrite set_updateAll by (try exact H; apply Hin; now left).
    rewrite IH.
    + rewrite updateAll_compose. reflexivity.
    + apply updateAll_NoDup. exact H.
    + intros w' Hw'. rewrite updateAll_Some_keys. apply Hin. now right.
Qed.

Lemma NoDup_fst_unique :
  forall (V : Type) (m : JsMap.t V) k (v v' : V),
    NoDup (map fst m) -> In (k, v) m -> In (k, v') m -> v = v'.
Proof.
  intros V m k v v'. induction m as [| [k0 v0] m IH]; intros H H1 H2;
    [destruct H1 |].
  simpl in H. inversion H as [| ? ? Hk Hm]; subst.
  assert (Hnot : forall x, In (k0, x) m -> False).
  { intros x Hx. apply Hk. apply in_map_iff.
    exists (k0, x). split; [reflexivity | exact Hx]. }
  destruct H1 as [H1 | H1], H2 as [H2 | H2].
  - congruence.
  - injection H1 as -> ->. destruct (Hnot _ H2).
  - injection H2 as -> ->. destruct (Hnot _ H1).
  - exact (IH Hm H1 H2).
Qed.

Lemma wellKeyed_key :
  forall (V : Type) (key : V -> string) (m : JsMap.t V) k v,
    wellKeyed key m -> In (k, v) m -> k = key v.
Proof.
  intros V key m k v [_ H] Hin. rewrite Forall_forall in H.
  exact (H (k, v) Hin).
Qed.

Lemma wellKeyed_value :
  forall (V : Type) (key : V -> string) (m : JsMap.t V) v,
    wellKeyed key m -> In v (JsMap.values m) -> In (key v, v) m.
Proof.
  intros V key m v Hw Hin. unfold JsMap.values in Hin.
  apply in_map_iff in Hin. destruct Hin as ([k v0] & Hv & Hin).
  simpl in Hv. subst v0.
  rewrite <- (wellKeyed_key _ _ _ _ _ Hw Hin). exact Hin.
Qed.

(** In a well keyed map, the identifiers of the values selected by a test
    are the keys of the entries whose value passes the test. *)
Lemma existsb_key_filter :
  forall (V : Type) (key : V -> string) (p : V -> bool) (m : JsMap.t V) k v,
    wellKeyed key m -> In (k, v) m ->
    existsb (String.eqb k) (map key (filter p (JsMap.values m))) = p v.
Proof.
  intros V key p m k v Hw Hin.
  pose proof (wellKeyed_key _ _ _ _ _ Hw Hin) as Hk.
  destruct (p v) eqn:Hp.
  - apply existsb_exists. exists k. split; [| apply String.eqb_refl].
    rewrite Hk. apply in_map. apply filter_In. split; [| exact Hp].
    unfold JsMap.values. apply in_map_iff.
    exists (k, v). split; [reflexivity | exact Hin].
  - destruct (existsb (String.eqb k)
                (map key (filter p (JsMap.values m)))) eqn:E;
      [| reflexivity].
    apply existsb_exists in E. destruct E as (x & Hx & Hkx).
    apply String.eqb_eq in Hkx. subst x.
    apply in_map_iff in Hx. destruct Hx as (v' & Hv' & Hx).
    apply filter_In in Hx. destruct Hx as [Hx Hp'].
    apply (wellKeyed_value _ key) in Hx; [| exact Hw].
    rewrite Hv' in Hx.
    rewrite (NoDup_fst_unique _ _ _ _ _ (proj1 Hw) Hin Hx) in Hp.
    congruence.
Qed.

Lemma setAll_cases :
  forall (V : Type) (key : V -> string) (ws : list V) k (v : V),
    (setAll key ws k v = v
     /\ existsb (String.eqb k) (map key ws) = false)
    \/ (In (setAll key ws k v) ws
        /\ String.eqb k (key (setAll key ws k v)) = true).
Proof.
  intros V key ws k. induction ws as [| w ws IH]; intros v.
  - left. split; reflexivity.
  - cbn [setAll map existsb].
    destruct (IH (if String.eqb k (key w) then w else v)) as [[H1 H2] | [H1 H2]].
    + rewrite H1, H2. destruct (String.eqb k (key w)) eqn:E.
      * right. split; [now left | exact E].
      * left. split; reflexivity.
    + right. split; [now right | exact H2].
Qed.

Lemma recordTriggered_fold :
  forall (generateId nowISOString : nat -> string) (candle : Candle)
         (triggered : list ActiveSetup) (m : SignalManager) (tick : nat)
         (signals : list Signal),
    exists news,
      fold_left (recordTriggered generateId nowISOString candle) triggered
        (m, tick, signals)
      = ({| activeSetups :=
              fold_left (fun a k => JsMap.delete k a) (map as_id triggered)
                (activeSetups m);
            triggeredSignals :=
              fold_left (fun a sg => JsMap.set (sg_id sg) sg a) news
                (triggeredSignals m);
            expiredSetups := expiredSetups m;
            completedSignals := completedSignals m |},
         tick + length triggered, signals ++ news)
      /\ Forall2 (signalOf (c_time candle)) triggered news
      /\ map sg_id news = map generateId (seq tick (length triggered)).
Proof.
  intros generateId nowISOString candle triggered.
  induction triggered as [| s rest IH]; intros m tick signals.
  - exists []. cbn [fold_left map length seq]. rewrite Nat.add_0_r, app_nil_r.
    destruct m. repeat split. constructor.
  - cbn [fold_left].
    destruct (recordTriggered generateId nowISOString candle
                (m, tick, signals) s) as [[m1 tick1] signals1] eqn:E1.
    unfold recordTriggered, createSignal in E1.
    cbv beta iota zeta in E1. injection E1 as <- <- <-.
    match goal with
    | |- context [fold_left _ rest (?m1, ?tick1, ?signals1)] =>
        destruct (IH m1 tick1 signals1) as (news & Heq & Hall & Hids)
    end.
    exists (fst (createSignal generateId nowISOString tick
                   (withProgress s (as_candlesElapsed s) TRIGGERED)
                   (c_time candle)) :: news).
    unfold createSignal. cbn [fst]. split; [| split].
    + rewrite Heq.
      cbn [activeSetups triggeredSignals expiredSetups completedSignals
           setActiveSetups setTriggeredSignals as_id as_pair as_timeframe
           as_direction as_entryZone as_stopLoss as_takeProfit withProgress
           sg_id map fold_left length].
      rewrite delete_set_same, <- app_assoc.
      replace (S tick + length rest) with (tick + S (length rest)) by lia.
      reflexivity.
    + constructor; [| exact Hall]. repeat split.
    + cbn [map length seq sg_id]. rewrite Hids. reflexivity.
Qed.

Lemma recordExpired_fold :
  forall (setups : list ActiveSetup) (m : SignalManager)
         (expired : list ActiveSetup),
    fold_left recordExpired setups (m, expired)
    = ({| activeSetups :=
            fold_left (fun a k => JsMap.delete k a) (map as_id setups)
              (activeSetups m);
          triggeredSignals := triggeredSignals m;
          expiredSetups :=
            expiredSetups m
            ++ map (fun s => withProgress s (as_candlesElapsed s) EXPIRED)
                 setups;
          completedSignals := completedSignals m |},
       expired
       ++ map (fun s => withProgress s (as_candlesElapsed s) EXPIRED) setups).
Proof.
  induction setups as [| s rest IH]; intros m expired.
  - cbn [fold_left map]. rewrite !app_nil_r. destruct m. reflexivity.
  - cbn [fold_left]. unfold recordExpired at 2. cbv beta iota zeta.
    rewrite IH.
    cbn [activeSetups triggeredSignals expiredSetups completedSignals
         setActiveSetups setExpiredSetups as_id withProgress map fold_left].
    rewrite <- !app_assoc. reflexivity.
Qed.

Lemma recordStillActive_fold :
  forall (setups : list ActiveSetup) (m : SignalManager),
    fold_left recordStillActive setups m
    = {| activeSetups :=
           fold_left (fun a w => JsMap.set (as_id w) w a) setups
             (activeSetups m);
         triggeredSignals := triggeredSignals m;
         expiredSetups := expiredSetups m;
         completedSignals := completedSignals m |}.
Proof.
  induction setups as [| s rest IH]; intros m.
  - destruct m. reflexivity.
  - cbn [fold_left]. rewrite IH. reflexivity.
Qed.

Lemma map_as_id_movedTo :
  forall st c setups,
    map as_id (movedTo st c setups)
    = map as_id
        (filter (fun s => isWaiting s
                          && SetupStatus_beq (nextStatus c s) st) setups).
Proof.
  intros st c setups. unfold movedTo.
  rewrite filter_filter_andb, map_map. reflexivity.
Qed.

Lemma closed_setups_as_recorded :
  forall st c setups,
    map (fun s => withProgress s (as_candlesElapsed s) st)
      (movedTo st c setups)
    = movedTo st c setups.
Proof.
  intros st c setups. unfold movedTo. rewrite map_map. reflexivity.
Qed.

Lemma moved_key :
  forall pair timeframe c (m : JsMap.t ActiveSetup) k s st,
    wellKeyed as_id m -> In (k, s) m ->
    existsb (String.eqb k)
      (map as_id
         (movedTo st c (filter (isRelevant pair timeframe) (JsMap.values m))))
    = isRelevant pair timeframe s && SetupStatus_beq (nextStatus c s) st.
Proof.
  intros pair timeframe c m k s st Hw Hin.
  rewrite map_as_id_movedTo, filter_filter_andb.
  rewrite (existsb_key_filter _ as_id _ m k s Hw Hin).
  unfold isRelevant, isWaiting.
  destruct (String.eqb (as_pair s) (pairName pair)),
    (Timeframe_beq (as_timeframe s) timeframe),
    (SetupStatus_beq (as_status s) WAITING),
    (SetupStatus_beq (nextStatus c s) st); reflexivity.
Qed.

Lemma setAll_moved :
  forall pair timeframe c (m : JsMap.t ActiveSetup) k s,
    wellKeyed as_id m -> In (k, s) m ->
    setAll as_id
      (movedTo WAITING c (filter (isRelevant pair timeframe) (JsMap.values m)))
      k s
    = if isRelevant pair timeframe s
         && SetupStatus_beq (nextStatus c s) WAITING
      then advanced WAITING s else s.
Proof.
  intros pair timeframe c m k s Hw Hin.
  pose proof (moved_key pair timeframe c m k s WAITING Hw Hin) as Hex.
  destruct (setAll_cases _ as_id
              (movedTo WAITING c
                 (filter (isRelevant pair timeframe) (JsMap.values m))) k s)
    as [[H1 H2] | [H1 H2]].
  - rewrite H1. rewrite H2 in Hex. rewrite <- Hex. reflexivity.
  - apply movedTo_inv in H1. destruct H1 as (s0 & Hs0 & _ & Hnext & Hw0).
    rewrite Hw0 in *. apply String.eqb_eq in H2.
    change (as_id (advanced WAITING s0)) with (as_id s0) in H2.
    apply filter_In in Hs0. destruct Hs0 as [Hs0 Hrel].
    apply (wellKeyed_value _ as_id) in Hs0; [| exact Hw].
    rewrite <- H2 in Hs0.
    rewrite (NoDup_fst_unique _ _ _ _ _ (proj1 Hw) Hin Hs0).
    rewrite Hrel, Hnext. reflexivity.
Qed.

Lemma values_set_In :
  forall (V : Type) (m : JsMap.t V) k (v x : V),
    In x (JsMap.values (JsMap.set k v m)) ->
    x = v \/ In x (JsMap.values m).
Proof.
  intros V m k v x. unfold JsMap.values.
  induction m as [| [k' v'] m IH]; cbn [JsMap.set map In].
  - intros [H | []]. left. symmetry. exact H.
  - destruct (String.eqb k' k); cbn [map In snd].
    + intros [H | H]; [left; symmetry; exact H | right; right; exact H].
    + intros [H | H]; [right; left; exact H |].
      destruct (IH H) as [H' | H']; [left; exact H' | right; right; exact H'].
Qed.

Lemma values_fold_set_In :
  forall (V : Type) (key : V -> string) (ws : list V) (m : JsMap.t V) (x : V),
    In x (JsMap.values (fold_left (fun a w => JsMap.set (key w) w a) ws m)) ->
    In x ws \/ In x (JsMap.values m).
Proof.
  intros V key ws. induction ws as [| w ws IH]; intros m x H.
  - right. exact H.
  - cbn [fold_left] in H. destruct (IH _ _ H) as [H' | H'].
    + left. now right.
    + apply values_set_In in H'. destruct H' as [-> | H'].
      * left. now left.
      * right. exact H'.
Qed.

(** X17. [processNewCandle] on a manager whose active setups are each
    stored under their own identifier.  The active setups are updated
    where they stand: those of another pair or timeframe, or not WAITING,
    are left as they are; a relevant setup that stays WAITING has its
    count incremented; one that triggers or expires is removed.  The
    expired ones are appended to the expired list; one signal is created
    per triggered setup, in order, copying its levels, with the candle
    time as entry time, a null outcome, and the identifiers of the next
    reads of the generator; no other signal enters the triggered map and
    the completed signals are untouched. *)
Theorem processNewCandle_updates_in_place :
  forall (generateId nowISOString : nat -> string) (m : SignalManager)
         (tick : nat) (pair : Pair) (timeframe : Timeframe) (candle : Candle),
    wellKeyed as_id (activeSetups m) ->
    let out :=
      processNewCandle generateId nowISOString m tick pair timeframe candle in
    let r := fst (fst out) in
    let m' := snd (fst out) in
    let relevant := filter (isRelevant pair timeframe) (getActiveSetups m) in
    getActiveSetups m'
    = flat_map (afterCandle pair timeframe candle) (getActiveSetups m)
    /\ wellKeyed as_id (activeSetups m')
    /\ pr_stillActive r = movedTo WAITING candle relevant
    /\ pr_expired r = movedTo EXPIRED candle relevant
    /\ expiredSetups m' = expiredSetups m ++ pr_expired r
    /\ completedSignals m' = completedSignals m
    /\ Forall2 (signalOf (c_time candle))
         (movedTo TRIGGERED candle relevant) (pr_triggered r)
    /\ map sg_id (pr_triggered r)
       = map generateId (seq tick (length (pr_triggered r)))
    /\ (forall sg, In sg (getTriggeredSignals m') ->
          In sg (pr_triggered r) \/ In sg (getTriggeredSignals m))
    /\ snd out = tick + length (pr_triggered r).
Proof.
  intros generateId nowISOString m tick pair timeframe candle Hw
    out r m' relevant.
  set (final := fun (_ : string) (s : ActiveSetup) =>
                  if isRelevant pair timeframe s then
                    match nextStatus candle s with
                    | WAITING => Some (advanced WAITING s)
                    | _ => None
                    end
                  else Some s).
  destruct (recordTriggered_fold generateId nowISOString candle
              (movedTo TRIGGERED candle relevant) m tick [])
    as (news & Heq & Hall & Hids).
  assert (Hlen : length (movedTo TRIGGERED candle relevant) = length news)
    by exact (Forall2_length Hall).
  assert (Hout :
    out =
    ({| pr_triggered := news;
        pr_expired := movedTo EXPIRED candle relevant;
        pr_stillActive := movedTo WAITING candle relevant |},
     {| activeSetups :=
          fold_left (fun a w => JsMap.set (as_id w) w a)
            (movedTo WAITING candle relevant)
            (fold_left (fun a k => JsMap.delete k a)
               (map as_id (movedTo EXPIRED candle relevant))
               (fold_left (fun a k => JsMap.delete k a)
                  (map as_id (movedTo TRIGGERED candle relevant))
                  (activeSetups m)));
        triggeredSignals :=
          fold_left (fun a sg => JsMap.set (sg_id sg) sg a) news
            (triggeredSignals m);
        expiredSetups := expiredSetups m ++ movedTo EXPIRED candle relevant;
        completedSignals := completedSignals m |},
     tick + length news)).
  { unfold out, processNewCandle.
    change (filter _ (getActiveSetups m)) with relevant.
    rewrite monitorSetups_movedTo.
    cbn [mr_triggered mr_expired mr_stillActive].
    rewrite Heq, recordExpired_fold, recordStillActive_fold.
    cbn [activeSetups triggeredSignals expiredSetups completedSignals app].
    rewrite closed_setups_as_recorded, Hlen. reflexivity. }
  assert (Hactive : activeSetups m' = updateAll final (activeSetups m)).
  { unfold m'. rewrite Hout. cbn [fst snd activeSetups].
    rewrite (fold_delete_updateAll _ _ _ (proj1 Hw)).
    rewrite fold_delete_updateAll by (apply updateAll_NoDup; exact (proj1 Hw)).
    rewrite fold_set_updateAll.
    - rewrite !updateAll_compose. apply updateAll_ext_in.
      intros k s Hin. unfold relevant, getActiveSetups.
      pose proof (setAll_moved pair timeframe candle _ k s Hw Hin) as Hset.
      rewrite !(moved_key pair timeframe candle _ k s _ Hw Hin).
      unfold final.
      destruct (isRelevant pair timeframe s) eqn:Hr,
        (nextStatus candle s) eqn:Hn;
        cbn [andb SetupStatus_beq]; try reflexivity;
        rewrite Hset, ?Hr, ?Hn; reflexivity.
    - do 2 apply updateAll_NoDup. exact (proj1 Hw).
    - intros w Hin. apply movedTo_inv in Hin.
      destruct Hin as (s0 & Hs0 & _ & Hnext & ->).
      apply filter_In in Hs0. destruct Hs0 as [Hs0 Hrel].
      apply (wellKeyed_value _ as_id) in Hs0; [| exact Hw].
      change (as_id (advanced WAITING s0)) with (fst (as_id s0, s0)).
      apply in_map.
      apply (updateAll_In _ _ _ _ s0);
        [apply (updateAll_In _ _ _ _ s0); [exact Hs0 |] |];
        unfold relevant, getActiveSetups;
        rewrite (moved_key pair timeframe candle _ _ s0 _ Hw Hs0);
        rewrite Hrel, Hnext; reflexivity. }
  split.
  { unfold getActiveSetups. rewrite Hactive.
    apply values_updateAll. intros k s _. unfold afterCandle, final.
    destruct (isRelevant pair timeframe s), (nextStatus candle s);
      reflexivity. }
  split.
  { rewrite Hactive. split; [apply updateAll_NoDup; exact (proj1 Hw) |].
    apply Forall_forall. intros [k s'] Hin.
    apply updateAll_In_inv in Hin. destruct Hin as (s & Hin & Hf).
    cbn [fst snd]. rewrite (wellKeyed_key _ _ _ _ _ Hw Hin).
    unfold final in Hf.
    destruct (isRelevant pair timeframe s), (nextStatus candle s);
      try discriminate; injection Hf as <-; reflexivity. }
  unfold r, m'. rewrite Hout.
  cbn [fst snd pr_triggered pr_expired pr_stillActive expiredSetups
       completedSignals].
  repeat split; try assumption.
  - rewrite <- Hlen. exact Hids.
  - intros sg Hin. unfold getTriggeredSignals in *.
    cbn [triggeredSignals] in Hin.
    exact (values_fold_set_In _ sg_id _ _ _ Hin).
Qed.

(** X17 on a manager that holds a USD/JPY setup and a EUR/USD setup: the
    candle of USD/JPY triggers the first and leaves the second. *)
Lemma processNewCandle_updates_in_place_witness :
  wellKeyed as_id (activeSetups twoSetupManager)
  /\ getActiveSetups
       (snd (fst (processNewCandle exampleIds exampleClock twoSetupManager
                    0 USD_JPY M15 retracingCandle)))
     = flat_map (afterCandle USD_JPY M15 retracingCandle)
         (getActiveSetups twoSetupManager)
  /\ flat_map (afterCandle USD_JPY M15 retracingCandle)
       (getActiveSetups twoSetupManager) = [scenarioSetup].
Proof.
  assert (Hw : wellKeyed as_id (activeSetups twoSetupManager)).
  { split; [| repeat constructor].
    repeat constructor; simpl; intuition discriminate. }
  split; [exact Hw |]. split; [| vm_compute; reflexivity].
  apply (processNewCandle_updates_in_place exampleIds exampleClock
           twoSetupManager 0 USD_JPY M15 retracingCandle Hw).
Defined.

Lemma settleSignal_step :
  forall candle m closed s,
    settleSignal candle (m, closed) s
    = if closesOn candle s
      then closeSignal m closed (settledOn candle s)
      else (m, closed).
Proof.
  intros candle m closed s. unfold settleSignal, closesOn, settledOn.
  destruct (checkOutcome (setupOfSignal s) (c_high candle) (c_low candle));
    reflexivity.
Qed.

Lemma sg_id_settledOn :
  forall candle s, sg_id (settledOn candle s) = sg_id s.
Proof.
  intros candle s. unfold settledOn.
  destruct (checkOutcome (setupOfSignal s) (c_high candle) (c_low candle));
    reflexivity.
Qed.

Lemma settleSignal_fold :
  forall candle (signals : list Signal) (m : SignalManager)
         (closed : list Signal),
    fold_left (settleSignal candle) signals (m, closed)
    = ({| activeSetups := activeSetups m;
          triggeredSignals :=
            fold_left (fun a k => JsMap.delete k a)
              (map sg_id (filter (closesOn candle) signals))
              (triggeredSignals m);
          expiredSetups := expiredSetups m;
          completedSignals :=
            completedSignals m
            ++ map (settledOn candle) (filter (closesOn candle) signals) |},
       closed ++ map (settledOn candle) (filter (closesOn candle) signals)).
Proof.
  intros candle signals.
  induction signals as [| s rest IH]; intros m closed.
  - cbn [fold_left filter map]. rewrite !app_nil_r. destruct m. reflexivity.
  - cbn [fold_left filter]. rewrite settleSignal_step.
    destruct (closesOn candle s).
    + unfold closeSignal. rewrite IH.
      cbn [activeSetups triggeredSignals expiredSetups completedSignals
           setCompletedSignals setTriggeredSignals map fold_left].
      rewrite sg_id_settledOn, <- !app_assoc. reflexivity.
    + apply IH.
Qed.

Lemma flat_map_unless :
  forall (A : Type) (p : A -> bool) (l : list A),
    flat_map (fun x => if p x then [] else [x]) l
    = filter (fun x => negb (p x)) l.
Proof.
  intros A p l. induction l as [| x l IH]; [reflexivity |].
  simpl. rewrite IH. destruct (p x); reflexivity.
Qed.

(** X18. [checkSignalOutcomes] on a manager whose triggered signals are
    each stored under their own identifier.  The signals of the pair
    that are still open and that the candle closes leave the triggered
    map; they are returned, and appended to the completed signals, in
    their order, each with outcome WIN or LOSS and the candle time.  All
    other signals stay where they are, and the setups are untouched. *)
Theorem checkSignalOutcomes_moves_closed :
  forall (m : SignalManager) (pair : Pair) (candle : Candle),
    wellKeyed sg_id (triggeredSignals m) ->
    let out := checkSignalOutcomes m pair candle in
    let closed := fst out in
    let m' := snd out in
    let closing s := isOpenFor pair s && closesOn candle s in
    closed = map (settledOn candle) (filter closing (getTriggeredSignals m))
    /\ getTriggeredSignals m'
       = filter (fun s => negb (closing s)) (getTriggeredSignals m)
    /\ completedSignals m' = completedSignals m ++ closed
    /\ activeSetups m' = activeSetups m
    /\ expiredSetups m' = expiredSetups m
    /\ wellKeyed sg_id (triggeredSignals m')
    /\ Forall (fun s => sg_pair s = pairName pair
                        /\ sg_outcomeTime s = Some (c_time candle)
                        /\ (sg_outcome s = Some WIN
                            \/ sg_outcome s = Some LOSS))
         closed.
Proof.
  intros m pair candle Hw out closed m' closing.
  assert (Hout :
    out =
    (map (settledOn candle) (filter closing (getTriggeredSignals m)),
     {| activeSetups := activeSetups m;
        triggeredSignals :=
          fold_left (fun a k => JsMap.delete k a)
            (map sg_id (filter closing (getTriggeredSignals m)))
            (triggeredSignals m);
        expiredSetups := expiredSetups m;
        completedSignals :=
          completedSignals m
          ++ map (settledOn candle)
               (filter closing (getTriggeredSignals m)) |})).
  { unfold out, checkSignalOutcomes. rewrite settleSignal_fold.
    rewrite filter_filter_andb. reflexivity. }
  assert (Htrig :
    triggeredSignals m'
    = updateAll (fun _ s => if closing s then None else Some s)
        (triggeredSignals m)).
  { unfold m'. rewrite Hout. cbn [snd triggeredSignals].
    rewrite (fold_delete_updateAll _ _ _ (proj1 Hw)).
    apply updateAll_ext_in. intros k s Hin. unfold getTriggeredSignals.
    rewrite (existsb_key_filter _ sg_id closing _ k s Hw Hin).
    reflexivity. }
  unfold closed, m' in *. rewrite Hout in *. cbn [fst snd] in *.
  split; [reflexivity |].
  split.
  { unfold getTriggeredSignals in *. rewrite Htrig.
    rewrite <- flat_map_unless. apply values_updateAll.
    intros k s _. destruct (closing s); reflexivity. }
  split; [reflexivity |]. split; [reflexivity |]. split; [reflexivity |].
  split.
  { rewrite Htrig. split; [apply updateAll_NoDup; exact (proj1 Hw) |].
    apply Forall_forall. intros [k s'] Hin.
    apply updateAll_In_inv in Hin. destruct Hin as (s & Hin & Hf).
    destruct (closing s); [discriminate |]. injection Hf as <-.
    exact (wellKeyed_key _ _ _ _ _ Hw Hin). }
  apply Forall_forall. intros x Hx.
  apply in_map_iff in Hx. destruct Hx as (s & <- & Hs).
  apply filter_In in Hs. destruct Hs as [_ Hc].
  unfold closing, isOpenFor in Hc.
  apply andb_prop in Hc. destruct Hc as [Hc _].
  apply andb_prop in Hc. destruct Hc as [Hp _].
  assert (Hpair : sg_pair s = pairName pair)
    by (apply String.eqb_eq; exact Hp).
  unfold settledOn.
  destruct (checkOutcome (setupOfSignal s) (c_high candle) (c_low candle));
    cbn [withOutcome sg_pair sg_outcomeTime sg_outcome];
    repeat split; try assumption; (left; reflexivity) || (right; reflexivity).
Qed.

(** X18 on the open USD/JPY signal of [openSignalManager]: the drifting
    candle reaches its target, and the triggered map is left empty. *)
Lemma checkSignalOutcomes_moves_closed_witness :
  wellKeyed sg_id (triggeredSignals openSignalManager)
  /\ fst (checkSignalOutcomes openSignalManager USD_JPY driftingCandle)
     = map (settledOn driftingCandle)
         (filter (fun s => isOpenFor USD_JPY s && closesOn driftingCandle s)
            (getTriggeredSignals openSignalManager))
  /\ map sg_outcome
       (fst (checkSignalOutcomes openSignalManager USD_JPY driftingCandle))
     = [Some WIN]
  /\ getTriggeredSignals
       (snd (checkSignalOutcomes openSignalManager USD_JPY driftingCandle))
     = [].
Proof.
  assert (Hw : wellKeyed sg_id (triggeredSignals openSignalManager)).
  { split; [| repeat constructor].
    repeat constructor; simpl; intuition discriminate. }
  split; [exact Hw |].
  split; [| split; vm_compute; reflexivity].
  apply (checkSignalOutcomes_moves_closed openSignalManager USD_JPY
           driftingCandle Hw).
Defined.

Lemma fold_set_values :
  forall (V : Type) (key : V -> string) (m acc : JsMap.t V),
    wellKeyed key (acc ++ m) ->
    fold_left (fun a v => JsMap.set (key v) v a) (JsMap.values m) acc
    = acc ++ m.
Proof.
  intros V key m. induction m as [| [k v] m IH]; intros acc Hw.
  - simpl. rewrite app_nil_r. reflexivity.
  - cbn [JsMap.values map fold_left snd].
    destruct Hw as [Hnd Hkeys].
    assert (Hk : k = key v).
    { rewrite Forall_forall in Hkeys.
      apply (Hkeys (k, v)). apply in_or_app. right. now left. }
    assert (Habs : ~ In k (map fst acc)).
    { rewrite map_app in Hnd. cbn [map fst] in Hnd.
      apply NoDup_remove_2 in Hnd. intros Hin. apply Hnd.
      apply in_or_app. left. exact Hin. }
    rewrite <- Hk, (set_absent _ _ _ _ Habs).
    change (fold_left (fun a v0 => JsMap.set (key v0) v0 a)
              (JsMap.values m) (acc ++ [(k, v)])
            = acc ++ (k, v) :: m).
    rewrite IH.
    + rewrite <- app_assoc. reflexivity.
    + rewrite <- app_assoc. split; assumption.
Qed.

Lemma addSetup_fold :
  forall (setups : list ActiveSetup) (m : SignalManager),
    fold_left addSetup setups m
    = {| activeSetups :=
           fold_left (fun a v => JsMap.set (as_id v) v a) setups
             (activeSetups m);
         triggeredSignals := triggeredSignals m;
         expiredSetups := expiredSetups m;
         completedSignals := completedSignals m |}.
Proof.
  induction setups as [| s rest IH]; intros m.
  - destruct m. reflexivity.
  - cbn [fold_left]. rewrite IH. reflexivity.
Qed.

Lemma importSignals_fold :
  forall (signals : list Signal) (m : SignalManager),
    fold_left
      (fun m signal =>
         setTriggeredSignals m
           (JsMap.set (sg_id signal) signal (triggeredSignals m)))
      signals m
    = {| activeSetups := activeSetups m;
         triggeredSignals :=
           fold_left (fun a v => JsMap.set (sg_id v) v a) signals
             (triggeredSignals m);
         expiredSetups := expiredSetups m;
         completedSignals := completedSignals m |}.
Proof.
  induction signals as [| s rest IH]; intros m.
  - destruct m. reflexivity.
  - cbn [fold_left]. rewrite IH. reflexivity.
Qed.

(** X19. Export followed by import is the identity: a manager whose
    setups and signals are each stored under their own identifier is
    restored, entry for entry and in the same order, by importing what it
    exports into a new manager, or into any manager that was cleared. *)
Theorem import_export_round_trip :
  forall m other : SignalManager,
    wellKeyed as_id (activeSetups m) ->
    wellKeyed sg_id (triggeredSignals m) ->
    importData newSignalManager (exportData m) = m
    /\ importData (clear other) (exportData m) = m.
Proof.
  intros m other Ha Ht.
  assert (H : importData newSignalManager (exportData m) = m).
  { unfold importData, exportData.
    cbn [data_activeSetups data_triggeredSignals data_expiredSetups
         data_completedSignals].
    rewrite addSetup_fold, importSignals_fold.
    unfold getActiveSetups, getTriggeredSignals.
    cbn [activeSetups triggeredSignals expiredSetups completedSignals
         newSignalManager setExpiredSetups setCompletedSignals].
    rewrite (fold_set_values _ as_id (activeSetups m) JsMap.empty Ha).
    rewrite (fold_set_values _ sg_id (triggeredSignals m) JsMap.empty Ht).
    destruct m. reflexivity. }
  split; exact H.
Qed.

(** X19 on [openSignalManager], which holds one active setup and one
    open signal. *)
Lemma import_export_round_trip_witness :
  wellKeyed as_id (activeSetups openSignalManager)
  /\ wellKeyed sg_id (triggeredSignals openSignalManager)
  /\ importData newSignalManager (exportData openSignalManager)
     = openSignalManager.
Proof.
  assert (Ha : wellKeyed as_id (activeSetups openSignalManager)).
  { split; [| repeat constructor].
    repeat constructor; simpl; intuition discriminate. }
  assert (Ht : wellKeyed sg_id (triggeredSignals openSignalManager)).
  { split; [| repeat constructor].
    repeat constructor; simpl; intuition discriminate. }
  split; [exact Ha |]. split; [exact Ht |].
  apply (import_export_round_trip openSignalManager newSignalManager Ha Ht).
Defined.

(** ** Scanner *)

Lemma analyzeTrend_classifyTrend :
  forall candles lookback,
    exists a,
      analyzeTrend candles lookback = Ok a
      /\ classifyTrend candles lookback = Ok (ta_trend a).
Proof.
  intros candles lookback. unfold analyzeTrend.
  rewrite findSwingPoints_swingPointsOf. cbn [bind].
  rewrite classifyTrend_of_swings. cbv zeta. cbn [bind].
  destruct (labelLatest _) as [hh lh].
  destruct (labelLatest _) as [hl ll].
  eexists. split; reflexivity.
Qed.

Lemma detectWickless_valid_shape :
  forall candle pair trend,
    wr_isValid (detectWickless candle pair trend) = true ->
    exists direction,
      getAllowedDirection trend = Some direction
      /\ detectWickless candle pair trend
         = {| wr_isValid := true; wr_direction := Some direction;
              wr_entryZone := Some (entryOf direction candle);
              wr_candle := Some candle |}.
Proof.
  intros candle pair trend. unfold detectWickless.
  destruct trend; [| | simpl; discriminate];
    destruct (lt (abs (sub (c_close candle) (c_open candle)))
                (getTolerance pair)); try (simpl; discriminate);
    match goal with
    | |- context [if ?b && ?c then _ else _] => destruct b, c
    end; cbn [andb wr_isValid noSignal]; intros H; try discriminate;
    eexists; split; reflexivity.
Qed.

Lemma Ok_injective :
  forall (A : Type) (a b : A), Ok a = Ok b -> a = b.
Proof. intros A a b H. injection H as H. exact H. Qed.

(** A trend that allows a direction was read off two swing highs and two
    swing lows: the anchor of that direction exists. *)
Lemma trend_has_anchor :
  forall candles lookback trend direction,
    classifyTrend candles lookback = Ok trend ->
    getAllowedDirection trend = Some direction ->
    exists anchor,
      lastOrNull (filter (isType (anchorKind direction))
                    (swingPointsOf candles lookback)) = Some anchor.
Proof.
  intros candles lookback trend direction Hc Hd.
  rewrite classifyTrend_of_swings in Hc. cbv zeta in Hc.
  apply Ok_injective in Hc. subst trend. revert Hd.
  destruct (negb (MIN_SWING_POINTS <=? length (swingPointsOf candles lookback)));
    [cbn [getAllowedDirection]; discriminate |].
  destruct (lastTwo (filter (isType HIGH) (swingPointsOf candles lookback)))
    as [[ph lh] |] eqn:Hh; [| cbn [getAllowedDirection]; discriminate].
  destruct (lastTwo (filter (isType LOW) (swingPointsOf candles lookback)))
    as [[pl ll] |] eqn:Hl; [| cbn [getAllowedDirection]; discriminate].
  intros _.
  apply lastTwo_lastOrNull in Hh. apply lastTwo_lastOrNull in Hl.
  destruct direction; cbn [anchorKind]; eexists; eassumption.
Qed.

Lemma scanPair_detected :
  forall (toFixed : number -> nat -> string)
         (numberToString : number -> string)
         (pair : Pair) (timeframe : Timeframe) (timestamp : string)
         (elapsed : nat) (candles : list Candle),
    let r := scanPair toFixed numberToString pair timeframe timestamp elapsed
               candles in
    let complete := getCompleteCandles candles in
    dsr_wicklessDetected r = true ->
    exists candle direction anchor,
      lastOrNull complete = Some candle
      /\ DEFAULT_MIN_CANDLES <= length complete
      /\ classifyTrend complete SWING_LOOKBACK = Ok (dsr_trend r)
      /\ getAllowedDirection (dsr_trend r) = Some direction
      /\ wr_isValid (detectWickless candle pair (dsr_trend r)) = true
      /\ wicklessResult r = detectWickless candle pair (dsr_trend r)
      /\ dsr_wicklessCandle r = Some candle
      /\ lastOrNull (filter (isType (anchorKind direction))
                       (swingPointsOf complete SWING_LOOKBACK)) = Some anchor
      /\ dsr_setup r
         = Some (setupFrom direction (entryOf direction candle) pair anchor)
      /\ setupValidation r
         = Some (validateSetup toFixed numberToString
                   (setupFrom direction (entryOf direction candle) pair anchor)
                   pair DEFAULT_MIN_PIPS DEFAULT_MAX_PIPS).
Proof.
  intros toFixed numberToString pair timeframe timestamp elapsed candles
    r complete Hdet.
  assert (Hr : r = scanPair toFixed numberToString pair timeframe timestamp
                     elapsed candles) by reflexivity.
  clearbody r.
  unfold scanPair, hasEnoughCandles in Hr. cbv zeta in Hr.
  change (getCompleteCandles candles) with complete in Hr.
  clearbody complete.
  destruct (DEFAULT_MIN_CANDLES <=? length complete) eqn:He;
    cbn [negb] in Hr; [| subst r; discriminate Hdet].
  apply Nat.leb_le in He.
  destruct (analyzeTrend_classifyTrend complete SWING_LOOKBACK)
    as (a & Ha & Hc).
  unfold isTrendTradeable in Hr. rewrite Ha, Hc in Hr. cbn [bind] in Hr.
  assert (Hlast : exists candle, lastOrNull complete = Some candle
                    /\ at_index complete (length complete - 1) = Ok candle).
  { unfold lastOrNull.
    replace (0 <? length complete) with true
      by (symmetry; apply Nat.ltb_lt; unfold DEFAULT_MIN_CANDLES in He; lia).
    destruct (nth_error complete (length complete - 1)) as [c |] eqn:Hn.
    - exists c. split; [reflexivity |]. apply at_index_some. exact Hn.
    - apply nth_error_None in Hn. unfold DEFAULT_MIN_CANDLES in He. lia. }
  destruct Hlast as (candle & Hlast & Hat). rewrite Hat in Hr.
  destruct (match ta_trend a with RANGING => false | _ => true end) eqn:Ht;
    [| subst r; discriminate Hdet].
  destruct (wr_isValid (detectWickless candle pair (ta_trend a))) eqn:Hv;
    cbn [negb] in Hr; [| subst r; discriminate Hdet].
  destruct (detectWickless_valid_shape _ _ _ Hv) as (direction & Hd & Hshape).
  destruct (trend_has_anchor _ _ _ _ Hc Hd) as (anchor & Hanchor).
  rewrite Hd, Hshape in Hr. cbn [wr_entryZone wr_candle] in Hr.
  rewrite calculateTradeSetup_setupFrom, Hanchor in Hr.
  cbn [option_map] in Hr.
  exists candle, direction, anchor. subst r.
  cbn [dsr_trend wicklessResult dsr_wicklessCandle dsr_setup setupValidation].
  repeat split; try assumption; try reflexivity.
  symmetry. exact Hshape.
Qed.

Lemma scanPair_frame :
  forall (toFixed : number -> nat -> string)
         (numberToString : number -> string)
         (pair : Pair) (timeframe : Timeframe) (timestamp : string)
         (elapsed : nat) (candles : list Candle),
    let r := scanPair toFixed numberToString pair timeframe timestamp elapsed
               candles in
    let complete := getCompleteCandles candles in
    candleCount r = length complete
    /\ scanDuration r = elapsed
    /\ dsr_trend r = ta_trend (trendAnalysis r)
    /\ (length complete < DEFAULT_MIN_CANDLES ->
          trendAnalysis r = emptyTrendAnalysis
          /\ dsr_wicklessDetected r = false)
    /\ (DEFAULT_MIN_CANDLES <= length complete ->
          analyzeTrend complete SWING_LOOKBACK = Ok (trendAnalysis r)
          /\ classifyTrend complete SWING_LOOKBACK = Ok (dsr_trend r))
    /\ (dsr_wicklessDetected r = false ->
          dsr_wicklessCandle r = None
          /\ dsr_setup r = None /\ setupValidation r = None).
Proof.
  intros toFixed numberToString pair timeframe timestamp elapsed candles
    r complete.
  assert (Hr : r = scanPair toFixed numberToString pair timeframe timestamp
                     elapsed candles) by reflexivity.
  clearbody r.
  unfold scanPair, hasEnoughCandles in Hr. cbv zeta in Hr.
  change (getCompleteCandles candles) with complete in Hr.
  clearbody complete.
  destruct (DEFAULT_MIN_CANDLES <=? length complete) eqn:He;
    cbn [negb] in Hr.
  2: { apply Nat.leb_gt in He. subst r.
       cbn [candleCount scanDuration dsr_trend trendAnalysis
            dsr_wicklessDetected dsr_wicklessCandle dsr_setup
            setupValidation].
       repeat split; try reflexivity. lia. lia. }
  apply Nat.leb_le in He.
  destruct (analyzeTrend_classifyTrend complete SWING_LOOKBACK)
    as (a & Ha & Hc).
  unfold isTrendTradeable in Hr. rewrite Ha, Hc in Hr. cbn [bind] in Hr.
  assert (Hshape :
    exists detected wickless signalCandle setup validation,
      r = {| dsr_pair := pair; dsr_timeframe := timeframe;
             dsr_trend := ta_trend a; dsr_wicklessDetected := detected;
             dsr_wicklessCandle := signalCandle; dsr_setup := setup;
             dsr_timestamp := timestamp; trendAnalysis := a;
             wicklessResult := wickless; setupValidation := validation;
             candleCount := length complete; scanDuration := elapsed |}
      /\ (detected = false ->
            signalCandle = None /\ setup = None /\ validation = None)).
  { destruct (match ta_trend a with RANGING => false | _ => true end);
      [| do 5 eexists; split; [exact Hr | repeat split]].
    destruct (at_index complete (length complete - 1)) as [lastCandle | msg];
      [| do 5 eexists; split; [exact Hr | repeat split]].
    destruct (wr_isValid (detectWickless lastCandle pair (ta_trend a)));
      cbn [negb] in Hr;
      [| do 5 eexists; split; [exact Hr | repeat split]].
    destruct (getAllowedDirection (ta_trend a)) as [direction |];
      [| do 5 eexists; split; [exact Hr | discriminate]].
    destruct (wr_entryZone (detectWickless lastCandle pair (ta_trend a)))
      as [entryZone |];
      [| do 5 eexists; split; [exact Hr | discriminate]].
    destruct (calculateTradeSetup direction entryZone complete pair)
      as [[setup |] | msg];
      do 5 eexists; (split; [exact Hr | discriminate]). }
  destruct Hshape as (detected & wickless & signalCandle & setup & validation
                      & -> & Hnone).
  cbn [candleCount scanDuration dsr_trend trendAnalysis
       dsr_wicklessDetected dsr_wicklessCandle dsr_setup setupValidation].
  split; [reflexivity |]. split; [reflexivity |]. split; [reflexivity |].
  split; [intros Hlt; lia |].
  split; [intros _; split; assumption | exact Hnone].
Qed.

Lemma lastOrNull_In :
  forall (A : Type) (xs : list A) (x : A), lastOrNull xs = Some x -> In x xs.
Proof.
  intros A xs x H.
  destruct (lastOrNull_cases _ xs) as [[_ Hn] | (pre & a & -> & Hs)].
  - rewrite Hn in H. discriminate.
  - rewrite Hs in H. injection H as <-. apply in_or_app. right. now left.
Qed.

(** X20. [scanPair], from the candles fetched.  The scan reports the
    number of complete candles; with fewer than 50 of them it reports
    nothing else.  With 50 or more its trend is [classifyTrend]'s on the
    complete candles and its analysis [analyzeTrend]'s.  A detection is
    always that of the latest complete candle, in the direction the trend
    allows, and it always comes with a setup and a validation: the trend
    that allowed the direction rests on two swings of the anchoring kind,
    so [calculateTradeSetup] cannot return null.  The setup is entered at
    the low of the signal candle for a BUY and at its high for a SELL.
    Without a detection there is no signal candle, no setup and no
    validation. *)
Theorem scanPair_pipeline :
  forall (toFixed : number -> nat -> string)
         (numberToString : number -> string)
         (pair : Pair) (timeframe : Timeframe) (timestamp : string)
         (elapsed : nat) (candles : list Candle),
    let r := scanPair toFixed numberToString pair timeframe timestamp elapsed
               candles in
    let complete := getCompleteCandles candles in
    candleCount r = length complete
    /\ (length complete < DEFAULT_MIN_CANDLES ->
          trendAnalysis r = emptyTrendAnalysis
          /\ dsr_trend r = RANGING
          /\ dsr_wicklessDetected r = false)
    /\ (DEFAULT_MIN_CANDLES <= length complete ->
          analyzeTrend complete SWING_LOOKBACK = Ok (trendAnalysis r)
          /\ classifyTrend complete SWING_LOOKBACK = Ok (dsr_trend r))
    /\ (dsr_wicklessDetected r = true ->
          exists candle direction setup,
            getLatestCompleteCandle candles = Some candle
            /\ dsr_wicklessCandle r = Some candle
            /\ wicklessResult r = detectWickless candle pair (dsr_trend r)
            /\ wr_isValid (wicklessResult r) = true
            /\ getAllowedDirection (dsr_trend r) = Some direction
            /\ calculateTradeSetup direction (entryOf direction candle)
                 complete pair = Ok (Some setup)
            /\ dsr_setup r = Some setup
            /\ ts_direction setup = direction
            /\ ts_entryZone setup = entryOf direction candle
            /\ setupValidation r
               = Some (validateSetup toFixed numberToString setup pair
                         DEFAULT_MIN_PIPS DEFAULT_MAX_PIPS))
    /\ (dsr_wicklessDetected r = false ->
          dsr_wicklessCandle r = None
          /\ dsr_setup r = None /\ setupValidation r = None).
Proof.
  intros toFixed numberToString pair timeframe timestamp elapsed candles
    r complete.
  destruct (scanPair_frame toFixed numberToString pair timeframe timestamp
              elapsed candles) as (Hcount & _ & Htrend & Hfew & Henough & Hno).
  fold r complete in Hcount, Htrend, Hfew, Henough, Hno.
  split; [exact Hcount |].
  split.
  { intros Hlt. destruct (Hfew Hlt) as [Ha Hd].
    split; [exact Ha |]. split; [| exact Hd].
    rewrite Htrend, Ha. reflexivity. }
  split; [exact Henough |].
  split; [| exact Hno].
  intros Hdet.
  destruct (scanPair_detected toFixed numberToString pair timeframe timestamp
              elapsed candles Hdet)
    as (candle & direction & anchor & Hlast & _ & _ & Hd & Hv & Hw & Hc
        & Hanchor & Hsetup & Hval).
  fold r complete in Hlast, Hd, Hv, Hw, Hc, Hanchor, Hsetup, Hval.
  exists candle, direction,
    (setupFrom direction (entryOf direction candle) pair anchor).
  rewrite getLatestCompleteCandle_lastOrNull.
  split; [exact Hlast |]. split; [exact Hc |]. split; [exact Hw |].
  split; [rewrite Hw; exact Hv |]. split; [exact Hd |].
  split; [rewrite calculateTradeSetup_setupFrom; fold complete;
          rewrite Hanchor; reflexivity |].
  split; [exact Hsetup |].
  split; [destruct direction; reflexivity |].
  split; [destruct direction; reflexivity | exact Hval].
Qed.

(** X21. What [scanMultiplePairs] keeps as a signal is a tradeable
    setup: when the candles have finite highs and lows, a scan result
    that passes its filter carries a setup in the direction the trend
    allows, entered at the low (BUY) or the high (SELL) of the latest
    complete candle, with a risk of at least 5 and at most 50 pips, and
    with stop < entry < target for a BUY, target < entry < stop for a
    SELL. *)
Theorem scanPair_signal_is_ordered :
  forall (toFixed : number -> nat -> string)
         (numberToString : number -> string)
         (pair : Pair) (timeframe : Timeframe) (timestamp : string)
         (elapsed : nat) (candles : list Candle),
    Forall finiteCandle candles ->
    isSignalFound
      (scanPair toFixed numberToString pair timeframe timestamp elapsed
         candles) = true ->
    exists candle direction setup,
      getLatestCompleteCandle candles = Some candle
      /\ getAllowedDirection
           (dsr_trend (scanPair toFixed numberToString pair timeframe
                         timestamp elapsed candles)) = Some direction
      /\ dsr_setup (scanPair toFixed numberToString pair timeframe timestamp
                      elapsed candles) = Some setup
      /\ ts_direction setup = direction
      /\ ts_entryZone setup = entryOf direction candle
      /\ lt (ts_riskPips setup) DEFAULT_MIN_PIPS = false
      /\ gt (ts_riskPips setup) DEFAULT_MAX_PIPS = false
      /\ match direction with
         | BUY => lt (ts_stopLoss setup) (ts_entryZone setup) = true
                  /\ lt (ts_entryZone setup) (ts_takeProfit setup) = true
         | SELL => lt (ts_takeProfit setup) (ts_entryZone setup) = true
                   /\ lt (ts_entryZone setup) (ts_stopLoss setup) = true
         end.
Proof.
  intros toFixed numberToString pair timeframe timestamp elapsed candles
    Hfin Hfound.
  unfold isSignalFound in Hfound.
  apply andb_prop in Hfound. destruct Hfound as [Hfound Hvalid].
  apply andb_prop in Hfound. destruct Hfound as [Hdet _].
  destruct (scanPair_detected toFixed numberToString pair timeframe timestamp
              elapsed candles Hdet)
    as (candle & direction & anchor & Hlast & _ & _ & Hd & _ & _ & _
        & Hanchor & Hsetup & Hval).
  rewrite Hval in Hvalid.
  assert (Hcomplete : Forall finiteCandle (getCompleteCandles candles)).
  { apply Forall_forall. intros c Hc. unfold getCompleteCandles in Hc.
    apply filter_In in Hc. rewrite Forall_forall in Hfin.
    apply Hfin. tauto. }
  assert (Hcandle : finiteCandle candle).
  { rewrite Forall_forall in Hcomplete. apply Hcomplete.
    apply lastOrNull_In. exact Hlast. }
  assert (Hentry : is_finite (entryOf direction candle) = true).
  { destruct Hcandle as [Hh Hl]. destruct direction; assumption. }
  assert (Hprice : is_finite (sp_price anchor) = true).
  { apply (swing_price_finite (getCompleteCandles candles) SWING_LOOKBACK);
      [exact Hcomplete |].
    apply lastOrNull_In in Hanchor. apply filter_In in Hanchor. tauto. }
  destruct (setupFrom_not_nan direction (entryOf direction candle) pair anchor
              Hentry Hprice) as (N1 & N2 & N3).
  rewrite (validateSetup_valid _ _ _ _ _ _ N1 N2 N3) in Hvalid.
  apply andb_prop in Hvalid. destruct Hvalid as [Hband Hbetween].
  unfold riskInBand in Hband. apply andb_prop in Hband.
  destruct Hband as [Hmin Hmax].
  apply negb_true_iff in Hmin. apply negb_true_iff in Hmax.
  exists candle, direction,
    (setupFrom direction (entryOf direction candle) pair anchor).
  rewrite getLatestCompleteCandle_lastOrNull.
  split; [exact Hlast |]. split; [exact Hd |]. split; [exact Hsetup |].
  split; [destruct direction; reflexivity |].
  split; [destruct direction; reflexivity |].
  split; [exact Hmin |]. split; [exact Hmax |].
  unfold entryBetween in Hbetween.
  destruct direction; cbn [setupFrom ts_direction] in Hbetween;
    apply andb_prop in Hbetween; exact Hbetween.
Qed.

(** X21 on the fifty rising EUR/USD candles: the trend is UP, the last
    candle is a wickless bullish candle, and the BUY anchored on the
    swing low of candle 39 risks 20 pips. *)
Lemma scanPair_signal_is_ordered_witness :
  Forall finiteCandle risingCandles
  /\ isSignalFound
       (scanPair (fun _ _ => "20.0"%string) (fun _ => "5"%string)
          EUR_USD M15 "2024-01-02T22:30:00Z" 7 risingCandles) = true
  /\ exists candle direction setup,
       getLatestCompleteCandle risingCandles = Some candle
       /\ getAllowedDirection
            (dsr_trend
               (scanPair (fun _ _ => "20.0"%string) (fun _ => "5"%string)
                  EUR_USD M15 "2024-01-02T22:30:00Z" 7 risingCandles))
          = Some direction
       /\ dsr_setup
            (scanPair (fun _ _ => "20.0"%string) (fun _ => "5"%string)
               EUR_USD M15 "2024-01-02T22:30:00Z" 7 risingCandles)
          = Some setup
       /\ ts_direction setup = direction
       /\ ts_entryZone setup = entryOf direction candle
       /\ lt (ts_riskPips setup) DEFAULT_MIN_PIPS = false
       /\ gt (ts_riskPips setup) DEFAULT_MAX_PIPS = false
       /\ match direction with
          | BUY => lt (ts_stopLoss setup) (ts_entryZone setup) = true
                   /\ lt (ts_entryZone setup) (ts_takeProfit setup) = true
          | SELL => lt (ts_takeProfit setup) (ts_entryZone setup) = true
                    /\ lt (ts_entryZone setup) (ts_stopLoss setup) = true
          end.
Proof.
  assert (Hfin : Forall finiteCandle risingCandles).
  { apply Forall_forall. intros c Hc. unfold risingCandles in Hc.
    apply in_map_iff in Hc. destruct Hc as (i & <- & Hi).
    apply in_seq in Hi.
    do 50 (destruct i as [| i]; [split; vm_compute; reflexivity |]).
    lia. }
  assert (Hfound :
    isSignalFound
      (scanPair (fun _ _ => "20.0"%string) (fun _ => "5"%string)
         EUR_USD M15 "2024-01-02T22:30:00Z" 7 risingCandles) = true)
    by (vm_compute; reflexivity).
  split; [exact Hfin |]. split; [exact Hfound |].
  exact (scanPair_signal_is_ordered
           (fun _ _ => "20.0"%string) (fun _ => "5"%string)
           EUR_USD M15 "2024-01-02T22:30:00Z" 7 risingCandles Hfin Hfound).
Defined.

(** ** Signal manager: invariants *)

Lemma processNewCandle_shape :
  forall (generateId nowISOString : nat -> string) (m : SignalManager)
         (tick : nat) (pair : Pair) (timeframe : Timeframe) (candle : Candle),
    let relevant := filter (isRelevant pair timeframe) (getActiveSetups m) in
    exists news,
      processNewCandle generateId nowISOString m tick pair timeframe candle
      = ({| pr_triggered := news;
            pr_expired := movedTo EXPIRED candle relevant;
            pr_stillActive := movedTo WAITING candle relevant |},
         {| activeSetups :=
              fold_left (fun a w => JsMap.set (as_id w) w a)
                (movedTo WAITING candle relevant)
                (fold_left (fun a k => JsMap.delete k a)
                   (map as_id (movedTo EXPIRED candle relevant))
                   (fold_left (fun a k => JsMap.delete k a)
                      (map as_id (movedTo TRIGGERED candle relevant))
                      (activeSetups m)));
            triggeredSignals :=
              fold_left (fun a sg => JsMap.set (sg_id sg) sg a) news
                (triggeredSignals m);
            expiredSetups :=
              expiredSetups m ++ movedTo EXPIRED candle relevant;
            completedSignals := completedSignals m |},
         tick + length news)
      /\ Forall2 (signalOf (c_time candle))
           (movedTo TRIGGERED candle relevant) news.
Proof.
  intros generateId nowISOString m tick pair timeframe candle relevant.
  destruct (recordTriggered_fold generateId nowISOString candle
              (movedTo TRIGGERED candle relevant) m tick [])
    as (news & Heq & Hall & _).
  exists news. split; [| exact Hall].
  unfold processNewCandle.
  change (filter _ (getActiveSetups m)) with relevant.
  rewrite monitorSetups_movedTo.
  cbn [mr_triggered mr_expired mr_stillActive].
  rewrite Heq, recordExpired_fold, recordStillActive_fold.
  cbn [activeSetups triggeredSignals expiredSetups completedSignals app].
  rewrite closed_setups_as_recorded, (Forall2_length Hall). reflexivity.
Qed.

Lemma values_delete_In :
  forall (V : Type) (m : JsMap.t V) k (x : V),
    In x (JsMap.values (JsMap.delete k m)) -> In x (JsMap.values m).
Proof.
  intros V m k x. unfold JsMap.values.
  induction m as [| [k' v'] m IH]; cbn [JsMap.delete map In snd];
    [tauto |].
  destruct (String.eqb k' k); cbn [map In snd]; [tauto |].
  intros [H | H]; [left; exact H | right; exact (IH H)].
Qed.

Lemma values_fold_delete_In :
  forall (V : Type) (ks : list string) (m : JsMap.t V) (x : V),
    In x (JsMap.values (fold_left (fun a k => JsMap.delete k a) ks m)) ->
    In x (JsMap.values m).
Proof.
  intros V ks. induction ks as [| k ks IH]; intros m x H; [exact H |].
  cbn [fold_left] in H. apply IH in H.
  exact (values_delete_In _ _ _ _ H).
Qed.

Lemma Forall2_In_r :
  forall (A B : Type) (R : A -> B -> Prop) (l : list A) (l' : list B) (y : B),
    Forall2 R l l' -> In y l' -> exists x, In x l /\ R x y.
Proof.
  intros A B R l l' y H. induction H as [| a b l l' Hab _ IH]; intros Hin;
    [destruct Hin |].
  destruct Hin as [<- | Hin].
  - exists a. split; [now left | exact Hab].
  - destruct (IH Hin) as (x & Hx & Hr). exists x. split; [now right | exact Hr].
Qed.

Lemma still_active_is_valid :
  forall c s, nextStatus c s = WAITING ->
              isSetupValid (advanced WAITING s) = true.
Proof.
  intros c s H. unfold nextStatus in H.
  unfold isSetupValid, advanced, isSetupExpired.
  cbn [as_status as_candlesElapsed withProgress SetupStatus_beq andb].
  destruct (setupTriggers c s); [discriminate |].
  destruct (MAX_CANDLES_FOR_ENTRY <=? as_candlesElapsed s + 1);
    [discriminate | reflexivity].
Qed.

Lemma wins_and_losses :
  forall completed : list Signal,
    Forall (fun sg => sg_outcome sg <> None) completed ->
    length (filter (outcomeIs WIN) completed)
    + length (filter (outcomeIs LOSS) completed)
    = length completed.
Proof.
  intros completed H. induction H as [| sg rest Hsg _ IH]; [reflexivity |].
  cbn [filter].
  set (wins := filter (outcomeIs WIN) rest) in *.
  set (losses := filter (outcomeIs LOSS) rest) in *.
  unfold outcomeIs.
  destruct (sg_outcome sg) as [[|] |]; [| | congruence];
    cbn [length]; lia.
Qed.

(** X22. The manager keeps its collections apart.  If the active setups
    are all WAITING with fewer than 10 candles elapsed, the triggered
    signals all open, the expired setups all EXPIRED and the completed
    signals all closed, then the same holds after [processNewCandle],
    after [checkSignalOutcomes], and after [addSetup] of a setup that is
    valid; and [getStats] then counts every completed signal as a win or
    as a loss. *)
Theorem manager_invariant_preserved :
  forall (generateId nowISOString : nat -> string) (m : SignalManager)
         (tick : nat) (pair : Pair) (timeframe : Timeframe) (candle : Candle),
    managerInvariant m ->
    managerInvariant
      (snd (fst (processNewCandle generateId nowISOString m tick pair
                   timeframe candle)))
    /\ managerInvariant (snd (checkSignalOutcomes m pair candle))
    /\ (forall s, isSetupValid s = true -> managerInvariant (addSetup m s))
    /\ stat_wins (getStats m) + stat_losses (getStats m)
       = stat_completedSignals (getStats m).
Proof.
  intros generateId nowISOString m tick pair timeframe candle
    (Hact & Htrig & Hexp & Hdone).
  rewrite Forall_forall in Hact, Htrig.
  split; [| split; [| split]].
  - destruct (processNewCandle_shape generateId nowISOString m tick pair
                timeframe candle) as (news & -> & Hall).
    cbn [fst snd]. unfold managerInvariant, getActiveSetups,
      getTriggeredSignals.
    cbn [activeSetups triggeredSignals expiredSetups completedSignals].
    split; [| split; [| split]].
    + apply Forall_forall. intros x Hx.
      apply values_fold_set_In in Hx. destruct Hx as [Hx | Hx].
      * apply movedTo_inv in Hx. destruct Hx as (s & _ & _ & Hn & ->).
        exact (still_active_is_valid candle s Hn).
      * do 2 apply values_fold_delete_In in Hx. exact (Hact x Hx).
    + apply Forall_forall. intros x Hx.
      apply values_fold_set_In in Hx. destruct Hx as [Hx | Hx].
      * destruct (Forall2_In_r _ _ _ _ _ x Hall Hx) as (s & _ & Hs).
        unfold signalOf in Hs. tauto.
      * exact (Htrig x Hx).
    + apply Forall_app. split; [exact Hexp |].
      apply Forall_forall. intros x Hx.
      apply movedTo_inv in Hx. destruct Hx as (s & _ & _ & _ & ->).
      reflexivity.
    + exact Hdone.
  - unfold checkSignalOutcomes. rewrite settleSignal_fold. cbn [snd].
    unfold managerInvariant, getActiveSetups, getTriggeredSignals.
    cbn [activeSetups triggeredSignals expiredSetups completedSignals].
    split; [| split; [| split]].
    + apply Forall_forall. exact Hact.
    + apply Forall_forall. intros x Hx.
      apply values_fold_delete_In in Hx. exact (Htrig x Hx).
    + exact Hexp.
    + apply Forall_app. split; [exact Hdone |].
      apply Forall_forall. intros x Hx.
      apply in_map_iff in Hx. destruct Hx as (s & <- & _).
      unfold settledOn.
      destruct (checkOutcome (setupOfSignal s) (c_high candle)
                  (c_low candle)); discriminate.
  - intros s Hs. unfold managerInvariant, addSetup, getActiveSetups,
      getTriggeredSignals.
    cbn [activeSetups triggeredSignals expiredSetups completedSignals
         setActiveSetups].
    split; [| split; [| split]]; try assumption.
    + apply Forall_forall. intros x Hx.
      apply values_set_In in Hx. destruct Hx as [-> | Hx];
        [exact Hs | exact (Hact x Hx)].
    + apply Forall_forall. exact Htrig.
  - unfold getStats. cbn [stat_wins stat_losses stat_completedSignals].
    apply wins_and_losses. exact Hdone.
Qed.

(** X22 on [openSignalManager]: one valid setup, one open signal. *)
Lemma manager_invariant_preserved_witness :
  managerInvariant openSignalManager
  /\ managerInvariant
       (snd (checkSignalOutcomes openSignalManager USD_JPY driftingCandle))
  /\ stat_completedSignals
       (getStats
          (snd (checkSignalOutcomes openSignalManager USD_JPY driftingCandle)))
     = 1.
Proof.
  assert (H : managerInvariant openSignalManager).
  { repeat split; repeat constructor. }
  split; [exact H |]. split; [| vm_compute; reflexivity].
  exact (proj1 (proj2 (manager_invariant_preserved exampleIds exampleClock
                         openSignalManager 0 USD_JPY M15 driftingCandle H))).
Defined.

(** ** Backtest scanner *)

Lemma at_index_last :
  forall (A : Type) (xs : list A),
    0 < length xs ->
    exists x, lastOrNull xs = Some x /\ at_index xs (length xs - 1) = Ok x.
Proof.
  intros A xs H. unfold lastOrNull.
  replace (0 <? length xs) with true by (symmetry; apply Nat.ltb_lt; exact H).
  destruct (nth_error xs (length xs - 1)) as [x |] eqn:Hn.
  - exists x. split; [reflexivity |]. apply at_index_some. exact Hn.
  - apply nth_error_None in Hn. lia.
Qed.

Lemma scanHistoricalAt_total :
  forall toFixed numberToString pair timeframe candles elapsed i,
    exists r,
      scanHistoricalAt toFixed numberToString pair timeframe candles
        elapsed i = Ok r.
Proof.
  intros toFixed numberToString pair timeframe candles elapsed i.
  unfold scanHistoricalAt. cbv zeta.
  set (complete := filter c_complete (firstn (i + 1) candles)).
  destruct (length complete <? 20) eqn:Hlen; [eexists; reflexivity |].
  apply Nat.ltb_ge in Hlen.
  destruct (analyzeTrend_classifyTrend complete SWING_LOOKBACK)
    as (a & Ha & _).
  rewrite Ha. cbn [bind].
  destruct (at_index_last _ complete) as (last & _ & Hat); [lia |].
  rewrite Hat. cbn [bind].
  destruct (ta_trend a); try (eexists; reflexivity);
    destruct (wr_isValid _); try (eexists; reflexivity);
    cbn [getAllowedDirection];
    destruct (wr_entryZone _); try (eexists; reflexivity);
    rewrite calculateTradeSetup_setupFrom; cbn [bind];
    destruct (option_map _ _); eexists; reflexivity.
Qed.

Lemma scanHistoricalLoop_flat_map :
  forall toFixed numberToString pair timeframe candles elapsed indices
         results,
    scanHistoricalLoop toFixed numberToString pair timeframe candles elapsed
      indices results
    = Ok (results
          ++ flat_map
               (fun i =>
                  match scanHistoricalAt toFixed numberToString pair
                          timeframe candles (elapsed i) i with
                  | Ok (Some r) => [r]
                  | _ => []
                  end) indices).
Proof.
  intros toFixed numberToString pair timeframe candles elapsed indices.
  induction indices as [| i rest IH]; intros results.
  - simpl. rewrite app_nil_r. reflexivity.
  - cbn [scanHistoricalLoop flat_map].
    destruct (scanHistoricalAt_total toFixed numberToString pair timeframe
                candles (elapsed i) i) as (r & Hr).
    rewrite Hr. cbn [bind]. rewrite IH.
    destruct r; [rewrite <- app_assoc |]; reflexivity.
Qed.

(** At an index whose slice holds 50 complete candles or more, the pass
    of the backtest returns what [scanPair] returns for the slice. *)
Lemma scanHistoricalAt_scanPair :
  forall toFixed numberToString pair timeframe candles elapsed i last,
    DEFAULT_MIN_CANDLES
    <= length (getCompleteCandles (firstn (i + 1) candles)) ->
    getLatestCompleteCandle (firstn (i + 1) candles) = Some last ->
    scanHistoricalAt toFixed numberToString pair timeframe candles elapsed i
    = Ok (Some (scanPair toFixed numberToString pair timeframe (c_time last)
                  elapsed (firstn (i + 1) candles))).
Proof.
  intros toFixed numberToString pair timeframe candles elapsed i last
    Hlen Hlast.
  rewrite getLatestCompleteCandle_lastOrNull in Hlast.
  unfold scanHistoricalAt, scanPair, hasEnoughCandles, getCompleteCandles
    in *.
  cbv zeta.
  set (complete := filter c_complete (firstn (i + 1) candles)) in *.
  unfold DEFAULT_MIN_CANDLES in *.
  replace (length complete <? 20) with false
    by (symmetry; apply Nat.ltb_ge; lia).
  replace (50 <=? length complete) with true
    by (symmetry; apply Nat.leb_le; lia).
  cbn [negb].
  destruct (analyzeTrend_classifyTrend complete SWING_LOOKBACK)
    as (a & Ha & Hc).
  unfold isTrendTradeable. rewrite Ha, Hc. cbn [bind].
  destruct (at_index_last _ complete) as (last' & Hlast' & Hat); [lia |].
  rewrite Hlast in Hlast'. injection Hlast' as <-.
  rewrite Hat. cbn [bind].
  destruct (ta_trend a); try reflexivity;
    destruct (wr_isValid _); cbn [negb getAllowedDirection];
      try reflexivity;
    destruct (wr_entryZone _); try reflexivity;
    rewrite calculateTradeSetup_setupFrom; cbn [bind];
    destruct (option_map _ _); reflexivity.
Qed.

(** X23. [scanHistorical] never throws and returns, in order of index,
    one result for every index [i] from [startIndex] on whose slice
    [candles.slice(0, i + 1)] holds at least 20 complete candles; the
    result counts the complete candles of the slice.  Where the slice
    holds 50 complete candles or more, the pass at [i] computes what the
    body of [scanPair] computes once it has fetched exactly that slice,
    with the time of the latest complete candle of the slice as
    timestamp.  Nothing is said of the candles that a live scan fetches:
    the slice is the whole history up to [i]. *)
Theorem scanHistorical_scans_each_prefix :
  forall (toFixed : number -> nat -> string)
         (numberToString : number -> string)
         (pair : Pair) (timeframe : Timeframe) (candles : list Candle)
         (startIndex : nat) (elapsed : nat -> nat),
    exists results,
      scanHistorical toFixed numberToString pair timeframe candles startIndex
        elapsed = Ok results
      /\ results
         = flat_map
             (fun i =>
                match scanHistoricalAt toFixed numberToString pair timeframe
                        candles (elapsed i) i with
                | Ok (Some r) => [r]
                | _ => []
                end)
             (seq startIndex (length candles - startIndex))
      /\ (forall i,
            (length (getCompleteCandles (firstn (i + 1) candles)) < 20 ->
               scanHistoricalAt toFixed numberToString pair timeframe
                 candles (elapsed i) i = Ok None)
            /\ (20 <= length (getCompleteCandles (firstn (i + 1) candles)) ->
                  exists r,
                    scanHistoricalAt toFixed numberToString pair timeframe
                      candles (elapsed i) i = Ok (Some r)
                    /\ candleCount r
                       = length (getCompleteCandles (firstn (i + 1) candles))))
      /\ (forall i last,
            DEFAULT_MIN_CANDLES
            <= length (getCompleteCandles (firstn (i + 1) candles)) ->
            getLatestCompleteCandle (firstn (i + 1) candles) = Some last ->
            scanHistoricalAt toFixed numberToString pair timeframe candles
              (elapsed i) i
            = Ok (Some (scanPair toFixed numberToString pair timeframe
                          (c_time last) (elapsed i)
                          (firstn (i + 1) candles)))).
Proof.
  intros toFixed numberToString pair timeframe candles startIndex elapsed.
  eexists. split; [| split; [reflexivity | split]].
  - unfold scanHistorical.
    destruct (length candles <? startIndex) eqn:Hlen.
    + apply Nat.ltb_lt in Hlen.
      replace (length candles - startIndex) with 0 by lia. reflexivity.
    + rewrite scanHistoricalLoop_flat_map. reflexivity.
  - intros i. unfold scanHistoricalAt, getCompleteCandles. cbv zeta.
    set (complete := filter c_complete (firstn (i + 1) candles)).
    split; intros Hlen.
    + replace (length complete <? 20) with true
        by (symmetry; apply Nat.ltb_lt; exact Hlen).
      reflexivity.
    + replace (length complete <? 20) with false
        by (symmetry; apply Nat.ltb_ge; exact Hlen).
      destruct (analyzeTrend_classifyTrend complete SWING_LOOKBACK)
        as (a & Ha & _).
      rewrite Ha. cbn [bind].
      destruct (at_index_last _ complete) as (last & _ & Hat); [lia |].
      rewrite Hat. cbn [bind].
      destruct (ta_trend a); try (eexists; split; reflexivity);
        destruct (wr_isValid _); try (eexists; split; reflexivity);
        cbn [getAllowedDirection];
        destruct (wr_entryZone _); try (eexists; split; reflexivity);
        rewrite calculateTradeSetup_setupFrom; cbn [bind];
        destruct (option_map _ _); eexists; split; reflexivity.
  - intros i last Hlen Hlast.
    exact (scanHistoricalAt_scanPair _ _ _ _ _ _ _ _ Hlen Hlast).
Qed.

(** The backtest on the fifty rising candles, started at the last index:
    one result, what the body of [scanPair] makes of the fifty candles. *)
Example scanHistorical_on_rising_candles :
  exists r,
    scanHistorical (fun _ _ => "20.0"%string) (fun _ => "5"%string)
      EUR_USD M15 risingCandles 49 (fun _ => 7) = Ok [r]
    /\ r = scanPair (fun _ _ => "20.0"%string) (fun _ => "5"%string)
             EUR_USD M15 (natToString 49) 7 risingCandles
    /\ isSignalFound r = true.
Proof.
  eexists. split; [vm_compute; reflexivity |].
  split; vm_compute; reflexivity.
Qed.

(** A history of 150 candles: the pass at the last index sees the swings
    of the first fifty and finds an up-trend, where the body of
    [scanPair] on the last [CANDLES_TO_FETCH] candles alone, which hold
    no swing, finds none. *)
Example scanHistorical_sees_the_whole_history :
  length longHistory = 150
  /\ (exists r,
        scanHistoricalAt (fun _ _ => "20.0"%string) (fun _ => "5"%string)
          EUR_USD M15 longHistory 7 149 = Ok (Some r)
        /\ dsr_trend r = UP)
  /\ dsr_trend
       (scanPair (fun _ _ => "20.0"%string) (fun _ => "5"%string)
          EUR_USD M15 (natToString 149) 7
          (sliceLast CANDLES_TO_FETCH longHistory))
     = RANGING.
Proof.
  split; [reflexivity |].
  split; [eexists; split; vm_compute; reflexivity |].
  vm_compute. reflexivity.
Qed.

(** ** Signal manager: new setups *)

Lemma In_values_set :
  forall (V : Type) (m : JsMap.t V) k (v : V),
    In v (JsMap.values (JsMap.set k v m)).
Proof.
  intros V m k v. unfold JsMap.values.
  induction m as [| [k' v'] m IH]; cbn [JsMap.set map In snd];
    [now left |].
  destruct (String.eqb k' k); cbn [map In snd]; [now left | right; exact IH].
Qed.

(** X24. [createActiveSetup] returns null, without reading the clock,
    exactly when the scan result lacks a detection, a signal candle or a
    setup.  Otherwise it reads the generator once and returns a setup
    that is valid for monitoring (WAITING, no candle elapsed), that the
    next [processNewCandle] of the scanned pair and timeframe will take
    up, and that, once added, makes [hasExistingSetup] answer true for
    the pair and the time of the signal candle. *)
Theorem created_setup_is_monitored :
  forall (generateId nowISOString : nat -> string) (tick : nat)
         (scanResult : ScanResult) (m : SignalManager),
    let out := createActiveSetup generateId nowISOString tick scanResult in
    (fst out = None <->
       wicklessDetected scanResult = false
       \/ wicklessCandle scanResult = None
       \/ scan_setup scanResult = None)
    /\ (fst out = None -> snd out = tick)
    /\ (forall s, fst out = Some s ->
          snd out = S tick
          /\ as_id s = generateId tick
          /\ isSetupValid s = true
          /\ isRelevant (scan_pair scanResult) (scan_timeframe scanResult) s
             = true
          /\ In s (getActiveSetups (addSetup m s))
          /\ exists candle setup,
               wicklessCandle scanResult = Some candle
               /\ scan_setup scanResult = Some setup
               /\ as_signalCandleTime s = c_time candle
               /\ as_direction s = ts_direction setup
               /\ as_entryZone s = ts_entryZone setup
               /\ as_stopLoss s = ts_stopLoss setup
               /\ as_takeProfit s = ts_takeProfit setup
               /\ hasExistingSetup (addSetup m s) (scan_pair scanResult)
                    (c_time candle) = true).
Proof.
  intros generateId nowISOString tick scanResult m out.
  unfold out, createActiveSetup.
  destruct (wicklessDetected scanResult);
    destruct (wicklessCandle scanResult) as [candle |];
    destruct (scan_setup scanResult) as [setup |]; cbn [fst snd];
    (split; [split; [intros H; try discriminate; tauto
                    | intros [H | [H | H]]; try discriminate; reflexivity] |]);
    (split; [intros H; try discriminate; reflexivity |]);
    intros s Hs; try discriminate.
  injection Hs as <-.
  cbn [as_id as_signalCandleTime as_direction as_entryZone as_stopLoss
       as_takeProfit].
  split; [reflexivity |]. split; [reflexivity |].
  split; [reflexivity |].
  split.
  { unfold isRelevant. cbn [as_pair as_timeframe as_status].
    rewrite String.eqb_refl, Timeframe_beq_refl. reflexivity. }
  split; [apply In_values_set |].
  exists candle, setup. repeat split.
  unfold hasExistingSetup. apply existsb_exists.
  eexists. split; [apply In_values_set |].
  cbn [as_pair as_signalCandleTime].
  rewrite !String.eqb_refl. reflexivity.
Qed.

(** ** Signal manager: statistics *)

Lemma count_over_pairs :
  forall (A : Type) (pairOf : A -> string) (f : A -> bool) (l : list A),
    overPairs
      (fun pair =>
         length
           (filter f
              (filter (fun x => String.eqb (pairOf x) (pairName pair)) l)))
    = length (filter f (filter (fun x => isPairName (pairOf x)) l)).
Proof.
  intros A pairOf f l. unfold overPairs, allPairs. cbn [fold_right pairName].
  induction l as [| x l IH]; [reflexivity |].
  cbn [filter]. unfold isPairName at 1, allPairs. cbn [existsb pairName].
  set (name := pairOf x). clearbody name.
  destruct (String.eqb name "EUR_USD") eqn:E1;
    [apply String.eqb_eq in E1; subst name; cbn [String.eqb Ascii.eqb Bool.eqb orb filter];
     destruct (f x); cbn [length]; lia |].
  destruct (String.eqb name "GBP_USD") eqn:E2;
    [apply String.eqb_eq in E2; subst name; cbn [String.eqb Ascii.eqb Bool.eqb orb filter];
     destruct (f x); cbn [length]; lia |].
  destruct (String.eqb name "AUD_USD") eqn:E3;
    [apply String.eqb_eq in E3; subst name; cbn [String.eqb Ascii.eqb Bool.eqb orb filter];
     destruct (f x); cbn [length]; lia |].
  destruct (String.eqb name "USD_JPY") eqn:E4;
    [apply String.eqb_eq in E4; subst name; cbn [String.eqb Ascii.eqb Bool.eqb orb filter];
     destruct (f x); cbn [length]; lia |].
  destruct (String.eqb name "XAU_USD") eqn:E5;
    [apply String.eqb_eq in E5; subst name; cbn [String.eqb Ascii.eqb Bool.eqb orb filter];
     destruct (f x); cbn [length]; lia |].
  cbn [orb]. exact IH.
Qed.

Lemma filter_length_le :
  forall (A : Type) (f : A -> bool) (l : list A),
    length (filter f l) <= length l.
Proof.
  intros A f l. induction l as [| x l IH]; [apply Nat.le_refl |].
  cbn [filter]. destruct (f x); cbn [length]; lia.
Qed.

Lemma filter_filter_length_le :
  forall (A : Type) (f g : A -> bool) (l : list A),
    length (filter f (filter g l)) <= length (filter f l).
Proof.
  intros A f g l. induction l as [| x l IH]; [apply Nat.le_refl |].
  cbn [filter]. destruct (g x); cbn [filter]; destruct (f x); cbn [length]; lia.
Qed.

Lemma filter_all :
  forall (A : Type) (g : A -> bool) (l : list A),
    Forall (fun x => g x = true) l -> filter g l = l.
Proof.
  intros A g l H. induction H as [| x l Hx _ IH]; [reflexivity |].
  cbn [filter]. rewrite Hx, IH. reflexivity.
Qed.

Lemma filter_true :
  forall (A : Type) (l : list A), filter (fun _ => true) l = l.
Proof.
  intros A l. apply filter_all. apply Forall_forall. intros; reflexivity.
Qed.

(** X25. The statistics per pair against the statistics of the manager.
    A stored signal or setup carries its pair as a string.  The wins,
    losses and expired counts of any one pair, and their sums over the
    five pairs, are at most the wins, losses and expired setups of
    [getStats]; the sums are equal to them when every completed signal
    and every expired setup carries the name of one of the five pairs.
    A pair, and a manager, without a win or a loss has a win rate of 0
    (there is no division by zero). *)
Theorem stats_per_pair_add_up :
  forall m : SignalManager,
    (forall pair,
       ps_wins (getStatsForPair m pair) <= stat_wins (getStats m)
       /\ ps_losses (getStatsForPair m pair) <= stat_losses (getStats m)
       /\ ps_expired (getStatsForPair m pair)
          <= stat_expiredSetups (getStats m))
    /\ overPairs (fun pair => ps_wins (getStatsForPair m pair))
       <= stat_wins (getStats m)
    /\ overPairs (fun pair => ps_losses (getStatsForPair m pair))
       <= stat_losses (getStats m)
    /\ overPairs (fun pair => ps_expired (getStatsForPair m pair))
       <= stat_expiredSetups (getStats m)
    /\ (Forall (fun s => isPairName (sg_pair s) = true) (completedSignals m) ->
        overPairs (fun pair => ps_wins (getStatsForPair m pair))
        = stat_wins (getStats m)
        /\ overPairs (fun pair => ps_losses (getStatsForPair m pair))
           = stat_losses (getStats m))
    /\ (Forall (fun s => isPairName (as_pair s) = true) (expiredSetups m) ->
        overPairs (fun pair => ps_expired (getStatsForPair m pair))
        = stat_expiredSetups (getStats m))
    /\ (stat_wins (getStats m) + stat_losses (getStats m) = 0 ->
          stat_winRate (getStats m) = ofZ 0
          /\ forall pair, ps_winRate (getStatsForPair m pair) = ofZ 0).
Proof.
  intros m.
  pose proof (count_over_pairs _ sg_pair (outcomeIs WIN) (completedSignals m))
    as Hw.
  pose proof (count_over_pairs _ sg_pair (outcomeIs LOSS) (completedSignals m))
    as Hl.
  pose proof (count_over_pairs _ as_pair (fun _ => true) (expiredSetups m))
    as Hexp.
  rewrite filter_true in Hexp.
  assert (Hx : forall pair,
    filter (fun _ : ActiveSetup => true)
      (filter (fun s => String.eqb (as_pair s) (pairName pair))
         (expiredSetups m))
    = filter (fun s => String.eqb (as_pair s) (pairName pair))
        (expiredSetups m)) by (intros; apply filter_true).
  assert (Hexp' :
    overPairs
      (fun pair =>
         length (filter (fun s => String.eqb (as_pair s) (pairName pair))
                   (expiredSetups m)))
    = length (filter (fun s => isPairName (as_pair s)) (expiredSetups m))).
  { rewrite <- Hexp. unfold overPairs, allPairs. cbn [fold_right].
    rewrite !Hx. reflexivity. }
  assert (Hle : forall pair,
    ps_wins (getStatsForPair m pair) <= stat_wins (getStats m)
    /\ ps_losses (getStatsForPair m pair) <= stat_losses (getStats m)
    /\ ps_expired (getStatsForPair m pair)
       <= stat_expiredSetups (getStats m)).
  { intros pair. unfold getStatsForPair, getStats.
    cbn [ps_wins ps_losses ps_expired stat_wins stat_losses
         stat_expiredSetups].
    split; [apply filter_filter_length_le |].
    split; [apply filter_filter_length_le | apply filter_length_le]. }
  unfold getStatsForPair, getStats in *.
  cbn [ps_wins ps_losses ps_expired ps_winRate stat_wins stat_losses
       stat_expiredSetups stat_winRate] in *.
  split; [exact Hle |].
  split; [rewrite Hw; apply filter_filter_length_le |].
  split; [rewrite Hl; apply filter_filter_length_le |].
  split; [rewrite Hexp'; apply filter_length_le |].
  split.
  { intros Hall. rewrite Hw, Hl, (filter_all _ _ _ Hall).
    split; reflexivity. }
  split.
  { intros Hall. rewrite Hexp', (filter_all _ _ _ Hall). reflexivity. }
  intros Hzero. rewrite Hzero. split; [reflexivity |].
  intros pair. destruct (Hle pair) as (H1 & H2 & _).
  replace (length
             (filter (outcomeIs WIN)
                (filter (fun s => String.eqb (sg_pair s) (pairName pair))
                   (completedSignals m)))
           + length
               (filter (outcomeIs LOSS)
                  (filter (fun s => String.eqb (sg_pair s) (pairName pair))
                     (completedSignals m)))) with 0 by lia.
  reflexivity.
Qed.

(** X25 on the manager left by the candle that closes the USD/JPY
    signal of [openSignalManager]: its one completed signal is a win of
    USD/JPY, and the wins over the five pairs sum to the one win. *)
Lemma stats_per_pair_add_up_witness :
  Forall (fun s => isPairName (sg_pair s) = true)
    (completedSignals closedSignalManager)
  /\ stat_wins (getStats closedSignalManager) = 1
  /\ overPairs (fun pair => ps_wins (getStatsForPair closedSignalManager pair))
     = stat_wins (getStats closedSignalManager).
Proof.
  assert (Hall : Forall (fun s => isPairName (sg_pair s) = true)
                   (completedSignals closedSignalManager)).
  { vm_compute. repeat constructor. }
  split; [exact Hall |]. split; [vm_compute; reflexivity |].
  exact (proj1 (proj1 (proj2 (proj2 (proj2 (proj2
           (stats_per_pair_add_up closedSignalManager))))) Hall)).
Defined.

(** A completed signal of another pair, as [importData] accepts it from
    stored data, counts in [getStats] and for none of the five pairs. *)
Example stats_of_a_foreign_pair :
  let m :=
    importData newSignalManager
      {| data_activeSetups := None; data_triggeredSignals := None;
         data_expiredSetups := None;
         data_completedSignals := Some [foreignWin] |} in
  stat_wins (getStats m) = 1
  /\ overPairs (fun pair => ps_wins (getStatsForPair m pair)) = 0.
Proof. vm_compute. split; reflexivity. Qed.
